(** * ConverterTool Excel add-in: the rendering core

    A shallow embedding of [src/core/MappingProcessor.ts],
    [src/core/NunjucksRenderer.ts] and [src/core/DataOrchestrator.ts], and
    of the services behind them ([services/GlobalsService.ts],
    [services/TableService.ts], [services/OutputService.ts]), followed by
    the properties the specification states about them.

    Conventions of the embedding:
    - a JavaScript object used as a record ([Record<string, T>]) is a plain
      object: it is given by its own enumerable string-keyed properties, and
      it inherits from [Object.prototype].  Where enumeration order is
      observable ([Object.entries], [Object.keys]) the own properties are the
      list of the entries in enumeration order, otherwise a finite map;
    - reading [o[key]] finds an own property first and a member of
      [Object.prototype] next ([constructor], [toString], ...); assigning
      [o[key] = v] creates or updates an own property, except for the key
      [__proto__] that [o] does not own: that assignment reaches the setter
      of [Object.prototype] and creates no property.  Given an object (a
      rule list, a built-in function) the setter makes it the prototype of
      [o], and leaves the own properties of [o] as they are; the embedding
      records the own properties and reads every object as a plain one;
    - objects that the code shares or mutates (table rows, row arrays) live
      in an explicit object store and are handled through their references;
    - code that can throw returns a sum whose left side is the thrown value;
    - the JavaScript runtime (number printing, date parsing), the Nunjucks
      engine and the Office host are parameters, gathered in records. *)

From Stdlib Require Import ZArith String Ascii List Floats Lia.
From stdpp Require Import gmap strings list fin_maps pretty.

Local Open Scope string_scope.
Local Open Scope Z_scope.

(** ** JavaScript values and runtime *)

Module JS.

(** The local-time fields of a valid [Date], as [getFullYear], [getMonth]
    (zero-based), [getDate], [getHours], [getMinutes], [getSeconds]
    return them. *)
Record DateTime := mkDateTime {
  getFullYear : Z;
  getMonth : Z;
  getDate : Z;
  getHours : Z;
  getMinutes : Z;
  getSeconds : Z
}.

(** The ranges the getters of a valid [Date] stay in. *)
Definition valid_fields (d : DateTime) : Prop :=
  -271821 <= getFullYear d <= 275760 /\
  0 <= getMonth d <= 11 /\
  1 <= getDate d <= 31 /\
  0 <= getHours d <= 23 /\
  0 <= getMinutes d <= 59 /\
  0 <= getSeconds d <= 59.

(** The string-keyed properties of [Object.prototype], which every plain
    object inherits: seven methods and the constructor, and the five
    legacy members with underscores in their names. *)
Inductive Member :=
| Mconstructor
| MhasOwnProperty
| MisPrototypeOf
| MpropertyIsEnumerable
| MtoLocaleString
| MtoString
| MvalueOf
| MdefineGetter
| MdefineSetter
| MlookupGetter
| MlookupSetter
| Mproto.

Definition member_name (m : Member) : string :=
  match m with
  | Mconstructor => "constructor"
  | MhasOwnProperty => "hasOwnProperty"
  | MisPrototypeOf => "isPrototypeOf"
  | MpropertyIsEnumerable => "propertyIsEnumerable"
  | MtoLocaleString => "toLocaleString"
  | MtoString => "toString"
  | MvalueOf => "valueOf"
  | MdefineGetter => "__defineGetter__"
  | MdefineSetter => "__defineSetter__"
  | MlookupGetter => "__lookupGetter__"
  | MlookupSetter => "__lookupSetter__"
  | Mproto => "__proto__"
  end.

Definition members : list Member :=
  [ Mconstructor; MhasOwnProperty; MisPrototypeOf; MpropertyIsEnumerable;
    MtoLocaleString; MtoString; MvalueOf; MdefineGetter; MdefineSetter;
    MlookupGetter; MlookupSetter; Mproto ].

(** The member of [Object.prototype] that goes by the name [key]. *)
Definition inherited (key : string) : option Member :=
  List.find (fun m => String.eqb (member_name m) key) members.

(** The [length] property of an inherited member: the arity of the
    built-in function; [Object.prototype], which the accessor [__proto__]
    delivers, has none. *)
Definition member_length (m : Member) : option Z :=
  match m with
  | Mconstructor | MhasOwnProperty | MisPrototypeOf | MpropertyIsEnumerable
  | MlookupGetter | MlookupSetter => Some 1
  | MtoLocaleString | MtoString | MvalueOf => Some 0
  | MdefineGetter | MdefineSetter => Some 2
  | Mproto => None
  end.

(** [string | number | boolean]. *)
Inductive Prim :=
| PString (s : string)
| PNumber (x : float)
| PBoolean (b : bool).

(** The values a cell, a global or a filter argument can hold.
    [VDate None] is a [Date] whose time value is [NaN].  [VBuiltin m] is
    what reading the inherited property [m] of a plain object gives: a
    built-in function, and [Object.prototype] itself for [__proto__]. *)
Inductive Value :=
| VUndefined
| VNull
| VBoolean (b : bool)
| VNumber (x : float)
| VString (s : string)
| VDate (d : option DateTime)
| VBuiltin (m : Member).

(** A string where a value is expected is that string as a value. *)
Coercion VString : string >-> Value.

Definition prim_value (p : Prim) : Value :=
  match p with
  | PString s => VString s
  | PNumber x => VNumber x
  | PBoolean b => VBoolean b
  end.

(** What the language leaves to the runtime. *)
Record Runtime := mkRuntime {
  (** [String(x)] on a number *)
  Number_toString : float -> string;
  (** [String(d)] on a valid date *)
  Date_toString : DateTime -> string;
  (** [new Date(s)]: [None] is the invalid date *)
  Date_parse : string -> option DateTime;
  (** [String(f)] on a built-in function of [Object.prototype]: the text
      the implementation prints for native code *)
  Function_toString : Member -> string;
  (** the message of the [TypeError] raised when [undefined] is indexed
      or iterated *)
  TypeError_message : string
}.

(** [String(value)] *)
Definition ToString (rt : Runtime) (v : Value) : string :=
  match v with
  | VUndefined => "undefined"
  | VNull => "null"
  | VBoolean true => "true"
  | VBoolean false => "false"
  | VNumber x => Number_toString rt x
  | VString s => s
  | VDate (Some d) => Date_toString rt d
  | VDate None => "Invalid Date"
  | VBuiltin Mproto => "[object Object]"
  | VBuiltin m => Function_toString rt m
  end.

(** Truthiness, as [!value] and [value ? a : b] test it. *)
Definition ToBoolean (v : Value) : bool :=
  match v with
  | VUndefined | VNull => false
  | VBoolean b => b
  | VNumber x => negb (PrimFloat.is_zero x || PrimFloat.is_nan x)
  | VString s => negb (String.eqb s "")
  | VDate _ => true
  | VBuiltin _ => true
  end.

(** [value === null || value === undefined] *)
Definition is_nullish (v : Value) : bool :=
  match v with
  | VUndefined | VNull => true
  | _ => false
  end.

(** What is thrown: an [Error] carrying a message, or any other value. *)
Inductive Thrown :=
| ThrowError (message : string)
| ThrowValue (v : Value).

(** [error instanceof Error ? error.message : String(error)] *)
Definition error_message (rt : Runtime) (e : Thrown) : string :=
  match e with
  | ThrowError m => m
  | ThrowValue v => ToString rt v
  end.

(** A template literal prints an absent string property as [undefined]. *)
Definition interpolate (o : option string) : string :=
  match o with
  | Some s => s
  | None => "undefined"
  end.

(** [!s] on a string property that may be absent. *)
Definition falsy_string (o : option string) : bool :=
  match o with
  | Some s => String.eqb s ""
  | None => true
  end.

(** *** String methods *)

Fixpoint repeat_string (n : nat) (s : string) : string :=
  match n with
  | O => ""
  | S n' => s +:+ repeat_string n' s
  end.

(** [s.padStart(targetLength, padString)] *)
Definition padStart (targetLength : nat) (padString : string) (s : string) : string :=
  let len := String.length s in
  if (targetLength <=? len)%nat || String.eqb padString "" then s
  else
    let fillLen := (targetLength - len)%nat in
    String.substring 0 fillLen (repeat_string fillLen padString) +:+ s.

Fixpoint drop_string (n : nat) (s : string) : string :=
  match n, s with
  | O, _ => s
  | S n', String _ s' => drop_string n' s'
  | S _, EmptyString => EmptyString
  end.

(** [s.replace(pattern, replacement)] with a string pattern: only the
    first occurrence is replaced.  The replacement is inserted as it is;
    the callers below only pass decimal numerals, which contain no
    dollar sign. *)
Fixpoint replace (pattern replacement s : string) : string :=
  if String.prefix pattern s then replacement +:+ drop_string (String.length pattern) s
  else
    match s with
    | EmptyString => EmptyString
    | String c s' => String c (replace pattern replacement s')
    end.

(** [s.split(sep)] for a one-character separator; the result is never empty. *)
Fixpoint split (sep : ascii) (s : string) : list string :=
  match s with
  | EmptyString => [EmptyString]
  | String c s' =>
      if Ascii.eqb c sep then EmptyString :: split sep s'
      else
        match split sep s' with
        | piece :: pieces => String c piece :: pieces
        | [] => [String c EmptyString]
        end
  end.

Definition lower_ascii (c : ascii) : ascii :=
  let n := nat_of_ascii c in
  if ((65 <=? n) && (n <=? 90))%nat then ascii_of_nat (n + 32) else c.

(** [s.toLowerCase()] on the ASCII letters. *)
Fixpoint toLowerCase (s : string) : string :=
  match s with
  | EmptyString => EmptyString
  | String c s' => String (lower_ascii c) (toLowerCase s')
  end.

(** [String(n)] on an integer. *)
Definition String_of_int (n : Z) : string := pretty n.

(** *** Property lookup and assignment on plain objects *)

(** What [o[key]] finds: an own property, a member inherited from
    [Object.prototype], or nothing. *)
Inductive Lookup (A : Type) :=
| Own (a : A)
| Inherited (m : Member)
| Absent.
Arguments Own {A} _.
Arguments Inherited {A} _.
Arguments Absent {A}.

(** [own] is the own property [key] of the object, if it has one. *)
Definition prototype_lookup {A} (own : option A) (key : string) : Lookup A :=
  match own with
  | Some a => Own a
  | None =>
      match inherited key with
      | Some m => Inherited m
      | None => Absent
      end
  end.

(** The value an expression [o[key]] has, own properties being turned
    into values by [f]. *)
Definition lookup_value {A} (f : A -> Value) (l : Lookup A) : Value :=
  match l with
  | Own a => f a
  | Inherited m => VBuiltin m
  | Absent => VUndefined
  end.

(** [o[key] = v] on the own properties of a plain object: the key
    [__proto__], unless [o] owns it, goes to the inherited setter and no
    property is created. *)
Definition assign {A} (o : gmap string A) (key : string) (v : A) : gmap string A :=
  match o !! key with
  | Some _ => <[key := v]> o
  | None => if String.eqb key "__proto__" then o else <[key := v]> o
  end.

(** An assignment [o[key] = v] creates or updates the own property
    [key]: so for every key but [__proto__], and for [__proto__] too when
    [o] owns it. *)
Definition assignable {A} (o : gmap string A) (key : string) : bool :=
  negb (String.eqb key "__proto__") || bool_decide (is_Some (o !! key)).

(** *** Records in enumeration order *)

(** The own property [key] of the record [r]. *)
Fixpoint record_get {A} (r : list (string * A)) (key : string) : option A :=
  match r with
  | [] => None
  | (k, v) :: r' => if String.eqb k key then Some v else record_get r' key
  end.

(** [r[key]] *)
Definition record_lookup {A} (r : list (string * A)) (key : string) : Lookup A :=
  prototype_lookup (record_get r key) key.

(** The number a string of decimal digits stands for, [acc] being the
    number read so far; [None] when a character is no digit. *)
Fixpoint numeral (s : string) (acc : N) : option N :=
  match s with
  | EmptyString => Some acc
  | String c s' =>
      let n := N_of_ascii c in
      if ((48 <=? n) && (n <=? 57))%N then numeral s' (10 * acc + (n - 48))%N
      else None
  end.

(** An array index: a key that is the canonical decimal numeral of an
    integer below [2^32 - 1].  Own properties with such keys are enumerated
    first, in ascending numeric order. *)
Definition array_index (key : string) : option N :=
  match key with
  | EmptyString => None
  | _ =>
      match numeral key 0 with
      | Some n =>
          if String.eqb (pretty n) key && (n <? 4294967295)%N then Some n else None
      | None => None
      end
  end.

(** The property [key] with array index [n] takes its place among the
    array indices of [r]. *)
Fixpoint insert_index {A} (n : N) (key : string) (v : A) (r : list (string * A))
    : list (string * A) :=
  match r with
  | [] => [(key, v)]
  | (k, w) :: r' =>
      match array_index k with
      | Some m =>
          if (m <? n)%N then (k, w) :: insert_index n key v r' else (key, v) :: r
      | None => (key, v) :: r
      end
  end.

(** An own property that is there gets a new value and keeps its place. *)
Fixpoint record_replace {A} (r : list (string * A)) (key : string) (v : A)
    : list (string * A) :=
  match r with
  | [] => []
  | (k, w) :: r' =>
      if String.eqb k key then (k, v) :: r' else (k, w) :: record_replace r' key v
  end.

(** Defining the own property [key] of [r], as [JSON.parse] defines the
    properties of the object it builds: a property that is there keeps its
    place; a new array index goes among the array indices; any other new
    key, [__proto__] too, goes last. *)
Definition record_define {A} (r : list (string * A)) (key : string) (v : A)
    : list (string * A) :=
  match record_get r key with
  | Some _ => record_replace r key v
  | None =>
      match array_index key with
      | Some n => insert_index n key v r
      | None => (r ++ [(key, v)])%list
      end
  end.

(** [r[key] = v]: as [record_define], but for the key [__proto__] that
    [r] does not own, which goes to the inherited setter. *)
Definition record_set {A} (r : list (string * A)) (key : string) (v : A)
    : list (string * A) :=
  match record_get r key with
  | Some _ => record_replace r key v
  | None => if String.eqb key "__proto__" then r else record_define r key v
  end.

(** [Object.entries(o)] for the object whose properties were defined one
    after the other in the order of [declared], the order in which a
    template file declares them. *)
Definition Object_entries {A} (declared : list (string * A)) : list (string * A) :=
  foldl (fun r entry => record_define r (fst entry) (snd entry)) [] declared.

(** [k] may come before [k'] in an enumeration: array indices in
    ascending order, and before every other key. *)
Definition precedes (k k' : string) : bool :=
  match array_index k, array_index k' with
  | Some a, Some b => (a <? b)%N
  | Some _, None => true
  | None, Some _ => false
  | None, None => true
  end.

(** The keys that are no array indices, in the order they have in
    [keys]. *)
Definition other_keys (keys : list string) : list string :=
  filter (fun k => array_index k = None) keys.

(** The keys are in an order in which the own properties of an object can
    be enumerated. *)
Fixpoint enumerated (keys : list string) : bool :=
  match keys with
  | [] => true
  | k :: rest => forallb (precedes k) rest && enumerated rest
  end.

End JS.

(** ** The object store *)

Module Store.
Import JS.

(** References are positions in the store; objects are never freed. *)
Abbreviation loc := nat (only parsing).

(** A table row is a plain object, a flat record of cell values given by
    its own properties; a table is an array of row references. *)
Inductive Object :=
| ORow (fields : gmap string Value)
| OArray (elems : list loc).

Abbreviation heap := (list Object) (only parsing).

(** Computations that read and write the store; [None] stands for a
    [TypeError]: an access that the type checker rules out (a reference
    that is not of the expected shape) or an iteration over a value that is
    not iterable. *)
Definition M (A : Type) : Type := heap -> option (A * heap).

Definition ret {A} (a : A) : M A := fun h => Some (a, h).

Definition bind {A B} (m : M A) (k : A -> M B) : M B :=
  fun h =>
    match m h with
    | Some (a, h') => k a h'
    | None => None
    end.

Definition new_object (o : Object) : M loc :=
  fun h => Some (List.length h, (h ++ [o])%list).

(** The own properties of a row, as the spread [{ ...row }] reads them. *)
Definition get_fields (l : loc) : M (gmap string Value) :=
  fun h =>
    match h !! l with
    | Some (ORow fields) => Some (fields, h)
    | _ => None
    end.

(** [row[key]] on the own properties [fields] of a row: an own property,
    else the member of [Object.prototype] of that name, else [undefined]. *)
Definition read_field (fields : gmap string Value) (key : string) : Value :=
  lookup_value id (prototype_lookup (fields !! key) key).

(** [row[key]] *)
Definition get_field (l : loc) (key : string) : M Value :=
  fun h =>
    match h !! l with
    | Some (ORow fields) => Some (read_field fields key, h)
    | _ => None
    end.

(** [row[key] = v]: the own property [key] is created or updated, but
    for the key [__proto__] of a row that does not own it. *)
Definition set_field (l : loc) (key : string) (v : Value) : M unit :=
  fun h =>
    match h !! l with
    | Some (ORow fields) => Some (tt, <[l := ORow (assign fields key v)]> h)
    | _ => None
    end.

(** Raising a [TypeError]. *)
Definition type_error {A} : M A := fun _ => None.

Definition get_elems (l : loc) : M (list loc) :=
  fun h =>
    match h !! l with
    | Some (OArray elems) => Some (elems, h)
    | _ => None
    end.

(** [for (const x of xs) body(x)] *)
Fixpoint for_of {A} (xs : list A) (body : A -> M unit) : M unit :=
  match xs with
  | [] => ret tt
  | x :: xs' => bind (body x) (fun _ => for_of xs' body)
  end.

(** [xs.map(f)], calling [f] on the elements from left to right. *)
Fixpoint array_map {A B} (f : A -> M B) (xs : list A) : M (list B) :=
  match xs with
  | [] => ret []
  | x :: xs' =>
      bind (f x) (fun y => bind (array_map f xs') (fun ys => ret (y :: ys)))
  end.

End Store.

Declare Scope store_scope.
Delimit Scope store_scope with store.
Notation "'let!' x ':=' m 'in' k" := (Store.bind m (fun x => k))
  (at level 10, x name, m at level 100, k at level 200) : store_scope.
Notation "'do!' m 'in' k" := (Store.bind m (fun _ => k))
  (at level 10, m at level 100, k at level 200) : store_scope.

(** ** MappingProcessor.ts *)

Module MappingProcessor.
Import JS Store.

Record ValueMapping := mkValueMapping {
  column : string;
  outputField : string;
  map : gmap string Prim;
  default : Prim
}.

Section WithRuntime.
Context (rt : Runtime).

(** [map[key]]: an entry of the lookup table, else the member of
    [Object.prototype] of that name, else [undefined]. *)
Definition map_get (mapping : ValueMapping) (key : string) : Value :=
  lookup_value prim_value (prototype_lookup (map mapping !! key) key).

(** The body of the [for (const mapping of mappings)] loop. *)
Definition apply_mapping (row mappedRow : loc) (mapping : ValueMapping) : M unit :=
  (let! sourceValue := get_field row (column mapping) in
   if is_nullish sourceValue then
     set_field mappedRow (outputField mapping) (prim_value (default mapping))
   else
     let key := ToString rt sourceValue in
     let mappedValue := map_get mapping key in
     match mappedValue with
     | VUndefined =>
         set_field mappedRow (outputField mapping) (prim_value (default mapping))
     | _ => set_field mappedRow (outputField mapping) mappedValue
     end)%store.

(** The callback of [rows.map]. *)
Definition map_row (mappings : list ValueMapping) (row : loc) : M loc :=
  (let! fields := get_fields row in
   let! mappedRow := new_object (ORow fields) in
   do! for_of mappings (apply_mapping row mappedRow) in
   ret mappedRow)%store.

(** [mappings] is [None] when the caller passes [undefined]. *)
Definition applyMappings (rows : loc) (mappings : option (list ValueMapping)) : M loc :=
  match mappings with
  | None | Some [] => ret rows
  | Some mappings =>
      (let! elems := get_elems rows in
       let! mapped := array_map (map_row mappings) elems in
       new_object (OArray mapped))%store
  end.

(** [applyMappings(rows, mappings)] when [mappings] is no rule list but
    the member [m] of [Object.prototype], as a lookup in a plain object
    delivers it for a key like [constructor]: the member is truthy;
    [mappings.length === 0] holds for a built-in function of arity zero,
    and [rows] is returned; otherwise [rows.map] runs, and on the first row
    [for (const mapping of mappings)] raises a [TypeError], the member not
    being iterable. *)
Definition applyMappings_member (rows : loc) (m : Member) : M loc :=
  match member_length m with
  | Some 0 => ret rows
  | _ =>
      (let! elems := get_elems rows in
       match elems with
       | [] => new_object (OArray [])
       | _ :: _ => type_error
       end)%store
  end.

(** [tableMappings[tableKey]]; an own property may hold [undefined]. *)
Definition lookup_mappings
    (tableMappings : gmap string (option (list ValueMapping))) (tableKey : string)
    : Lookup (option (list ValueMapping)) :=
  prototype_lookup (tableMappings !! tableKey) tableKey.

(** [mappings ? applyMappings(rows, mappings) : rows] *)
Definition map_table (rows : loc) (mappings : Lookup (option (list ValueMapping)))
    : M loc :=
  match mappings with
  | Own (Some rules) => applyMappings rows (Some rules)
  | Own None | Absent => ret rows
  | Inherited m => applyMappings_member rows m
  end.

(** The [for (const [tableKey, rows] of Object.entries(tablesData))]
    loop, [result] being the record filled so far, in enumeration order. *)
Fixpoint applyMappingsToTables_loop
    (entries : list (string * loc))
    (tableMappings : gmap string (option (list ValueMapping)))
    (result : list (string * loc)) : M (list (string * loc)) :=
  match entries with
  | [] => ret result
  | (tableKey, rows) :: entries' =>
      (let! rows' := map_table rows (lookup_mappings tableMappings tableKey) in
       applyMappingsToTables_loop entries' tableMappings
         (record_set result tableKey rows'))%store
  end.

Definition applyMappingsToTables
    (tablesData : list (string * loc))
    (tableMappings : gmap string (option (list ValueMapping)))
    : M (list (string * loc)) :=
  applyMappingsToTables_loop tablesData tableMappings [].

End WithRuntime.

End MappingProcessor.

(** ** Code that can throw *)

Declare Scope throw_scope.
Delimit Scope throw_scope with throw.

Module Throw.
Import JS.

(** The outcome of a call: the thrown value on the left, the returned
    one on the right. *)
Definition bind {A B} (m : Thrown + A) (k : A -> Thrown + B) : Thrown + B :=
  match m with
  | inl e => inl e
  | inr a => k a
  end.

(** Using a property that is [undefined] as an object or an iterable. *)
Definition defined {A} (rt : Runtime) (o : option A) : Thrown + A :=
  match o with
  | Some a => inr a
  | None => inl (ThrowError (TypeError_message rt))
  end.

End Throw.

Notation "'let?' x ':=' m 'in' k" := (Throw.bind m (fun x => k))
  (at level 10, x name, m at level 100, k at level 200) : throw_scope.

(** ** types/template.ts *)

Module Template.
Import JS Store.

Record TemplateMetadata := mkTemplateMetadata {
  md_name : option string;
  md_version : option string;
  md_description : option string
}.

Record TableConfig := mkTableConfig {
  tc_name : option string;
  tc_columnMap : option (gmap string string);
  tc_valueMappings : option (list MappingProcessor.ValueMapping)
}.

Inductive GlobalType := TString | TNumber | TBoolean | TDate.

Record GlobalConfig := mkGlobalConfig {
  gc_name : string;
  gc_type : option GlobalType;
  gc_defaultValue : option Value
}.

(** The properties the structural validator tests for presence are
    optional here, as they are in a freshly parsed template. *)
Record OutputConfig := mkOutputConfig {
  oc_filename : option string;
  oc_template : option string;
  oc_description : option string
}.

Record AddInTemplate := mkAddInTemplate {
  metadata : option TemplateMetadata;
  tables : option (list TableConfig);
  globals : option (list GlobalConfig);
  outputs : option (list (string * OutputConfig))
}.

Record TemplateContext (Data : Type) := mkTemplateContext {
  ctx_globals : gmap string Value;
  ctx_data : Data;
  ctx_currentdatetime : string
}.
Arguments mkTemplateContext {Data} _ _ _.
Arguments ctx_globals {Data} _.
Arguments ctx_data {Data} _.
Arguments ctx_currentdatetime {Data} _.

(** [mimeType] is a string by its declared type; it holds whatever
    [getMimeType] returned. *)
Record RenderedOutput := mkRenderedOutput {
  ro_name : string;
  ro_filename : string;
  ro_content : string;
  ro_mimeType : Value
}.

Inductive Severity := SevError | SevWarning.

Record ValidationError := mkValidationError {
  field : string;
  message : string;
  severity : option Severity
}.

Record ValidationResult := mkValidationResult {
  valid : bool;
  errors : list ValidationError
}.

End Template.

(** ** NunjucksRenderer.ts *)

Module NunjucksRenderer.
Import JS Template.

(** The object handed to the engine as the rendering context: the
    properties the caller put into it. *)
Record EngineContext (Data : Type) := mkEngineContext {
  e_globals : option (gmap string Value);
  e_data : option Data;
  e_currentdatetime : option string
}.
Arguments mkEngineContext {Data} _ _ _.

(** The configured Nunjucks environment: [env.renderString(src, ctx)].
    The source is [None] when the caller passes an absent property. *)
Record Environment (Data : Type) := mkEnvironment {
  renderString : option string -> EngineContext Data -> Thrown + string
}.
Arguments renderString {Data} _ _ _.

(** The double quote character. *)
Definition dquote : string := String (ascii_of_nat 34) EmptyString.

(** [String(n).padStart(2, "0")] *)
Definition pad2 (n : Z) : string := padStart 2 "0" (String_of_int n).

Definition formatDate (date : DateTime) (format : string) : string :=
  let year := getFullYear date in
  let month := padStart 2 "0" (String_of_int (getMonth date + 1)) in
  let day := padStart 2 "0" (String_of_int (getDate date)) in
  let hours := padStart 2 "0" (String_of_int (getHours date)) in
  let minutes := padStart 2 "0" (String_of_int (getMinutes date)) in
  let seconds := padStart 2 "0" (String_of_int (getSeconds date)) in
  replace "ss" seconds
    (replace "mm" minutes
      (replace "HH" hours
        (replace "DD" day
          (replace "MM" month
            (replace "YYYY" (String_of_int year) format))))).

(** The [date] filter; [format] is [None] when the template passes no
    argument. *)
Definition date_filter (rt : Runtime) (value : Value) (format : option string) : string :=
  let format := match format with Some f => f | None => "YYYY-MM-DD" end in
  if negb (ToBoolean value) then ""
  else
    let date :=
      match value with
      | VDate d => d
      | _ => Date_parse rt (ToString rt value)
      end in
    match date with
    | None => ToString rt value
    | Some d => formatDate d format
    end.

Definition mimeTypes : list (string * string) :=
  [ ("json", "application/json");
    ("xml", "application/xml");
    ("csv", "text/csv");
    ("txt", "text/plain");
    ("html", "text/html");
    ("md", "text/markdown");
    ("yaml", "text/yaml");
    ("yml", "text/yaml") ].

(** [a || b] on strings that may be undefined. *)
Definition or_else (a : option string) (b : string) : string :=
  match a with
  | Some s => if String.eqb s "" then b else s
  | None => b
  end.

(** [a || b] on values. *)
Definition value_or (a b : Value) : Value :=
  if ToBoolean a then a else b.

(** [mimeTypes[ext || ""] || "text/plain"]: the lookup in the table, a
    plain object, also finds the members of [Object.prototype], which are
    truthy and are returned as they are. *)
Definition getMimeType (filename : string) : Value :=
  let ext := toLowerCase <$> last (split "." filename) in
  value_or (lookup_value VString (record_lookup mimeTypes (or_else ext "")))
    "text/plain".

Section WithEnvironment.
Context {Data : Type} (rt : Runtime) (env : Environment Data).

Definition render (template : option string) (context : TemplateContext Data)
    : Thrown + string :=
  renderString env template
    (mkEngineContext (Some (ctx_globals context)) (Some (ctx_data context))
       (Some (ctx_currentdatetime context))).

Definition resolveFilename (filename : option string) (context : TemplateContext Data)
    : Thrown + string :=
  renderString env filename
    (mkEngineContext (Some (ctx_globals context)) None
       (Some (ctx_currentdatetime context))).

Definition renderOutput (output : OutputConfig) (context : TemplateContext Data)
    : Thrown + RenderedOutput :=
  (let? filename := resolveFilename (oc_filename output) context in
   let? content := render (oc_template output) context in
   let mimeType := getMimeType filename in
   inr (mkRenderedOutput filename filename content mimeType))%throw.

(** [rendered.name = name] *)
Definition set_name (rendered : RenderedOutput) (name : string) : RenderedOutput :=
  mkRenderedOutput name (ro_filename rendered) (ro_content rendered)
    (ro_mimeType rendered).

(** The message of the error that replaces a failure of one output:
    [`Error rendering output "${name}": ${...}`]. *)
Definition wrap_message (name : string) (error : Thrown) : string :=
  "Error rendering output " +:+ dquote +:+ name +:+ dquote +:+ ": "
    +:+ error_message rt error.

(** The [for ... of Object.entries(outputs)] loop, [results] being the
    accumulator. *)
Fixpoint renderAllOutputs_loop
    (entries : list (string * OutputConfig)) (context : TemplateContext Data)
    (results : list RenderedOutput) : Thrown + list RenderedOutput :=
  match entries with
  | [] => inr results
  | (name, output) :: entries' =>
      match renderOutput output context with
      | inr rendered =>
          renderAllOutputs_loop entries' context
            (results ++ [set_name rendered name])%list
      | inl error => inl (ThrowError (wrap_message name error))
      end
  end.

Definition renderAllOutputs
    (outputs : list (string * OutputConfig)) (context : TemplateContext Data)
    : Thrown + list RenderedOutput :=
  renderAllOutputs_loop outputs context [].

End WithEnvironment.

End NunjucksRenderer.

(** ** DataOrchestrator.ts *)

Module DataOrchestrator.
Import JS Store Template.

(** What [tableService.getTables] reports for one table. *)
Record TableInfo := mkTableInfo {
  ti_name : string;
  ti_columns : list string;
  ti_rowCount : Z
}.

(** What [globalsService.getNamedRanges] reports for one named range. *)
Record NamedRangeInfo := mkNamedRangeInfo {
  nr_name : string;
  nr_visible : bool;
  nr_address : string
}.

(** The argument of [tableService.readTables]. *)
Record TableReadConfig := mkTableReadConfig {
  templateKey : option string;
  tableName : option string;
  columnMap : option (gmap string string)
}.

(** Table data as the rendering context carries it: the record from table
    key to row array, and the store the references point into. *)
Definition TableData : Type := list (string * loc) * heap.

(** The Office host behind [tableService] and [globalsService], and the
    clock behind [new Date()]. *)
Record Office := mkOffice {
  getTables : Thrown + list TableInfo;
  getNamedRanges : Thrown + list NamedRangeInfo;
  readAllGlobals : list GlobalConfig -> Thrown + gmap string Value;
  readTables : list TableReadConfig -> Thrown + TableData;
  now : DateTime
}.

(** [names.includes(name)] for a name that may be [undefined]. *)
Definition includes (names : list string) (name : option string) : bool :=
  match name with
  | Some n => existsb (String.eqb n) names
  | None => false
  end.

(** [errors.push(e)] when [cond] holds. *)
Definition push_if (cond : bool) (e : ValidationError) (errors : list ValidationError)
    : list ValidationError :=
  if cond then (errors ++ [e])%list else errors.

(** The [template.tables.forEach((config, index) => ...)] loop. *)
Fixpoint validate_tables (configs : list TableConfig) (index : nat)
    (errors : list ValidationError) : list ValidationError :=
  match configs with
  | [] => errors
  | config :: configs' =>
      validate_tables configs' (S index)
        (push_if (falsy_string (tc_name config))
           (mkValidationError
              ("tables[" +:+ String_of_int (Z.of_nat index) +:+ "].name")
              "Table name is required" None)
           errors)
  end.

(** The [for ... of Object.entries(template.outputs)] loop. *)
Fixpoint validate_outputs (entries : list (string * OutputConfig))
    (errors : list ValidationError) : list ValidationError :=
  match entries with
  | [] => errors
  | (name, output) :: entries' =>
      let errors :=
        push_if (falsy_string (oc_template output))
          (mkValidationError ("outputs." +:+ name +:+ ".template")
             "Template content is required" None)
          errors in
      let errors :=
        push_if (falsy_string (oc_filename output))
          (mkValidationError ("outputs." +:+ name +:+ ".filename")
             "Filename is required" None)
          errors in
      validate_outputs entries' errors
  end.

Definition validateTemplate (template : AddInTemplate) : ValidationResult :=
  let errors := [] in
  let errors :=
    push_if (falsy_string (metadata template ≫= md_name))
      (mkValidationError "metadata.name" "Template name is required" None) errors in
  let errors :=
    push_if (falsy_string (metadata template ≫= md_version))
      (mkValidationError "metadata.version" "Template version is required" None)
      errors in
  let errors :=
    match tables template with
    | None | Some [] =>
        (errors ++ [mkValidationError "tables"
                      "At least one table mapping is required" None])%list
    | Some configs => validate_tables configs 0 errors
    end in
  let errors :=
    match outputs template with
    | None | Some [] =>
        (errors ++ [mkValidationError "outputs"
                      "At least one output is required" None])%list
    | Some entries => validate_outputs entries errors
    end in
  mkValidationResult (Nat.eqb (List.length errors) 0) errors.

(** [e.severity !== "warning"] *)
Definition not_warning (e : ValidationError) : bool :=
  match severity e with
  | Some SevWarning => false
  | _ => true
  end.

Definition missing_table (name : option string) : ValidationError :=
  mkValidationError ("tables." +:+ interpolate name)
    ("Excel Table " +:+ NunjucksRenderer.dquote +:+ interpolate name
       +:+ NunjucksRenderer.dquote +:+ " not found in workbook")
    (Some SevError).

Definition missing_global (name : string) : ValidationError :=
  mkValidationError ("globals." +:+ name)
    ("Named Range " +:+ NunjucksRenderer.dquote +:+ name +:+ NunjucksRenderer.dquote
       +:+ " not found. Will use default value.")
    (Some SevWarning).

(** The first loop of [validateDataAvailability]. *)
Fixpoint check_tables (tableNames : list string) (configs : list TableConfig)
    (errors : list ValidationError) : list ValidationError :=
  match configs with
  | [] => errors
  | config :: configs' =>
      check_tables tableNames configs'
        (push_if (negb (includes tableNames (tc_name config)))
           (missing_table (tc_name config)) errors)
  end.

(** The second loop of [validateDataAvailability]. *)
Fixpoint check_globals (rangeNames : list string) (configs : list GlobalConfig)
    (errors : list ValidationError) : list ValidationError :=
  match configs with
  | [] => errors
  | config :: configs' =>
      check_globals rangeNames configs'
        (push_if (negb (includes rangeNames (Some (gc_name config))))
           (missing_global (gc_name config)) errors)
  end.

Section WithHost.
Context (rt : Runtime) (office : Office)
        (env : NunjucksRenderer.Environment TableData).

Definition validateDataAvailability (template : AddInTemplate)
    : Thrown + ValidationResult :=
  (let errors := [] in
   let? availableTables := getTables office in
   let tableNames := List.map ti_name availableTables in
   let? configs := Throw.defined rt (tables template) in
   let errors := check_tables tableNames configs errors in
   let? errors :=
     match globals template with
     | Some configs =>
         let? availableRanges := getNamedRanges office in
         let rangeNames := List.map nr_name availableRanges in
         inr (check_globals rangeNames configs errors)
     | None => inr errors
     end in
   inr (mkValidationResult
          (Nat.eqb (List.length (List.filter not_warning errors)) 0) errors))%throw.

(** [String(value).padStart(2, "0")] *)
Definition pad (value : Z) : string := padStart 2 "0" (String_of_int value).

Definition currentdatetime_of (now : DateTime) : string :=
  String_of_int (getFullYear now) +:+ "-" +:+ pad (getMonth now + 1) +:+ "-"
    +:+ pad (getDate now) +:+ "_" +:+ pad (getHours now) +:+ "-"
    +:+ pad (getMinutes now) +:+ "-" +:+ pad (getSeconds now).

(** The [for (const config of template.tables)] loop that fills
    [mappingsConfig]: [mappingsConfig[config.name] = config.valueMappings],
    an assignment that files nothing under the name [__proto__].  (A rule
    list assigned under that name becomes the prototype of
    [mappingsConfig]; the own properties, which this function computes, are
    the same.) *)
Fixpoint mappingsConfig_of (configs : list TableConfig)
    (mappingsConfig : gmap string (option (list MappingProcessor.ValueMapping)))
    : gmap string (option (list MappingProcessor.ValueMapping)) :=
  match configs with
  | [] => mappingsConfig
  | config :: configs' =>
      mappingsConfig_of configs'
        (assign mappingsConfig (interpolate (tc_name config)) (tc_valueMappings config))
  end.

Definition buildContext (template : AddInTemplate) : Thrown + TemplateContext TableData :=
  (let? globals :=
     match globals template with
     | Some configs => readAllGlobals office configs
     | None => inr ∅
     end in
   let? configs := Throw.defined rt (tables template) in
   let tableConfigs :=
     List.map (fun config =>
                 mkTableReadConfig (tc_name config) (tc_name config)
                   (tc_columnMap config)) configs in
   let? data := readTables office tableConfigs in
   let mappingsConfig := mappingsConfig_of configs ∅ in
   let? data :=
     match MappingProcessor.applyMappingsToTables rt (fst data) mappingsConfig
             (snd data) with
     | Some mapped => inr mapped
     | None => inl (ThrowError (TypeError_message rt))
     end in
   let currentdatetime := currentdatetime_of (now office) in
   inr (mkTemplateContext globals data currentdatetime))%throw.

Definition generateOutputs (template : AddInTemplate) : Thrown + list RenderedOutput :=
  (let? context := buildContext template in
   let? outputs := Throw.defined rt (outputs template) in
   NunjucksRenderer.renderAllOutputs rt env outputs context)%throw.

(** [template.outputs[outputName]] read as an output definition: an own
    property is one; a member of [Object.prototype] is a truthy object
    whose [filename], [template] and [description] are [undefined];
    [None] is [undefined]. *)
Definition output_of (found : Lookup OutputConfig) : option OutputConfig :=
  match found with
  | Own output => Some output
  | Inherited _ => Some (mkOutputConfig None None None)
  | Absent => None
  end.

(** [None] in the result is the [null] sentinel. *)
Definition previewOutput (template : AddInTemplate) (outputName : string)
    : Thrown + option RenderedOutput :=
  (let? outputs := Throw.defined rt (outputs template) in
   match output_of (record_lookup outputs outputName) with
   | None => inr None
   | Some output =>
       let? context := buildContext template in
       let? rendered := NunjucksRenderer.renderOutput env output context in
       inr (Some rendered)
   end)%throw.

End WithHost.

End DataOrchestrator.

(** ** The specification's reading of the value mapper *)

Module MappingSpec.
Import JS Store MappingProcessor.

(** The value a rule gives to its destination field, in the
    specification's words: the default when the source column of the
    original row is null, undefined or absent; otherwise the entry of the
    lookup table under the string form of the source value, and the
    default when the table has no such entry. *)
Definition rule_value (rt : Runtime) (original : gmap string Value) (rule : ValueMapping)
    : Value :=
  match original !! column rule with
  | None | Some VUndefined | Some VNull => prim_value (default rule)
  | Some v =>
      match map rule !! ToString rt v with
      | Some mapped => prim_value mapped
      | None => prim_value (default rule)
      end
  end.





(** The array [rows] holds exactly the row objects [fields], in order. *)
Definition rows_at (h : heap) (rows : loc) (elems : list loc)
    (fields : list (gmap string Value)) : Prop :=
  h !! rows = Some (OArray elems) /\
  Forall2 (fun l fr => h !! l = Some (ORow fr)) elems fields.

(** Every table of [tablesData] is an array of row objects in [h]. *)
Definition tables_at (h : list Object) (tablesData : list (string * nat)) : Prop :=
  Forall (fun entry => exists elems fields, rows_at h (snd entry) elems fields) tablesData.

End MappingSpec.

(** ** Vocabulary for the statements about the renderer *)

Module RendererSpec.
Import JS Template NunjucksRenderer.

(** [sub] occurs in [s]. *)
Definition contains (s sub : string) : Prop :=
  exists pre post, s = pre +:+ sub +:+ post.

(** [pattern] occurs in [s] right after the first [i] characters. *)
Definition occurs_at (pattern s : string) (i : nat) : Prop :=
  exists pre post, s = pre +:+ pattern +:+ post /\ String.length pre = i.

(** The decimal digit [n], as a character. *)
Definition digit_char (n : Z) : ascii := ascii_of_nat (48 + Z.to_nat n).

(** A number below one hundred written with exactly two decimal digits. *)
Definition two_digits (n : Z) : string :=
  String (digit_char (n / 10)) (String (digit_char (n mod 10)) EmptyString).

(** [s] has no full stop in it. *)
Fixpoint dotless (s : string) : bool :=
  match s with
  | EmptyString => true
  | String c s' => negb (Ascii.eqb c ".") && dotless s'
  end.

(** The specification's table from extension to MIME type, with its
    default. *)
Definition mime_of_extension (ext : string) : string :=
  if String.eqb ext "json" then "application/json"
  else if String.eqb ext "xml" then "application/xml"
  else if String.eqb ext "csv" then "text/csv"
  else if String.eqb ext "txt" then "text/plain"
  else if String.eqb ext "html" then "text/html"
  else if String.eqb ext "md" then "text/markdown"
  else if String.eqb ext "yaml" then "text/yaml"
  else if String.eqb ext "yml" then "text/yaml"
  else "text/plain".

End RendererSpec.

(** ** Vocabulary for the statements about the validators *)

Module ValidatorSpec.
Import JS Template DataOrchestrator.

(** The binding name [name] is one of the names the host reports. *)
Definition listed (names : list string) (name : option string) : Prop :=
  exists n, name = Some n /\ n ∈ names.

#[export] Instance listed_dec names name : Decision (listed names name).
Proof.
  destruct name as [n|].
  - destruct (decide (n ∈ names)) as [Hin|Hout].
    + left. by exists n.
    + right. intros (m & [= <-] & Hin). by apply Hout.
  - right. by intros (m & [=] & _).
Defined.

(** One error record per table binding the host does not have. *)
Definition table_records (tableNames : list string) (configs : list TableConfig)
    : list ValidationError :=
  List.map (fun config => missing_table (tc_name config))
    (filter (fun config => ~ listed tableNames (tc_name config)) configs).

(** One warning record per global the host does not have. *)
Definition global_records (rangeNames : list string) (configs : list GlobalConfig)
    : list ValidationError :=
  List.map (fun config => missing_global (gc_name config))
    (filter (fun config => gc_name config ∉ rangeNames) configs).

Definition name_record : ValidationError :=
  mkValidationError "metadata.name" "Template name is required" None.

Definition version_record : ValidationError :=
  mkValidationError "metadata.version" "Template version is required" None.

Definition tables_record : ValidationError :=
  mkValidationError "tables" "At least one table mapping is required" None.

Definition outputs_record : ValidationError :=
  mkValidationError "outputs" "At least one output is required" None.

(** The four structural checks, each on its own part of the template. *)
Definition name_check (template : AddInTemplate) : list ValidationError :=
  if falsy_string (metadata template ≫= md_name) then [name_record] else [].

Definition version_check (template : AddInTemplate) : list ValidationError :=
  if falsy_string (metadata template ≫= md_version) then [version_record] else [].

Definition table_name_records (from : nat) (configs : list TableConfig)
    : list ValidationError :=
  concat (imap (fun i config =>
                  if falsy_string (tc_name config)
                  then [mkValidationError
                          ("tables[" +:+ String_of_int (Z.of_nat (from + i)) +:+ "].name")
                          "Table name is required" None]
                  else []) configs).

Definition tables_check (template : AddInTemplate) : list ValidationError :=
  match tables template with
  | None | Some [] => [tables_record]
  | Some configs => table_name_records 0 configs
  end.

Definition output_records (entry : string * OutputConfig) : list ValidationError :=
  ((if falsy_string (oc_template (snd entry))
    then [mkValidationError ("outputs." +:+ fst entry +:+ ".template")
            "Template content is required" None]
    else []) ++
   (if falsy_string (oc_filename (snd entry))
    then [mkValidationError ("outputs." +:+ fst entry +:+ ".filename")
            "Filename is required" None]
    else []))%list.

Definition outputs_check (template : AddInTemplate) : list ValidationError :=
  match outputs template with
  | None | Some [] => [outputs_record]
  | Some entries => concat (List.map output_records entries)
  end.

(** The template declares no output at all. *)
Definition zero_outputs (template : AddInTemplate) : Prop :=
  outputs template = None \/ outputs template = Some [].

End ValidatorSpec.

(** ** NunjucksRenderer.ts: the escaping filters *)

Module NunjucksFilters.
Import JS NunjucksRenderer.

(** [s.replace(/c/g, replacement)] for a pattern of one literal character:
    every occurrence is replaced.  The replacements passed below contain no
    dollar sign. *)
Fixpoint replace_all (c : ascii) (replacement : string) (s : string) : string :=
  match s with
  | EmptyString => EmptyString
  | String x s' =>
      (if Ascii.eqb x c then replacement else String x EmptyString)
        +:+ replace_all c replacement s'
  end.

(** [s.includes(c)] for a one-character string. *)
Fixpoint includes_char (c : ascii) (s : string) : bool :=
  match s with
  | EmptyString => false
  | String x s' => Ascii.eqb x c || includes_char c s'
  end.

(** The double quote and the line feed, as characters. *)
Definition dquote_char : ascii := ascii_of_nat 34.
Definition newline_char : ascii := ascii_of_nat 10.

(** The [csvEscape] filter. *)
Definition csvEscape (rt : Runtime) (value : Value) : string :=
  if is_nullish value then ""
  else
    let str := ToString rt value in
    if includes_char "," str || includes_char dquote_char str
       || includes_char newline_char str
    then dquote +:+ replace_all dquote_char (dquote +:+ dquote) str +:+ dquote
    else str.

(** The [xmlEscape] filter. *)
Definition xmlEscape (rt : Runtime) (value : Value) : string :=
  if is_nullish value then ""
  else
    replace_all "'" "&apos;"
      (replace_all dquote_char "&quot;"
        (replace_all ">" "&gt;"
          (replace_all "<" "&lt;"
            (replace_all "&" "&amp;" (ToString rt value))))).

(** The [defaultValue] filter. *)
Definition defaultValue (value defaultVal : Value) : Value :=
  match value with
  | VNull | VUndefined => defaultVal
  | VString s => if String.eqb s "" then defaultVal else value
  | _ => value
  end.

End NunjucksFilters.

(** ** Vocabulary for the statements about the filters and the time stamp *)

Module TextSpec.
Import JS NunjucksFilters.

(** The entity that stands for a character in XML text. *)
Definition xml_entity (c : ascii) : string :=
  if Ascii.eqb c "&" then "&amp;"
  else if Ascii.eqb c "<" then "&lt;"
  else if Ascii.eqb c ">" then "&gt;"
  else if Ascii.eqb c dquote_char then "&quot;"
  else if Ascii.eqb c "'" then "&apos;"
  else String c EmptyString.

(** Every character replaced by its entity, in one pass. *)
Fixpoint escape_each (s : string) : string :=
  match s with
  | EmptyString => EmptyString
  | String c s' => xml_entity c +:+ escape_each s'
  end.

(** How often [c] occurs in [s]. *)
Fixpoint count_char (c : ascii) (s : string) : nat :=
  match s with
  | EmptyString => 0%nat
  | String x s' => ((if Ascii.eqb x c then 1 else 0) + count_char c s')%nat
  end.

(** Every character of [s] passes the test [p]. *)
Fixpoint all_chars (p : ascii -> bool) (s : string) : bool :=
  match s with
  | EmptyString => true
  | String c s' => p c && all_chars p s'
  end.

(** A decimal digit. *)
Definition is_digit (c : ascii) : bool :=
  let n := nat_of_ascii c in ((48 <=? n) && (n <=? 57))%nat.

(** A character of a signed decimal numeral. *)
Definition is_numeral_char (c : ascii) : bool :=
  is_digit c || Ascii.eqb c "-".

(** A character of a time stamp: a digit, a hyphen or an underscore. *)
Definition is_stamp_char (c : ascii) : bool :=
  is_digit c || Ascii.eqb c "-" || Ascii.eqb c "_".

End TextSpec.

(** ** More vocabulary for the value mapper *)

Module TablesSpec.
Import JS Store MappingProcessor MappingSpec.




End TablesSpec.

(** ** More vocabulary for the orchestrator *)

Module OrchestratorSpec.
Import JS Template DataOrchestrator.

(** A string property that is there and not empty. *)
Definition present (o : option string) : Prop :=
  exists s, o = Some s /\ s <> "".

(** What the structural validator asks of a template: a name and a
    version, at least one table binding and every binding named, at least
    one output and every output with a template and a filename. *)
Definition well_formed (template : AddInTemplate) : Prop :=
  present (metadata template ≫= md_name) /\
  present (metadata template ≫= md_version) /\
  (exists configs,
      tables template = Some configs /\ configs <> [] /\
      Forall (fun config => present (tc_name config)) configs) /\
  (exists entries,
      outputs template = Some entries /\ entries <> [] /\
      Forall (fun entry => present (oc_template (snd entry)) /\
                           present (oc_filename (snd entry))) entries).

(** The last table binding, in declaration order, that goes by the name
    [tableKey]. *)
Definition last_binding (tableKey : string) (configs : list TableConfig)
    : option TableConfig :=
  last (filter (fun config => interpolate (tc_name config) = tableKey) configs).


(** No table binding named [__proto__] carries a rule list.  Such a list
    would become the prototype of [mappingsConfig], which then inherits
    from an array; without one, [mappingsConfig] inherits from
    [Object.prototype], as every plain object does. *)
Definition plain_bindings (configs : list TableConfig) : Prop :=
  Forall (fun config => interpolate (tc_name config) = "__proto__" ->
                        tc_valueMappings config = None) configs.


End OrchestratorSpec.

(** ** services/GlobalsService.ts *)

Module GlobalsService.
Import JS Template.

(** What the conversions of a named range ask of the runtime. *)
Record Conversions := mkConversions {
  (** [parseFloat(s)] *)
  parseFloat : string -> float;
  (** [d.toISOString()] on a valid date *)
  Date_toISOString : DateTime -> string;
  (** [new Date(ms).toISOString()]: [None] when the time value is out of
      range, where the call throws a [RangeError] *)
  time_toISOString : float -> option string;
  (** [new Date().toISOString()] *)
  now_toISOString : string;
  (** the message of that [RangeError] *)
  RangeError_message : string
}.

(** The workbook behind [Excel.run]: [session] is the failure with which
    [Excel.run] itself rejects, if it does; [named_value] is what
    [range.values[0]?.[0]] holds once the named item, its range and the
    sync went through, and what was thrown on the way otherwise. *)
Record Workbook := mkWorkbook {
  session : option Thrown;
  named_value : string -> Thrown + Value
}.

Definition Excel_run {A} (wb : Workbook) (body : Thrown + A) : Thrown + A :=
  match session wb with
  | Some e => inl e
  | None => body
  end.

Section WithConversions.
Context (rt : Runtime) (cv : Conversions).

Definition excelDateToISO (serial : float) : Thrown + string :=
  let excelEpoch := (-2209161600000)%float in
  let msPerDay := (24 * 60 * 60 * 1000)%float in
  match time_toISOString cv (excelEpoch + serial * msPerDay)%float with
  | Some iso => inr iso
  | None => inl (ThrowError (RangeError_message cv))
  end.

(** [type] is [None] for any string other than the three named ones: the
    default branch of the switch. *)
Definition convertValue (value : Value) (type : option GlobalType) : Thrown + Value :=
  match type with
  | Some TNumber =>
      match value with
      | VNumber _ => inr value
      | _ =>
          let num := parseFloat cv (ToString rt value) in
          inr (VNumber (if PrimFloat.is_nan num then 0%float else num))
      end
  | Some TBoolean =>
      match value with
      | VBoolean _ => inr value
      | _ =>
          let str := toLowerCase (ToString rt value) in
          inr (VBoolean (String.eqb str "true" || String.eqb str "1"
                         || String.eqb str "yes"))
      end
  | Some TDate =>
      match value with
      | VDate (Some d) => inr (VString (Date_toISOString cv d))
      | VDate None => inl (ThrowError (RangeError_message cv))
      | VNumber serial =>
          match excelDateToISO serial with
          | inr iso => inr (VString iso)
          | inl e => inl e
          end
      | _ => inr (VString (ToString rt value))
      end
  | _ => inr (VString (ToString rt value))
  end.

Definition getDefaultForType (type : option GlobalType) : Value :=
  match type with
  | Some TNumber => VNumber 0%float
  | Some TBoolean => VBoolean false
  | Some TDate => VString (now_toISOString cv)
  | _ => VString ""
  end.

(** [defaultValue ?? this.getDefaultForType(type)] *)
Definition default_or_type (defaultValue : option Value) (type : option GlobalType)
    : Value :=
  match defaultValue with
  | None | Some VNull | Some VUndefined => getDefaultForType type
  | Some v => v
  end.

(** [type] defaults to the string type when the caller passes none. *)
Definition readNamedRange (wb : Workbook) (rangeName : string)
    (type : option GlobalType) (defaultValue : option Value) : Thrown + Value :=
  let type := match type with Some t => Some t | None => Some TString end in
  Excel_run wb
    (match named_value wb rangeName with
     | inr value =>
         match value with
         | VNull | VUndefined => inr (default_or_type defaultValue type)
         | _ =>
             if (match value with VString s => String.eqb s "" | _ => false end)
             then inr (default_or_type defaultValue type)
             else
               match convertValue value type with
               | inr converted => inr converted
               | inl _ => inr (default_or_type defaultValue type)
               end
         end
     | inl _ => inr (default_or_type defaultValue type)
     end).

(** The [for (const config of globalsConfig)] loop, [globals] being the
    record filled so far: [globals[config.name] = ...], an assignment that
    files nothing under the name [__proto__]. *)
Fixpoint readAllGlobals_loop (wb : Workbook) (globalsConfig : list GlobalConfig)
    (globals : gmap string Value) : Thrown + gmap string Value :=
  match globalsConfig with
  | [] => inr globals
  | config :: rest =>
      match readNamedRange wb (gc_name config) (gc_type config)
              (gc_defaultValue config) with
      | inr value => readAllGlobals_loop wb rest (assign globals (gc_name config) value)
      | inl e => inl e
      end
  end.

Definition readAllGlobals (wb : Workbook) (globalsConfig : list GlobalConfig)
    : Thrown + gmap string Value :=
  readAllGlobals_loop wb globalsConfig ∅.

End WithConversions.

End GlobalsService.

(** ** services/TableService.ts *)

Module TableService.
Import JS Store Template DataOrchestrator.

(** The workbook behind [Excel.run]: for a table name, the header row and
    the body rows as [headerRange.values[0]] and [bodyRange.values] hold
    them once the sync went through, or what was thrown on the way (no
    such table, no workbook).  Excel delivers the value of a cell as a
    string, a number or a boolean. *)
Record Workbook := mkWorkbook {
  table_values : option string -> Thrown + (list string * list (list Prim))
}.

(** [headers] holds strings by its declared type; at run time it holds
    what the renaming returned. *)
Record ProcessedTableData := mkProcessedTableData {
  pd_key : option string;
  pd_tableName : option string;
  pd_headers : list Value;
  pd_rows : loc;
  pd_rowCount : nat
}.

(** [columnMap && columnMap[header] ? columnMap[header] : header]: the
    lookup in the column map, a plain object, also finds the members of
    [Object.prototype], which are truthy and take the place of the
    header. *)
Definition rename (columnMap : option (gmap string string)) (header : string) : Value :=
  match columnMap with
  | Some renames =>
      let renamed := lookup_value VString (prototype_lookup (renames !! header) header) in
      if ToBoolean renamed then renamed else VString header
  | None => VString header
  end.

(** [rows.push(row)] *)
Definition push (array : loc) (x : loc) : M unit :=
  fun h =>
    match h !! array with
    | Some (OArray elems) => Some (tt, <[array := OArray (elems ++ [x])]> h)
    | _ => None
    end.

(** [rowValues[index]] *)
Definition cell (rowValues : list Prim) (index : nat) : Value :=
  from_option prim_value VUndefined (rowValues !! index).

Section WithRuntime.
Context (rt : Runtime).

(** [headers.forEach((header, index) => { row[header] = rowValues[index]; })],
    from position [index] on; a header that is no string is turned into
    its string form to serve as a property key. *)
Fixpoint fill_row (row : loc) (headers : list Value) (index : nat)
    (rowValues : list Prim) : M unit :=
  match headers with
  | [] => ret tt
  | header :: headers' =>
      (do! set_field row (ToString rt header) (cell rowValues index) in
       fill_row row headers' (S index) rowValues)%store
  end.

(** The body of the [for (const rowValues of bodyValues)] loop. *)
Definition add_row (rows : loc) (headers : list Value) (rowValues : list Prim)
    : M unit :=
  (let! row := new_object (ORow ∅) in
   do! fill_row row headers 0 rowValues in
   push rows row)%store.

Definition readTable (wb : Workbook) (tableName : option string)
    (columnMap : option (gmap string string)) : M (Thrown + ProcessedTableData) :=
  match table_values wb tableName with
  | inl e => ret (inl e)
  | inr (rawHeaders, bodyValues) =>
      let headers := List.map (rename columnMap) rawHeaders in
      (let! rows := new_object (OArray []) in
       do! for_of bodyValues (add_row rows headers) in
       ret (inr (mkProcessedTableData tableName tableName headers rows
                   (List.length bodyValues))))%store
  end.

(** The [for (const config of tableConfigs)] loop with its try and catch,
    [result] being the record filled so far, in enumeration order:
    [result[config.templateKey] = ...] puts a new key that is an array
    index among the array indices and any other new key last, and files
    nothing under the key [__proto__]. *)
Fixpoint readTables_loop (wb : Workbook) (tableConfigs : list TableReadConfig)
    (result : list (string * loc)) : M (list (string * loc)) :=
  match tableConfigs with
  | [] => ret result
  | config :: rest =>
      (let! outcome := readTable wb (tableName config) (columnMap config) in
       match outcome with
       | inr tableData =>
           readTables_loop wb rest
             (record_set result (interpolate (templateKey config)) (pd_rows tableData))
       | inl _ =>
           let! empty := new_object (OArray []) in
           readTables_loop wb rest
             (record_set result (interpolate (templateKey config)) empty)
       end)%store
  end.

Definition readTables (wb : Workbook) (tableConfigs : list TableReadConfig)
    : M (list (string * loc)) :=
  readTables_loop wb tableConfigs [].

End WithRuntime.

End TableService.

(** ** Vocabulary for the statements about the tables service *)

Module TableReadSpec.
Import JS Store Template DataOrchestrator TableService MappingSpec.

(** The fields of a row object built from [headers] and [rowValues],
    column by column from position [index] on, over the fields [acc]. *)
Fixpoint fill_fields (rt : Runtime) (headers : list Value) (index : nat)
    (rowValues : list Prim) (acc : gmap string Value) : gmap string Value :=
  match headers with
  | [] => acc
  | header :: headers' =>
      fill_fields rt headers' (S index) rowValues
        (assign acc (ToString rt header) (cell rowValues index))
  end.

Definition row_fields (rt : Runtime) (headers : list Value) (rowValues : list Prim)
    : gmap string Value :=
  fill_fields rt headers 0 rowValues ∅.

(** What [readTables] leaves under the key of [config], in the store [h]
    at the reference [rows]: the rows of the table when it could be read,
    an empty array when it could not. *)
Definition table_read (rt : Runtime) (wb : Workbook) (h : list Object)
    (config : TableReadConfig) (rows : nat) : Prop :=
  match table_values wb (tableName config) with
  | inr (rawHeaders, bodyValues) =>
      exists elems,
        rows_at h rows elems
          (List.map (row_fields rt (List.map (rename (columnMap config)) rawHeaders))
             bodyValues)
  | inl _ => rows_at h rows [] []
  end.

(** The keys of the configurations other than [__proto__], under which
    [readTables] files nothing. *)
Definition filed_keys (tableConfigs : list TableReadConfig) : list string :=
  filter (fun key => key <> "__proto__")
    (List.map (fun config => interpolate (templateKey config)) tableConfigs).

End TableReadSpec.

(** ** services/OutputService.ts *)

Module OutputService.
Import JS Template.

(** What a download hands to the browser: [FileBlob] is the blob made of
    one file's content with the [type] option as it was passed; [ZipBlob]
    is the blob that JSZip generates after the given sequence of
    [zip.file(name, content)] calls.  What the archive then holds is up to
    JSZip, which keeps one file per name and makes folders for the names
    with a slash. *)
Inductive Blob :=
| FileBlob (content : string) (type : Value)
| ZipBlob (calls : list (string * string)).

(** [downloadBlob(blob, filename)] *)
Record Download := mkDownload {
  dl_blob : Blob;
  dl_filename : string
}.

Definition mimeTypes : list (string * string) :=
  [ ("json", "application/json");
    ("xml", "application/xml");
    ("csv", "text/csv");
    ("txt", "text/plain");
    ("html", "text/html");
    ("htm", "text/html");
    ("md", "text/markdown");
    ("yaml", "text/yaml");
    ("yml", "text/yaml");
    ("js", "text/javascript");
    ("ts", "text/typescript");
    ("css", "text/css") ].

Definition getMimeType (filename : string) : Value :=
  let ext := toLowerCase <$> last (split "." filename) in
  NunjucksRenderer.value_or
    (lookup_value VString (record_lookup mimeTypes (NunjucksRenderer.or_else ext "")))
    "text/plain".

(** [mimeType] is [None] when the caller passes none. *)
Definition downloadFile (content filename : string) (mimeType : option Value)
    : Download :=
  let type :=
    NunjucksRenderer.value_or (from_option id VUndefined mimeType)
      (getMimeType filename) in
  mkDownload (FileBlob content type) filename.

Definition downloadAsZip (files : list (string * string)) (zipFilename : string)
    : Download :=
  mkDownload (ZipBlob files) zipFilename.

(** [timestamp] is what [getTimestamp()] returns at the time of the call;
    [templateName] is [None] when the caller passes [undefined]. *)
Definition downloadOutputs (timestamp : string) (outputs : list RenderedOutput)
    (templateName : option string) : Thrown + Download :=
  match outputs with
  | [] => inl (ThrowError "No outputs to download")
  | [output] =>
      inr (downloadFile (ro_content output) (ro_filename output)
             (Some (ro_mimeType output)))
  | _ =>
      let files :=
        List.map (fun output => (ro_filename output, ro_content output)) outputs in
      let zipName :=
        if falsy_string templateName
        then "outputs_" +:+ timestamp +:+ ".zip"
        else interpolate templateName +:+ "_outputs.zip" in
      inr (downloadAsZip files zipName)
  end.

End OutputService.

(** ** Vocabulary for the statements about the globals *)

Module GlobalsSpec.
Import JS Template.

(** The value is of the declared type of a global; dates and strings are
    both delivered as strings. *)
Definition of_type (type : option GlobalType) (v : Value) : Prop :=
  match type with
  | Some TNumber => exists x, v = VNumber x
  | Some TBoolean => exists b, v = VBoolean b
  | _ => exists s, v = VString s
  end.

(** The declared default is absent or null, so that the default of the
    type stands in for it. *)
Definition no_default (defaultValue : option Value) : Prop :=
  defaultValue = None \/ defaultValue = Some VNull \/ defaultValue = Some VUndefined.

(** The names of the globals other than [__proto__], under which
    [readAllGlobals] files nothing. *)
Definition filed_names (configs : list GlobalConfig) : list string :=
  filter (fun name => name <> "__proto__") (List.map gc_name configs).

End GlobalsSpec.

(** ** Sample data

    A small runtime, engine and host on which the definitions above can be
    run. *)

Module Sample.
Import JS Store Template MappingProcessor.

(** Prints a number that is an integer in decimal; enough for cell values
    that are codes and counts. *)
Definition Number_toString (x : float) : string :=
  match Prim2SF x with
  | S754_zero _ => "0"
  | S754_infinity false => "Infinity"
  | S754_infinity true => "-Infinity"
  | S754_nan => "NaN"
  | S754_finite sign m e =>
      let magnitude :=
        if 0 <=? e then Some (Z.pos m * 2 ^ e)
        else if Z.pos m mod 2 ^ (- e) =? 0 then Some (Z.pos m / 2 ^ (- e))
        else None in
      match magnitude with
      | Some n => (if sign then "-" else "") +:+ String_of_int n
      | None => "fraction"
      end
  end.

Definition digit (c : ascii) : option Z :=
  let n := nat_of_ascii c in
  if ((48 <=? n) && (n <=? 57))%nat then Some (Z.of_nat n - 48) else None.

Definition digits2 (a b : ascii) : option Z :=
  x ← digit a; y ← digit b; Some (10 * x + y).

Definition digits4 (a b c d : ascii) : option Z :=
  x ← digits2 a b; y ← digits2 c d; Some (100 * x + y).

Definition in_range (lo hi x : Z) : option Z :=
  if (lo <=? x) && (x <=? hi) then Some x else None.

(** Reads the local date-time form [YYYY-MM-DDTHH:mm:ss] and nothing
    else. *)
Definition Date_parse (s : string) : option DateTime :=
  match list_ascii_of_string s with
  | [y1; y2; y3; y4; d1; m1; m2; d2; a1; a2; t; h1; h2; c1; n1; n2; c2; s1; s2] =>
      if (Ascii.eqb d1 "-" && Ascii.eqb d2 "-" && Ascii.eqb t "T"
          && Ascii.eqb c1 ":" && Ascii.eqb c2 ":")%bool
      then
        year ← digits4 y1 y2 y3 y4;
        month ← digits2 m1 m2 ≫= in_range 1 12;
        day ← digits2 a1 a2 ≫= in_range 1 31;
        hours ← digits2 h1 h2 ≫= in_range 0 23;
        minutes ← digits2 n1 n2 ≫= in_range 0 59;
        seconds ← digits2 s1 s2 ≫= in_range 0 59;
        Some (mkDateTime year (month - 1) day hours minutes seconds)
      else None
  | _ => None
  end.

Definition Date_toString (d : DateTime) : string :=
  String_of_int (getFullYear d) +:+ "-" +:+ String_of_int (getMonth d + 1) +:+ "-"
    +:+ String_of_int (getDate d) +:+ " " +:+ String_of_int (getHours d) +:+ ":"
    +:+ String_of_int (getMinutes d) +:+ ":" +:+ String_of_int (getSeconds d).

(** The text printed for a built-in function, the constructor going by
    the name [Object]. *)
Definition Function_toString (m : Member) : string :=
  "function "
    +:+ (match m with Mconstructor => "Object" | _ => member_name m end)
    +:+ "() { [native code] }".

Definition runtime : Runtime :=
  mkRuntime Number_toString Date_toString Date_parse Function_toString
    "undefined is not iterable".

(** 5 January 2024, midnight: [new Date(2024, 0, 5)]. *)
Definition jan5 : DateTime := mkDateTime 2024 0 5 0 0 0.

(** A table of two rows: one with a status code, one without. *)
Definition first_row : gmap string Value := {[ "status" := VString "A" ]}.
Definition second_row : gmap string Value := {[ "id" := VString "7" ]}.

Definition store : heap :=
  [ ORow first_row; ORow second_row; OArray [0%nat; 1%nat] ].

Definition status_rule : ValueMapping :=
  mkValueMapping "status" "label" {[ "A" := PString "Active" ]} (PString "Unknown").

(** An engine that expands the first [{{ currentdatetime }}] of a source
    and refuses a source that opens with a block tag. *)
Definition environment {Data} : NunjucksRenderer.Environment Data :=
  NunjucksRenderer.mkEnvironment Data
    (fun src ctx =>
       match src with
       | None => inl (ThrowError "src must be a string or an object describing the source")
       | Some s =>
           if String.prefix "{%" s then inl (ThrowError "unknown block tag")
           else inr (replace "{{ currentdatetime }}"
                       (from_option id "" (NunjucksRenderer.e_currentdatetime Data ctx)) s)
       end).

Definition report : OutputConfig :=
  mkOutputConfig (Some "report_{{ currentdatetime }}.json") (Some "[]") None.

Definition broken : OutputConfig :=
  mkOutputConfig (Some "broken.txt") (Some "{% nonsense") None.

Definition context : TemplateContext DataOrchestrator.TableData :=
  mkTemplateContext ∅ ([("Orders", 2%nat)], store) "2024-01-05_10-20-30".

(** The same globals and timestamp over no table at all. *)
Definition context_without_tables : TemplateContext DataOrchestrator.TableData :=
  mkTemplateContext ∅ ([], []) "2024-01-05_10-20-30".

(** A workbook with one table, [Orders], and one named range, [project]. *)
Definition office : DataOrchestrator.Office :=
  DataOrchestrator.mkOffice
    (inr [DataOrchestrator.mkTableInfo "Orders" ["status"; "id"] 2])
    (inr [DataOrchestrator.mkNamedRangeInfo "project" true "Sheet1!$A$1"])
    (fun configs => inr (list_to_map (List.map (fun c => (gc_name c, VString "Acme")) configs)))
    (fun configs => inr ([("Orders", 2%nat)], store))
    (mkDateTime 2024 0 5 10 20 30).

Definition template : AddInTemplate :=
  mkAddInTemplate
    (Some (mkTemplateMetadata (Some "Orders export") (Some "1.0.0") None))
    (Some [mkTableConfig (Some "Orders") None (Some [status_rule])])
    (Some [mkGlobalConfig "project" (Some TString) None])
    (Some [("report", report)]).

(** Conversions and a workbook for the globals: one named range,
    [project], holding the text Acme. *)
Definition conversions : GlobalsService.Conversions :=
  GlobalsService.mkConversions (fun _ => PrimFloat.nan) Date_toString (fun _ => None)
    "2024-01-05T10:20:30.000Z" "Invalid time value".

Definition workbook : GlobalsService.Workbook :=
  GlobalsService.mkWorkbook None
    (fun name => if String.eqb name "project" then inr (VString "Acme")
                 else inl (ThrowError "ItemNotFound")).

(** A workbook with one table, [Orders], of two columns and two body
    rows, the second one short. *)
Definition orders_values : list string * list (list Prim) :=
  (["Status"; "id"], [[PString "A"; PString "7"]; [PString "B"]]).

Definition table_workbook : TableService.Workbook :=
  TableService.mkWorkbook
    (fun name =>
       match name with
       | Some n =>
           if String.eqb n "Orders" then inr orders_values
           else inl (ThrowError "ItemNotFound")
       | None => inl (ThrowError "ItemNotFound")
       end).


(** A table of one row whose status cell reads [toString]. *)
Definition odd_row : gmap string Value := {[ "status" := VString "toString" ]}.

Definition odd_store : heap := [ ORow odd_row; OArray [0%nat] ].

(** A second rule, aimed at another field. *)
Definition id_rule : ValueMapping :=
  mkValueMapping "id" "kind" {[ "7" := PString "Lucky" ]} (PString "Plain").


Definition office_next_second : DataOrchestrator.Office :=
  DataOrchestrator.mkOffice
    (DataOrchestrator.getTables office)
    (DataOrchestrator.getNamedRanges office)
    (DataOrchestrator.readAllGlobals office)
    (DataOrchestrator.readTables office)
    (mkDateTime 2024 0 5 10 20 31).

(** A host that files the sample table under the key [constructor]. *)
Definition office_foreign : DataOrchestrator.Office :=
  DataOrchestrator.mkOffice
    (DataOrchestrator.getTables office)
    (DataOrchestrator.getNamedRanges office)
    (DataOrchestrator.readAllGlobals office)
    (fun configs => inr ([("constructor", 2%nat)], store))
    (DataOrchestrator.now office).

(** A template whose table and whose global the workbook does not have. *)
Definition template_unavailable : AddInTemplate :=
  mkAddInTemplate
    (Some (mkTemplateMetadata (Some "Invoices export") (Some "1.0.0") None))
    (Some [mkTableConfig (Some "Invoices") None None])
    (Some [mkGlobalConfig "region" (Some TString) None])
    (Some [("report", report)]).

(** A template without a version and without outputs. *)
Definition template_incomplete : AddInTemplate :=
  mkAddInTemplate
    (Some (mkTemplateMetadata (Some "Orders export") None None))
    (Some [mkTableConfig (Some "Orders") None None])
    None
    (Some []).

End Sample.

(** * Properties *)

(** ** Strings *)

Section StringFacts.
Import JS.

Lemma append_cons (x : ascii) (a b : string) : String x a +:+ b = String x (a +:+ b).
Proof. reflexivity. Qed.

Lemma append_nil_l (a : string) : "" +:+ a = a.
Proof. reflexivity. Qed.

Lemma append_assoc (a b c : string) : (a +:+ b) +:+ c = a +:+ b +:+ c.
Proof. induction a as [|x a IH]; [done|]. by rewrite !append_cons, IH. Qed.

Lemma append_nil_r (a : string) : a +:+ "" = a.
Proof. induction a as [|x a IH]; [done|]. by rewrite append_cons, IH. Qed.

Lemma length_append (a b : string) :
  String.length (a +:+ b) = (String.length a + String.length b)%nat.
Proof. induction a as [|x a IH]; [done|]. rewrite append_cons. simpl. by rewrite IH. Qed.

Lemma prefix_append (p rest : string) : String.prefix p (p +:+ rest) = true.
Proof.
  induction p as [|x p IH]; [by destruct rest|].
  rewrite append_cons. simpl. destruct (ascii_dec x x); [exact IH | done].
Qed.

Lemma prefix_split (p : string) : forall s,
  String.prefix p s = true -> exists rest, s = p +:+ rest.
Proof.
  induction p as [|x p IH]; intros s Hp; [by exists s|].
  destruct s as [|y s]; [done|]. simpl in Hp.
  destruct (ascii_dec x y) as [->|]; [|done].
  destruct (IH s Hp) as [rest ->]. by exists rest.
Qed.

Lemma drop_string_append (p rest : string) :
  drop_string (String.length p) (p +:+ rest) = rest.
Proof. induction p as [|x p IH]; [done | exact IH]. Qed.

End StringFacts.

(** ** Plain objects *)

Section ObjectFacts.
Import JS.

Lemma assign_unfold {A} (o : gmap string A) key v :
  assign o key v = if assignable o key then <[key := v]> o else o.
Proof.
  unfold assign, assignable.
  destruct (o !! key) as [a|] eqn:Ho.
  - rewrite bool_decide_true by eauto. by rewrite orb_true_r.
  - rewrite bool_decide_false by (by intros [a Ha]). rewrite orb_false_r.
    by destruct (String.eqb key "__proto__").
Qed.

Lemma assign_lookup {A} (o : gmap string A) key v f :
  assign o key v !! f =
  if decide (f = key) then (if assignable o key then Some v else o !! f) else o !! f.
Proof.
  rewrite assign_unfold. destruct (assignable o key); case_decide as Hf; subst.
  - by rewrite lookup_insert_eq.
  - by rewrite lookup_insert_ne.
  - done.
  - done.
Qed.


Lemma assignable_plain {A} (o : gmap string A) key :
  key <> "__proto__" -> assignable o key = true.
Proof. intros Hkey. unfold assignable. by destruct (String.eqb_spec key "__proto__"). Qed.

Lemma inherited_name key m : inherited key = Some m -> member_name m = key.
Proof.
  unfold inherited. intros Hfind. apply find_some in Hfind as [_ Heq].
  by apply String.eqb_eq.
Qed.

Lemma inherited_member m : inherited (member_name m) = Some m.
Proof. by destruct m. Qed.

Lemma record_get_None {A} (r : list (string * A)) key :
  record_get r key = None <-> key ∉ List.map fst r.
Proof.
  induction r as [|[k w] r IH]; simpl.
  - split; [intros _ Hin; by apply elem_of_nil in Hin | done].
  - rewrite not_elem_of_cons.
    destruct (String.eqb_spec k key) as [->|Hne]; [split; [done | by intros [? _]]|].
    rewrite IH. split; [by split; [congruence|] | tauto].
Qed.



Lemma enumerated_app keys1 keys2 :
  enumerated (keys1 ++ keys2) = true <->
  enumerated keys1 = true /\ enumerated keys2 = true /\
  Forall (fun k1 => Forall (fun k2 => precedes k1 k2 = true) keys2) keys1.
Proof.
  induction keys1 as [|k keys1 IH]; simpl.
  - split; [by intros ? | tauto].
  - rewrite !andb_true_iff, forallb_app, andb_true_iff, IH, Forall_cons.
    assert (Hk : forallb (precedes k) keys2 = true <->
                 Forall (fun k2 => precedes k k2 = true) keys2).
    { rewrite forallb_forall, Forall_forall. by setoid_rewrite list_elem_of_In. }
    rewrite Hk. tauto.
Qed.


(** *** Assignments to a record in enumeration order *)

Lemma pretty_N_inj_array_index key n : array_index key = Some n -> pretty n = key.
Proof.
  unfold array_index. destruct key as [|c key]; [done|].
  destruct (numeral (String c key) 0) as [m|]; [|done].
  destruct (String.eqb_spec (pretty m) (String c key)) as [Heq|]; [|done].
  simpl. destruct (m <? 4294967295)%N; [|done]. by intros [= <-].
Qed.

Lemma array_index_inj k1 k2 n :
  array_index k1 = Some n -> array_index k2 = Some n -> k1 = k2.
Proof.
  intros H1 H2. apply pretty_N_inj_array_index in H1, H2. congruence.
Qed.

Lemma record_replace_keys {A} (r : list (string * A)) key v :
  List.map fst (record_replace r key v) = List.map fst r.
Proof.
  induction r as [|[k w] r IH]; [done|]. simpl.
  destruct (String.eqb_spec k key) as [->|_]; simpl; [done | by rewrite IH].
Qed.

Lemma record_replace_elem {A} (r : list (string * A)) key v e :
  e ∈ record_replace r key v -> e = (key, v) \/ e ∈ r.
Proof.
  induction r as [|[k w] r IH]; [by right|]. simpl.
  destruct (String.eqb_spec k key) as [->|_]; rewrite !elem_of_cons; [tauto|].
  intros [->|Hin]; [by right; left|]. destruct (IH Hin); [by left | by right; right].
Qed.

Lemma record_get_replace {A} (r : list (string * A)) key v k :
  record_get (record_replace r key v) k =
  if decide (k = key) then (fun _ => v) <$> record_get r k else record_get r k.
Proof.
  induction r as [|[k0 w] r IH]; simpl; [by case_decide|].
  destruct (String.eqb_spec k0 key) as [->|Hne]; simpl.
  - destruct (String.eqb_spec key k) as [->|Hk].
    + by rewrite decide_True.
    + by rewrite decide_False by congruence.
  - destruct (String.eqb_spec k0 k) as [->|Hk].
    + by rewrite decide_False by congruence.
    + exact IH.
Qed.

Lemma insert_index_keys {A} n key (v : A) r :
  List.map fst (insert_index n key v r) ≡ₚ key :: List.map fst r.
Proof.
  induction r as [|[k w] r IH]; [done|]. simpl.
  destruct (array_index k) as [m|]; [|done].
  destruct (m <? n)%N; [|done]. simpl. rewrite IH. apply Permutation_swap.
Qed.

Lemma insert_index_elem {A} n key (v : A) r e :
  e ∈ insert_index n key v r -> e = (key, v) \/ e ∈ r.
Proof.
  induction r as [|[k w] r IH]; simpl.
  - rewrite list_elem_of_singleton. by left.
  - destruct (array_index k) as [m|]; [destruct (m <? n)%N|];
      rewrite !elem_of_cons; tauto.
Qed.

Lemma record_get_insert_index {A} n key (v : A) r k :
  record_get r key = None ->
  record_get (insert_index n key v r) k =
  if decide (k = key) then Some v else record_get r k.
Proof.
  induction r as [|[k0 w] r IH]; simpl; intros Hnew.
  - destruct (String.eqb_spec key k) as [->|Hk];
      [by rewrite decide_True | by rewrite decide_False by congruence].
  - destruct (String.eqb_spec k0 key) as [->|Hne]; [done|].
    assert (Hhead : record_get ((key, v) :: (k0, w) :: r) k =
                    if decide (k = key) then Some v
                    else if String.eqb k0 k then Some w else record_get r k).
    { simpl. destruct (String.eqb_spec key k) as [->|Hk];
        [by rewrite decide_True | by rewrite decide_False by congruence]. }
    destruct (array_index k0) as [m|]; [|exact Hhead].
    destruct (m <? n)%N; [|exact Hhead]. simpl.
    destruct (String.eqb_spec k0 k) as [->|Hk].
    + by rewrite decide_False by congruence.
    + by apply IH.
Qed.

Lemma record_get_app {A} (r : list (string * A)) key v k :
  record_get (r ++ [(key, v)]) k =
  match record_get r k with
  | Some w => Some w
  | None => if decide (k = key) then Some v else None
  end.
Proof.
  induction r as [|[k0 w] r IH]; simpl.
  - destruct (String.eqb_spec key k) as [->|Hk];
      [by rewrite decide_True | by rewrite decide_False by congruence].
  - by destruct (String.eqb k0 k).
Qed.

(** A key that is no array index may follow every key. *)
Lemma precedes_other k key : array_index key = None -> precedes k key = true.
Proof. intros Hkey. unfold precedes. rewrite Hkey. by destruct (array_index k). Qed.

Lemma enumerated_cons k keys :
  enumerated (k :: keys) = true <->
  Forall (fun k' => precedes k k' = true) keys /\ enumerated keys = true.
Proof.
  simpl. rewrite andb_true_iff, forallb_forall, Forall_forall.
  by setoid_rewrite list_elem_of_In.
Qed.

Lemma enumerated_snoc keys key :
  enumerated keys = true -> array_index key = None -> enumerated (keys ++ [key]) = true.
Proof.
  intros Henum Hkey. apply enumerated_app. split; [done|]. split; [done|].
  apply Forall_forall. intros k _. constructor; [|constructor].
  by apply precedes_other.
Qed.

(** An array index takes its place among the array indices. *)
Lemma insert_index_enumerated {A} n key (v : A) r :
  array_index key = Some n ->
  key ∉ List.map fst r ->
  enumerated (List.map fst r) = true ->
  enumerated (List.map fst (insert_index n key v r)) = true.
Proof.
  intros Hkey. induction r as [|[k w] r IH]; [done|]. intros Hnew Henum.
  cbn [List.map fst] in Hnew, Henum.
  apply not_elem_of_cons in Hnew as [Hne Hnew].
  apply enumerated_cons in Henum as [Hk Henum].
  assert (Hfront : (forall m, array_index k = Some m -> (n < m)%N) ->
                   enumerated (key :: k :: List.map fst r) = true).
  { intros Hlt. apply enumerated_cons. split.
    - assert (Hhead : precedes key k = true).
      { unfold precedes. rewrite Hkey. destruct (array_index k) as [m|]; [|done].
        by apply N.ltb_lt, Hlt. }
      constructor; [exact Hhead|].
      eapply Forall_impl; [exact Hk|]. intros k' Hk'.
      unfold precedes in *. rewrite Hkey in *.
      destruct (array_index k) as [m|], (array_index k') as [m'|]; try done.
      apply N.ltb_lt in Hk', Hhead. apply N.ltb_lt. lia.
    - by apply enumerated_cons. }
  simpl. destruct (array_index k) as [m|] eqn:Hm.
  - destruct (m <? n)%N eqn:Hmn.
    + cbn [List.map fst]. apply enumerated_cons. split; [|by apply IH].
      apply Forall_forall. intros k' Hin.
      rewrite insert_index_keys in Hin. apply elem_of_cons in Hin as [->|Hin].
      * unfold precedes. by rewrite Hm, Hkey.
      * rewrite Forall_forall in Hk. by apply Hk.
    + apply Hfront. intros m' [= <-]. apply N.ltb_ge in Hmn.
      assert (m <> n); [|lia]. intros ->. apply Hne. by eapply array_index_inj.
  - by apply Hfront.
Qed.

(** The assignment [r[key] = v] files nothing under [__proto__] in a
    record that does not own it. *)
Lemma record_set_proto {A} (r : list (string * A)) v :
  record_get r "__proto__" = None -> record_set r "__proto__" v = r.
Proof. intros Hnew. unfold record_set. by rewrite Hnew. Qed.

Lemma record_set_elem {A} (r : list (string * A)) key v e :
  e ∈ record_set r key v -> e = (key, v) \/ e ∈ r.
Proof.
  unfold record_set, record_define.
  destruct (record_get r key); [apply record_replace_elem|].
  destruct (String.eqb key "__proto__"); [by right|].
  destruct (array_index key); [apply insert_index_elem|].
  rewrite elem_of_app, list_elem_of_singleton. tauto.
Qed.

Lemma record_get_set {A} (r : list (string * A)) key v k :
  record_get (record_set r key v) k =
  if decide (k = key)
  then (if decide (key = "__proto__" /\ record_get r key = None) then None else Some v)
  else record_get r k.
Proof.
  unfold record_set, record_define.
  destruct (decide (k = key)) as [->|Hk].
  - destruct (decide (key = "__proto__" /\ record_get r key = None)) as [[-> Hnone]|Hno].
    + by rewrite Hnone.
    + destruct (record_get r key) as [w|] eqn:Hkey.
      * rewrite record_get_replace, decide_True by done. by rewrite Hkey.
      * destruct (String.eqb_spec key "__proto__") as [Hp|Hp]; [by destruct Hno|].
        destruct (array_index key).
        -- rewrite record_get_insert_index by done. by rewrite decide_True.
        -- rewrite record_get_app, Hkey. by rewrite decide_True.
  - destruct (record_get r key) eqn:Hkey.
    + by rewrite record_get_replace, decide_False.
    + destruct (String.eqb key "__proto__"); [done|]. destruct (array_index key).
      * rewrite record_get_insert_index by done. by rewrite decide_False.
      * rewrite record_get_app, decide_False by done. by destruct (record_get r k).
Qed.

Lemma record_set_keys {A} (r : list (string * A)) key v k :
  k ∈ List.map fst (record_set r key v) <->
  k ∈ List.map fst r \/ (k = key /\ key <> "__proto__").
Proof.
  assert (Hin : forall (r' : list (string * A)) k',
             k' ∈ List.map fst r' <-> record_get r' k' <> None).
  { intros r' k'. rewrite record_get_None. split; [tauto|]. intros Hnn.
    destruct (decide (k' ∈ List.map fst r')); [done|]. by destruct Hnn. }
  rewrite !Hin, record_get_set.
  destruct (decide (k = key)) as [->|Hk]; [|split; [by left | by intros [?|[? _]]]].
  destruct (decide (key = "__proto__" /\ record_get r key = None)) as [[Hp Hnone]|Hno].
  - rewrite Hnone. split; [done|]. by intros [?|[_ ?]].
  - split; [|done]. intros _.
    destruct (record_get r key) eqn:Hkey; [by left|]. right. split; [done|].
    intros Hp. by apply Hno.
Qed.

Lemma record_set_NoDup {A} (r : list (string * A)) key v :
  NoDup (List.map fst r) -> NoDup (List.map fst (record_set r key v)).
Proof.
  intros Hdup. unfold record_set, record_define.
  destruct (record_get r key) eqn:Hkey; [by rewrite record_replace_keys|].
  destruct (String.eqb key "__proto__"); [done|].
  apply record_get_None in Hkey.
  destruct (array_index key).
  - rewrite insert_index_keys. by apply NoDup_cons.
  - rewrite map_app. apply NoDup_app. split; [done|]. split; [|apply NoDup_singleton].
    intros k Hin Hk. apply list_elem_of_singleton in Hk. by subst.
Qed.

Lemma record_set_enumerated {A} (r : list (string * A)) key v :
  enumerated (List.map fst r) = true ->
  enumerated (List.map fst (record_set r key v)) = true.
Proof.
  intros Henum. unfold record_set, record_define.
  destruct (record_get r key) eqn:Hkey; [by rewrite record_replace_keys|].
  destruct (String.eqb key "__proto__"); [done|].
  apply record_get_None in Hkey.
  destruct (array_index key) eqn:Hindex.
  - by apply insert_index_enumerated.
  - rewrite map_app. by apply enumerated_snoc.
Qed.

(** *** The enumeration order of declared properties *)

Lemma record_define_new {A} (r : list (string * A)) key v :
  key ∉ List.map fst r ->
  record_define r key v =
  match array_index key with
  | Some n => insert_index n key v r
  | None => (r ++ [(key, v)])%list
  end.
Proof. intros Hnew. unfold record_define. apply record_get_None in Hnew. by rewrite Hnew. Qed.

Lemma record_define_keys {A} (r : list (string * A)) key v :
  key ∉ List.map fst r ->
  List.map fst (record_define r key v) ≡ₚ (List.map fst r ++ [key])%list.
Proof.
  intros Hnew. rewrite record_define_new by done.
  destruct (array_index key).
  - rewrite insert_index_keys. apply Permutation_cons_append.
  - by rewrite map_app.
Qed.

Lemma record_define_enumerated {A} (r : list (string * A)) key v :
  key ∉ List.map fst r ->
  enumerated (List.map fst r) = true ->
  enumerated (List.map fst (record_define r key v)) = true.
Proof.
  intros Hnew Henum. rewrite record_define_new by done.
  destruct (array_index key) eqn:Hindex.
  - by apply insert_index_enumerated.
  - rewrite map_app. by apply enumerated_snoc.
Qed.

Lemma insert_index_other_keys {A} n key (v : A) r :
  array_index key = Some n ->
  other_keys (List.map fst (insert_index n key v r)) = other_keys (List.map fst r).
Proof.
  intros Hkey. unfold other_keys. induction r as [|[k w] r IH]; simpl.
  - rewrite filter_cons, decide_False by congruence. done.
  - assert (Hfront : filter (fun k0 => array_index k0 = None)
                       (List.map fst ((key, v) :: (k, w) :: r)) =
                     filter (fun k0 => array_index k0 = None) (k :: List.map fst r)).
    { cbn [List.map fst]. by rewrite (filter_cons _ key), decide_False by congruence. }
    destruct (array_index k) as [m|] eqn:Hm; [|exact Hfront].
    destruct (m <? n)%N; [|exact Hfront].
    cbn [List.map fst]. rewrite !(filter_cons _ k), !decide_False by congruence.
    exact IH.
Qed.

Lemma record_define_other_keys {A} (r : list (string * A)) key v :
  key ∉ List.map fst r ->
  other_keys (List.map fst (record_define r key v)) =
  other_keys (List.map fst r ++ [key]).
Proof.
  intros Hnew. rewrite record_define_new by done. unfold other_keys.
  destruct (array_index key) as [n|] eqn:Hindex.
  - fold (other_keys (List.map fst (insert_index n key v r))).
    rewrite insert_index_other_keys by done. unfold other_keys.
    rewrite filter_app, filter_cons, decide_False by congruence.
    by rewrite filter_nil, app_nil_r.
  - by rewrite map_app.
Qed.

(** Properties declared under pairwise different keys are enumerated as
    follows: every key once; array indices first, in ascending order; the
    other keys after them, in the order of their declaration. *)
Lemma Object_entries_order {A} (declared : list (string * A)) : forall acc,
  NoDup (List.map fst acc ++ List.map fst declared)%list ->
  enumerated (List.map fst acc) = true ->
  let entries := foldl (fun r entry => record_define r (fst entry) (snd entry))
                   acc declared in
  List.map fst entries ≡ₚ (List.map fst acc ++ List.map fst declared)%list /\
  enumerated (List.map fst entries) = true /\
  other_keys (List.map fst entries) =
    other_keys (List.map fst acc ++ List.map fst declared).
Proof.
  induction declared as [|[key v] declared IH]; intros acc Hdup Henum; simpl.
  - by rewrite app_nil_r.
  - assert (Hnew : key ∉ List.map fst acc).
    { apply NoDup_app in Hdup as (_ & Hdisj & _).
      intros Hin. apply (Hdisj _ Hin). left. }
    assert (Hdup' : NoDup (List.map fst (record_define acc key v)
                           ++ List.map fst declared)%list).
    { rewrite record_define_keys by done. by rewrite <- app_assoc. }
    destruct (IH (record_define acc key v) Hdup')
      as (Hperm & Henum' & Hother); [by apply record_define_enumerated|].
    split; [|split; [exact Henum'|]].
    + rewrite Hperm, record_define_keys by done. by rewrite <- app_assoc.
    + rewrite Hother. unfold other_keys in *. rewrite !filter_app.
      pose proof (record_define_other_keys acc key v Hnew) as Hstep.
      unfold other_keys in Hstep. rewrite Hstep, filter_app.
      rewrite <- app_assoc. f_equal.
      by rewrite <- filter_app.
Qed.

(** Without array indices among the keys, the enumeration order is the
    order of declaration. *)
Lemma Object_entries_declared {A} (declared : list (string * A)) : forall acc,
  NoDup (List.map fst acc ++ List.map fst declared)%list ->
  Forall (fun k => array_index k = None) (List.map fst declared) ->
  foldl (fun r entry => record_define r (fst entry) (snd entry)) acc declared =
  (acc ++ declared)%list.
Proof.
  induction declared as [|[key v] declared IH]; intros acc Hdup Hother; simpl.
  - by rewrite app_nil_r.
  - simpl in Hother. apply Forall_cons in Hother as [Hkey Hother].
    assert (Hnew : key ∉ List.map fst acc).
    { apply NoDup_app in Hdup as (_ & Hdisj & _).
      intros Hin. apply (Hdisj _ Hin). left. }
    rewrite record_define_new, Hkey by done.
    rewrite IH; [by rewrite <- app_assoc | | done].
    rewrite map_app. simpl. by rewrite <- app_assoc.
Qed.

End ObjectFacts.

(** ** The value mapper *)

Section MappingFacts.
Import JS Store MappingProcessor MappingSpec.
Context (rt : Runtime).












End MappingFacts.

Section MappingTheorems.
Import JS Store MappingProcessor MappingSpec.
Context (rt : Runtime).

(** Objects allocated after [h] sit where the allocator put them. *)
Lemma fresh_rows_at (h : list Object) (fields : list (gmap string Value)) tail :
  Forall2 (fun l fr => (h ++ List.map ORow fields ++ tail)%list !! l = Some (ORow fr))
    (seq (List.length h) (List.length fields)) fields.
Proof.
  apply Forall2_same_length_lookup_2.
  - by rewrite length_seq.
  - intros i l fr Hl Hfr. apply lookup_seq in Hl as [-> Hlt].
    rewrite lookup_app_r by lia.
    rewrite lookup_app_l by (rewrite length_map; lia).
    replace (List.length h + i - List.length h)%nat with i by lia.
    by rewrite list_lookup_fmap, Hfr.
Qed.

(** A well-formed table stays one when the store grows. *)
Lemma rows_at_grow h ext rows elems fields :
  rows_at h rows elems fields -> rows_at (h ++ ext)%list rows elems fields.
Proof.
  intros [Hrows Helems]. split.
  - by apply lookup_app_l_Some.
  - eapply Forall2_impl; [exact Helems|].
    intros l fr Hl. by apply lookup_app_l_Some.
Qed.




End MappingTheorems.

Section TablesTheorems.
Import JS Store MappingProcessor MappingSpec TablesSpec.
Context (rt : Runtime).

Lemma tables_at_grow h ext tablesData :
  tables_at h tablesData -> tables_at (h ++ ext)%list tablesData.
Proof.
  unfold tables_at. rewrite !Forall_forall. intros Hwf entry Hin.
  destruct (Hwf entry Hin) as (elems & fields & Hrows).
  exists elems, fields. by apply rows_at_grow.
Qed.






End TablesTheorems.

(** The theorems above at the sample table. *)




(** The row whose status cell reads [toString]: its label is the built-in
    function of that name, where the specification has the default
    [Unknown]. *)
Example applyMappings_writes_an_inherited_member :
  MappingProcessor.applyMappings Sample.runtime 1%nat (Some [Sample.status_rule])
    Sample.odd_store =
  Some (3%nat,
        [ Store.ORow Sample.odd_row; Store.OArray [0%nat];
          Store.ORow (<["label" := JS.VBuiltin JS.MtoString]> Sample.odd_row);
          Store.OArray [2%nat] ]) /\
  MappingSpec.rule_value Sample.runtime Sample.odd_row Sample.status_rule =
    JS.VString "Unknown".
Proof. split; reflexivity. Qed.






(** The sample table filed under the key [constructor], with no rule
    list at all: the call throws instead of passing the table on. *)
Example applyMappingsToTables_throws_on_constructor :
  MappingProcessor.applyMappingsToTables Sample.runtime [("constructor", 2%nat)] ∅
    Sample.store = None /\
  MappingProcessor.applyMappingsToTables Sample.runtime [("toString", 2%nat)] ∅
    Sample.store = Some ([("toString", 2%nat)], Sample.store).
Proof. split; reflexivity. Qed.

(** ** The renderer *)

Section RenderAllOutputs.
Import JS Template NunjucksRenderer RendererSpec.
Context {Data : Type} (rt : Runtime) (env : Environment Data).

Lemma contains_middle pre sub post : contains (pre +:+ sub +:+ post) sub.
Proof. by exists pre, post. Qed.

Lemma wrap_message_contains_key name error :
  contains (wrap_message rt name error) name.
Proof.
  unfold wrap_message.
  exists ("Error rendering output " +:+ dquote), (dquote +:+ ": " +:+ error_message rt error).
  by rewrite !append_assoc.
Qed.

Lemma wrap_message_contains_cause name error :
  contains (wrap_message rt name error) (error_message rt error).
Proof.
  unfold wrap_message.
  exists ("Error rendering output " +:+ dquote +:+ name +:+ dquote +:+ ": "), "".
  by rewrite !append_assoc, append_nil_r.
Qed.

(** The loop stops at the first output that fails, whatever follows it. *)
Lemma renderAllOutputs_loop_fails context done : forall results name output rest error,
  Forall (fun entry => exists r, renderOutput env (snd entry) context = inr r) done ->
  renderOutput env output context = inl error ->
  renderAllOutputs_loop rt env (done ++ (name, output) :: rest) context results =
  inl (ThrowError (wrap_message rt name error)).
Proof.
  induction done as [|[k o] done IH]; intros results name output rest error Hdone Hfail.
  - simpl. by rewrite Hfail.
  - apply Forall_cons in Hdone as [[r Hr] Hdone]. simpl in *. rewrite Hr.
    by apply IH.
Qed.

(** When every output renders the loop appends them all, in order, each
    under its key. *)
Lemma renderAllOutputs_loop_succeeds context entries : forall results rendered,
  Forall2 (fun entry r => renderOutput env (snd entry) context = inr r) entries rendered ->
  renderAllOutputs_loop rt env entries context results =
  inr (results ++ zip_with (fun entry r => set_name r (fst entry)) entries rendered)%list.
Proof.
  induction entries as [|[k o] entries IH]; intros results rendered Hall.
  - apply Forall2_nil_inv_l in Hall as ->. simpl. by rewrite app_nil_r.
  - apply Forall2_cons_inv_l in Hall as (r & rendered' & Hr & Hall & ->).
    simpl in *. rewrite Hr, (IH _ _ Hall). by rewrite <- app_assoc.
Qed.

(** The message of the error that stands in for a failure: the fixed
    text, the key between double quotes, and the message of the failure
    when it is an [Error], its string form when it is any other value. *)
Lemma wrap_message_text name error :
  wrap_message rt name error =
  "Error rendering output " +:+ dquote +:+ name +:+ dquote +:+ ": "
    +:+ match error with
        | ThrowError cause => cause
        | ThrowValue v => ToString rt v
        end.
Proof. by destruct error. Qed.

(** C2, as the code has it.  The outputs are rendered in the order in
    which [Object.entries] lists the properties of the outputs map: for a
    map whose properties were declared under the keys of [declared], every
    key once, the keys that are array indices first, in ascending numeric
    order, and the other keys after them, in the order of their
    declaration (so in declared order throughout when no key is an array
    index).  When an output fails after all those before it rendered,
    [renderAllOutputs] throws (no list is returned) an error whose message
    is the fixed text with the key of that output and the message of the
    failure (its string form when it is no [Error]) in it, whatever outputs
    follow; when every output renders, the result lists them in that
    order, each with its name set to its key. *)
Theorem renderAllOutputs_fails_fast_or_keeps_order declared context :
  (forall done name output rest error,
      Object_entries declared = (done ++ (name, output) :: rest)%list ->
      Forall (fun entry => exists r, renderOutput env (snd entry) context = inr r) done ->
      renderOutput env output context = inl error ->
      exists message,
        renderAllOutputs rt env (Object_entries declared) context =
          inl (ThrowError message) /\
        contains message name /\
        (forall cause,
            error = ThrowError cause ->
            message = "Error rendering output " +:+ dquote +:+ name +:+ dquote +:+ ": "
                        +:+ cause /\
            contains message cause) /\
        (forall v,
            error = ThrowValue v ->
            message = "Error rendering output " +:+ dquote +:+ name +:+ dquote +:+ ": "
                        +:+ ToString rt v /\
            contains message (ToString rt v))) /\
  (forall rendered,
      Forall2 (fun entry r => renderOutput env (snd entry) context = inr r)
        (Object_entries declared) rendered ->
      exists results,
        renderAllOutputs rt env (Object_entries declared) context = inr results /\
        List.map ro_name results = List.map fst (Object_entries declared) /\
        Forall2 (fun r out => out = set_name r (ro_name out)) rendered results) /\
  (NoDup (List.map fst declared) ->
   List.map fst (Object_entries declared) ≡ₚ List.map fst declared /\
   enumerated (List.map fst (Object_entries declared)) = true /\
   other_keys (List.map fst (Object_entries declared)) =
     other_keys (List.map fst declared)) /\
  (NoDup (List.map fst declared) ->
   Forall (fun key => array_index key = None) (List.map fst declared) ->
   Object_entries declared = declared).
Proof.
  split; [|split; [|split]].
  - intros done name output rest error Hentries Hdone Hfail.
    exists (wrap_message rt name error). rewrite Hentries.
    split; [by apply renderAllOutputs_loop_fails|].
    split; [apply wrap_message_contains_key|].
    split.
    + intros cause ->. split; [apply wrap_message_text|].
      apply (wrap_message_contains_cause name (ThrowError cause)).
    + intros v ->. split; [apply wrap_message_text|].
      apply (wrap_message_contains_cause name (ThrowValue v)).
  - intros rendered Hall.
    exists (zip_with (fun entry r => set_name r (fst entry)) (Object_entries declared)
              rendered).
    split; [by apply (renderAllOutputs_loop_succeeds context (Object_entries declared) [])|].
    clear -Hall. induction Hall as [|[k o] r outputs rendered _ _ [IHn IHr]]; [by split|].
    simpl. split; [by rewrite IHn | by constructor].
  - intros Hdup. by apply (Object_entries_order declared []).
  - intros Hdup Hother. by apply (Object_entries_declared declared []).
Qed.

(** C3: the filename is rendered from the filename template, the globals
    and the timestamp alone; two contexts that agree on these resolve the
    same filename (or fail alike), whatever their table data, and so
    outputs rendered from them carry the same filename and MIME type. *)
Theorem renderOutput_filename_ignores_table_data
    (output : OutputConfig) (c1 c2 : TemplateContext Data) :
  ctx_globals c1 = ctx_globals c2 ->
  ctx_currentdatetime c1 = ctx_currentdatetime c2 ->
  resolveFilename env (oc_filename output) c1 =
    renderString env (oc_filename output)
      (mkEngineContext (Some (ctx_globals c1)) None (Some (ctx_currentdatetime c1))) /\
  resolveFilename env (oc_filename output) c1 = resolveFilename env (oc_filename output) c2 /\
  (forall error,
      resolveFilename env (oc_filename output) c1 = inl error ->
      renderOutput env output c1 = inl error /\ renderOutput env output c2 = inl error) /\
  (forall r1 r2,
      renderOutput env output c1 = inr r1 ->
      renderOutput env output c2 = inr r2 ->
      resolveFilename env (oc_filename output) c1 = inr (ro_filename r1) /\
      ro_filename r1 = ro_filename r2 /\
      ro_mimeType r1 = ro_mimeType r2).
Proof.
  intros Hglobals Htime.
  assert (Hsame : resolveFilename env (oc_filename output) c1 =
                  resolveFilename env (oc_filename output) c2).
  { unfold resolveFilename. by rewrite Hglobals, Htime. }
  split; [done|]. split; [exact Hsame|]. split.
  - intros error Hfail. unfold renderOutput. rewrite <- Hsame, Hfail. by split.
  - intros r1 r2. unfold renderOutput. rewrite <- Hsame.
    destruct (resolveFilename env (oc_filename output) c1) as [e|filename]; [done|].
    simpl.
    destruct (render env (oc_template output) c1); [done|].
    destruct (render env (oc_template output) c2); [done|].
    intros [= <-] [= <-]. by split.
Qed.

End RenderAllOutputs.

Lemma renderAllOutputs_fails_fast_or_keeps_order_witness :
  exists message,
    NunjucksRenderer.renderAllOutputs Sample.runtime Sample.environment
      (JS.Object_entries
         [("report", Sample.report); ("broken", Sample.broken); ("late", Sample.report)])
      Sample.context = inl (JS.ThrowError message) /\
    RendererSpec.contains message "broken" /\
    (forall cause,
        JS.ThrowError "unknown block tag" = JS.ThrowError cause ->
        message = "Error rendering output " +:+ NunjucksRenderer.dquote +:+ "broken"
                    +:+ NunjucksRenderer.dquote +:+ ": " +:+ cause /\
        RendererSpec.contains message cause) /\
    (forall v,
        JS.ThrowError "unknown block tag" = JS.ThrowValue v ->
        message = "Error rendering output " +:+ NunjucksRenderer.dquote +:+ "broken"
                    +:+ NunjucksRenderer.dquote +:+ ": " +:+ JS.ToString Sample.runtime v /\
        RendererSpec.contains message (JS.ToString Sample.runtime v)).
Proof.
  apply (proj1 (renderAllOutputs_fails_fast_or_keeps_order Sample.runtime Sample.environment
                  [("report", Sample.report); ("broken", Sample.broken);
                   ("late", Sample.report)] Sample.context)
           [("report", Sample.report)] "broken" Sample.broken [("late", Sample.report)]
           (JS.ThrowError "unknown block tag")).
  - reflexivity.
  - repeat constructor. eexists. vm_compute. reflexivity.
  - vm_compute. reflexivity.
Defined.

(** The failure of the second of three outputs: the message of the error
    that is thrown. *)
Example renderAllOutputs_sample_failure :
  NunjucksRenderer.renderAllOutputs Sample.runtime Sample.environment
    (JS.Object_entries
       [("report", Sample.report); ("broken", Sample.broken); ("late", Sample.report)])
    Sample.context =
  inl (JS.ThrowError
         ("Error rendering output " +:+ NunjucksRenderer.dquote +:+ "broken"
            +:+ NunjucksRenderer.dquote +:+ ": unknown block tag")).
Proof. vm_compute. reflexivity. Qed.

(** C2 as the specification words it does not hold: of two outputs
    declared under the keys [b] and [1], in that order, the one under [1]
    is rendered and returned first. *)
Lemma renderAllOutputs_does_not_keep_declared_order :
  List.map fst [("b", Sample.report); ("1", Sample.report)] = ["b"; "1"] /\
  JS.Object_entries [("b", Sample.report); ("1", Sample.report)] =
    [("1", Sample.report); ("b", Sample.report)] /\
  NunjucksRenderer.renderAllOutputs Sample.runtime Sample.environment
    (JS.Object_entries [("b", Sample.report); ("1", Sample.report)]) Sample.context =
  inr [Template.mkRenderedOutput "1" "report_2024-01-05_10-20-30.json" "[]"
         (JS.VString "application/json");
       Template.mkRenderedOutput "b" "report_2024-01-05_10-20-30.json" "[]"
         (JS.VString "application/json")] /\
  ["1"; "b"] <> List.map fst [("b", Sample.report); ("1", Sample.report)].
Proof.
  split; [reflexivity|]. split; [reflexivity|]. split; [vm_compute; reflexivity|].
  discriminate.
Defined.

Lemma renderOutput_filename_ignores_table_data_witness :
  NunjucksRenderer.resolveFilename Sample.environment (Template.oc_filename Sample.report)
    Sample.context =
  NunjucksRenderer.resolveFilename Sample.environment (Template.oc_filename Sample.report)
    Sample.context_without_tables.
Proof.
  apply (renderOutput_filename_ignores_table_data Sample.environment Sample.report
           Sample.context Sample.context_without_tables); reflexivity.
Defined.

(** ** The [date] filter *)

Section ReplaceFacts.
Import JS RendererSpec.

Lemma replace_unfold pattern replacement s :
  replace pattern replacement s =
  if String.prefix pattern s
  then replacement +:+ drop_string (String.length pattern) s
  else match s with
       | EmptyString => EmptyString
       | String c s' => String c (replace pattern replacement s')
       end.
Proof. by destruct s. Qed.

Lemma occurs_at_prefix pattern s :
  String.prefix pattern s = true -> occurs_at pattern s 0.
Proof. intros Hp. destruct (prefix_split _ _ Hp) as [rest ->]. by exists "", rest. Qed.

Lemma occurs_at_cons pattern c s i :
  occurs_at pattern s i -> occurs_at pattern (String c s) (S i).
Proof.
  intros (pre & post & -> & <-). exists (String c pre), post.
  by rewrite append_cons.
Qed.

(** A string without the pattern is left as it is. *)
Lemma replace_absent pattern replacement s :
  (forall i, ~ occurs_at pattern s i) -> replace pattern replacement s = s.
Proof.
  induction s as [|c s IH]; intros Hno; rewrite replace_unfold.
  - destruct (String.prefix pattern "") eqn:Hp; [|done].
    by destruct (Hno 0%nat (occurs_at_prefix _ _ Hp)).
  - destruct (String.prefix pattern (String c s)) eqn:Hp.
    + by destruct (Hno 0%nat (occurs_at_prefix _ _ Hp)).
    + rewrite IH; [done|]. intros i Hi. exact (Hno (S i) (occurs_at_cons _ c _ _ Hi)).
Qed.

(** Only the first occurrence of the pattern is replaced. *)
Lemma replace_first pattern replacement pre : forall post,
  (forall j, (j < String.length pre)%nat ->
             ~ occurs_at pattern (pre +:+ pattern +:+ post) j) ->
  replace pattern replacement (pre +:+ pattern +:+ post) = pre +:+ replacement +:+ post.
Proof.
  induction pre as [|c pre IH]; intros post Hfirst; rewrite replace_unfold.
  - rewrite !append_nil_l. by rewrite prefix_append, drop_string_append.
  - rewrite !append_cons in *.
    destruct (String.prefix pattern _) eqn:Hp.
    + destruct (Hfirst 0%nat); [simpl; lia | by apply occurs_at_prefix].
    + rewrite IH; [done|]. intros j Hj Hocc.
      apply (Hfirst (S j)); [simpl; lia | by apply occurs_at_cons].
Qed.

Lemma padStart_two_digits n :
  0 <= n < 100 -> padStart 2 "0" (String_of_int n) = two_digits n.
Proof.
  intros Hn.
  assert (Hall : forallb (fun k => String.eqb (padStart 2 "0" (String_of_int k))
                                     (two_digits k)) (seqZ 0 100) = true)
    by (vm_compute; reflexivity).
  rewrite forallb_forall in Hall.
  apply String.eqb_eq, Hall, list_elem_of_In, elem_of_seqZ. lia.
Qed.

Lemma year_four_digits y :
  1000 <= y <= 9999 -> String.length (String_of_int y) = 4%nat.
Proof.
  intros Hy.
  assert (Hall : forallb (fun k => Nat.eqb (String.length (String_of_int k)) 4)
                   (seqZ 1000 9000) = true)
    by (vm_compute; reflexivity).
  rewrite forallb_forall in Hall.
  apply Nat.eqb_eq, Hall, list_elem_of_In, elem_of_seqZ. lia.
Qed.

End ReplaceFacts.

Section DateFilter.
Import JS NunjucksRenderer RendererSpec.

(** C4, as the code has it: the [date] filter returns the empty string for
    every falsy input (null and undefined, and also false, zero, NaN and
    the empty string); for a truthy value that is not a valid native date
    and whose string form does not parse to one it returns the string form
    of the value; for a valid date it substitutes YYYY, MM, DD, HH, mm, ss
    in that order, each [replace] acting on the first occurrence only and
    leaving a format without the token alone, with the year in plain
    decimal (four digits from 1000 to 9999) and the other fields as two
    zero-padded digits; and [date(new Date(2024, 0, 5), YYYY-MM-DD)] is
    2024-01-05. *)
Theorem date_filter_falsy_or_substitutes (rt : Runtime) :
  (forall value format,
      ToBoolean value = false -> date_filter rt value format = "") /\
  (forall format,
      date_filter rt VNull format = "" /\ date_filter rt VUndefined format = "") /\
  (forall value format,
      ToBoolean value = true ->
      (forall d, value <> VDate d) ->
      Date_parse rt (ToString rt value) = None ->
      date_filter rt value format = ToString rt value) /\
  (forall format, date_filter rt (VDate None) format = ToString rt (VDate None)) /\
  (forall value format d,
      ToBoolean value = true ->
      value = VDate (Some d) \/
        ((forall d', value <> VDate d') /\ Date_parse rt (ToString rt value) = Some d) ->
      valid_fields d ->
      date_filter rt value format =
      replace "ss" (two_digits (getSeconds d))
        (replace "mm" (two_digits (getMinutes d))
          (replace "HH" (two_digits (getHours d))
            (replace "DD" (two_digits (getDate d))
              (replace "MM" (two_digits (getMonth d + 1))
                (replace "YYYY" (String_of_int (getFullYear d))
                   (from_option id "YYYY-MM-DD" format))))))) /\
  (forall y, 1000 <= y <= 9999 -> String.length (String_of_int y) = 4%nat) /\
  (forall pattern replacement s,
      (forall i, ~ occurs_at pattern s i) -> replace pattern replacement s = s) /\
  (forall pattern replacement pre post,
      (forall j, (j < String.length pre)%nat ->
                 ~ occurs_at pattern (pre +:+ pattern +:+ post) j) ->
      replace pattern replacement (pre +:+ pattern +:+ post) =
      pre +:+ replacement +:+ post) /\
  date_filter rt (VDate (Some (mkDateTime 2024 0 5 0 0 0))) (Some "YYYY-MM-DD") =
    "2024-01-05".
Proof.
  split; [|split; [|split; [|split; [|split; [|split; [|split; [|split]]]]]]].
  - intros value format Hfalsy. unfold date_filter. by rewrite Hfalsy.
  - by intros format.
  - intros value format Htruthy Hnot Hparse. unfold date_filter. rewrite Htruthy. simpl.
    destruct value; try by rewrite Hparse.
    by destruct (Hnot d).
  - by intros format.
  - intros value format d Htruthy Hdate (Hy & Hm & Hd & Hh & Hmi & Hs).
    unfold date_filter. rewrite Htruthy. simpl.
    assert (Hd' : match value with
                  | VDate d0 => d0
                  | _ => Date_parse rt (ToString rt value)
                  end = Some d).
    { destruct Hdate as [->|[Hnot Hparse]]; [done|].
      destruct value; try done. by destruct (Hnot d0). }
    rewrite Hd'. unfold formatDate.
    rewrite !padStart_two_digits by lia.
    by destruct format.
  - exact year_four_digits.
  - exact replace_absent.
  - exact replace_first.
  - vm_compute. reflexivity.
Qed.

End DateFilter.

Lemma date_filter_falsy_or_substitutes_witness :
  NunjucksRenderer.date_filter Sample.runtime (JS.VString "2024-03-09T07:08:09")
    (Some "DD/MM/YYYY HH:mm:ss") = "09/03/2024 07:08:09".
Proof.
  rewrite (proj1 (proj2 (proj2 (proj2 (proj2
             (date_filter_falsy_or_substitutes Sample.runtime)))))
             (JS.VString "2024-03-09T07:08:09") (Some "DD/MM/YYYY HH:mm:ss")
             (JS.mkDateTime 2024 2 9 7 8 9)).
  - vm_compute. reflexivity.
  - reflexivity.
  - right. split; [discriminate | vm_compute; reflexivity].
  - unfold JS.valid_fields. simpl. lia.
Defined.

(** C4 as the specification words it does not hold: [false] is neither a
    native date nor a string that parses to a date, yet the filter returns
    the empty string for it and not its string form; and the year 999 is
    written with three digits. *)
Lemma date_filter_false_is_not_stringified :
  (forall d, JS.VBoolean false <> JS.VDate d) /\
  JS.Date_parse Sample.runtime (JS.ToString Sample.runtime (JS.VBoolean false)) = None /\
  JS.ToString Sample.runtime (JS.VBoolean false) = "false" /\
  NunjucksRenderer.date_filter Sample.runtime (JS.VBoolean false) (Some "YYYY-MM-DD") = "" /\
  NunjucksRenderer.date_filter Sample.runtime (JS.VBoolean false) (Some "YYYY-MM-DD") <>
    JS.ToString Sample.runtime (JS.VBoolean false) /\
  NunjucksRenderer.date_filter Sample.runtime
    (JS.VDate (Some (JS.mkDateTime 999 0 5 0 0 0))) (Some "YYYY-MM-DD") = "999-01-05".
Proof.
  split; [discriminate|]. split; [vm_compute; reflexivity|].
  split; [reflexivity|]. split; [reflexivity|].
  split; [discriminate | vm_compute; reflexivity].
Defined.

(** ** MIME types *)

Section MimeTypes.
Import JS NunjucksRenderer RendererSpec.

Lemma split_nonempty sep s : split sep s <> [].
Proof.
  destruct s as [|c s]; [done|]. simpl.
  destruct (Ascii.eqb c sep); [done|]. by destruct (split sep s).
Qed.

Lemma split_dotless s : dotless s = true -> split "." s = [s].
Proof.
  induction s as [|c s IH]; [done|]. simpl.
  destruct (Ascii.eqb c "."); [done|]. simpl. intros Hs. by rewrite IH.
Qed.

(** Splitting at the full stops of [base.rest]. *)
Lemma split_append base : forall rest,
  split "." (base +:+ "." +:+ rest) = (split "." base ++ split "." rest)%list.
Proof.
  induction base as [|c base IH]; intros rest; [done|].
  rewrite append_cons. simpl. rewrite IH.
  destruct (Ascii.eqb c "."); [done|].
  pose proof (split_nonempty "." base). by destruct (split "." base).
Qed.

(** The table has an entry for the extension, which is not empty and is
    what the specification lists, or it has none and the specification has
    the default. *)
Lemma mimeTypes_entry ext :
  match record_get mimeTypes ext with
  | Some type => type <> "" /\ mime_of_extension ext = type
  | None => mime_of_extension ext = "text/plain"
  end.
Proof.
  unfold mime_of_extension, mimeTypes, record_get.
  repeat match goal with
         | |- context [String.eqb ext ?k] =>
             destruct (String.eqb_spec ext k) as [->|?];
             [by simpl | rewrite (proj2 (String.eqb_neq k ext)) by congruence]
         end.
  reflexivity.
Qed.

(** No member of [Object.prototype] goes by a name the table lists. *)
Lemma mimeTypes_no_member ext m :
  inherited ext = Some m -> record_get mimeTypes ext = None.
Proof. intros Hm. apply inherited_name in Hm as <-. by destruct m. Qed.

Lemma or_else_some ext : or_else (Some ext) "" = ext.
Proof. unfold or_else. by destruct (String.eqb_spec ext ""). Qed.

Lemma mimeTypes_lookup ext :
  inherited ext = None ->
  value_or (lookup_value VString (record_lookup mimeTypes (or_else (Some ext) "")))
    "text/plain" = mime_of_extension ext.
Proof.
  intros Hnone. rewrite or_else_some. unfold record_lookup, prototype_lookup.
  pose proof (mimeTypes_entry ext) as Hentry.
  destruct (record_get mimeTypes ext) as [type|].
  - destruct Hentry as [Hne ->]. unfold value_or. simpl.
    by destruct (String.eqb_spec type "").
  - by rewrite Hnone, Hentry.
Qed.

Lemma mimeTypes_lookup_member ext m :
  inherited ext = Some m ->
  value_or (lookup_value VString (record_lookup mimeTypes (or_else (Some ext) "")))
    "text/plain" = VBuiltin m.
Proof.
  intros Hm. rewrite or_else_some. unfold record_lookup, prototype_lookup.
  by rewrite (mimeTypes_no_member ext m Hm), Hm.
Qed.

(** C5 on the code: the extension is what follows the last full stop, put
    in lower case and looked up in the table, with text/plain as default;
    but a name without any full stop is itself taken for the extension, so
    [json] (no extension) is given application/json instead of the
    default; and the lookup also finds the members of [Object.prototype],
    so that for the extension [constructor] the result is a built-in
    function and no MIME type at all. *)
Theorem getMimeType_takes_dotless_name_for_extension :
  (forall base ext,
      dotless ext = true ->
      inherited (toLowerCase ext) = None ->
      getMimeType (base +:+ "." +:+ ext) = mime_of_extension (toLowerCase ext)) /\
  (forall name,
      dotless name = true ->
      inherited (toLowerCase name) = None ->
      getMimeType name = mime_of_extension (toLowerCase name)) /\
  (forall base ext m,
      dotless ext = true ->
      inherited (toLowerCase ext) = Some m ->
      getMimeType (base +:+ "." +:+ ext) = VBuiltin m /\
      getMimeType ext = VBuiltin m) /\
  dotless "json" = true /\
  getMimeType "json" = "application/json" /\
  getMimeType "README" = "text/plain" /\
  getMimeType "report.final.JSON" = "application/json" /\
  getMimeType "report.constructor" = VBuiltin Mconstructor /\
  getMimeType "report.__proto__" = VBuiltin Mproto.
Proof.
  split; [|split; [|split]].
  - intros base ext Hext Hnone. unfold getMimeType.
    rewrite split_append, last_app, (split_dotless ext Hext). simpl.
    by apply mimeTypes_lookup.
  - intros name Hname Hnone. unfold getMimeType.
    rewrite (split_dotless name Hname). simpl. by apply mimeTypes_lookup.
  - intros base ext m Hext Hm. unfold getMimeType.
    rewrite split_append, last_app, !(split_dotless ext Hext). simpl.
    split; by apply mimeTypes_lookup_member.
  - repeat split; vm_compute; reflexivity.
Qed.

End MimeTypes.

Lemma getMimeType_takes_dotless_name_for_extension_witness :
  NunjucksRenderer.getMimeType "yml" =
  JS.VString (RendererSpec.mime_of_extension (JS.toLowerCase "yml")).
Proof.
  apply (proj1 (proj2 getMimeType_takes_dotless_name_for_extension) "yml");
    reflexivity.
Defined.

(** ** The structural validator *)

Section ValidateTemplate.
Import JS Template DataOrchestrator ValidatorSpec.

Lemma push_if_app cond e errors :
  push_if cond e errors = (errors ++ (if cond then [e] else []))%list.
Proof. destruct cond; [done|]. unfold push_if. by rewrite app_nil_r. Qed.

Lemma validate_tables_records configs : forall index errors,
  validate_tables configs index errors =
  (errors ++ table_name_records index configs)%list.
Proof.
  induction configs as [|config configs IH]; intros index errors.
  - unfold table_name_records. simpl. by rewrite app_nil_r.
  - cbn [validate_tables]. rewrite IH, push_if_app, <- app_assoc. f_equal.
    unfold table_name_records. rewrite imap_cons. cbn [concat].
    rewrite Nat.add_0_r. f_equal. f_equal. apply imap_ext.
    intros i c _. simpl. by rewrite Nat.add_succ_r.
Qed.

Lemma validate_outputs_records entries : forall errors,
  validate_outputs entries errors =
  (errors ++ concat (List.map output_records entries))%list.
Proof.
  induction entries as [|[name output] entries IH]; intros errors.
  - simpl. by rewrite app_nil_r.
  - cbn [validate_outputs]. rewrite IH, !push_if_app.
    unfold output_records at 2. simpl. by rewrite <- !app_assoc.
Qed.

Lemma table_name_records_named configs : forall from,
  Forall (fun config => falsy_string (tc_name config) = false) configs ->
  table_name_records from configs = [].
Proof.
  induction configs as [|config configs IH]; intros from Hnamed; [done|].
  apply Forall_cons in Hnamed as [Hname Hnamed].
  unfold table_name_records. rewrite imap_cons. cbn [concat]. rewrite Hname.
  rewrite app_nil_l. specialize (IH (S from) Hnamed).
  unfold table_name_records in IH.
  etrans; [|exact IH]. f_equal. apply imap_ext. intros i c _. simpl.
  by rewrite Nat.add_succ_r.
Qed.

(** What [validateTemplate] reports is what its four checks report, one
    after the other. *)
Lemma validateTemplate_errors template :
  errors (validateTemplate template) =
  (name_check template ++ version_check template ++ tables_check template
     ++ outputs_check template)%list.
Proof.
  unfold validateTemplate, name_check, version_check, tables_check, outputs_check.
  cbn [errors]. rewrite !push_if_app. simpl.
  destruct (tables template) as [[|config configs]|],
           (outputs template) as [[|entry entries]|];
    rewrite ?validate_tables_records, ?validate_outputs_records;
    by rewrite <- ?app_assoc.
Qed.

(** C9: [validateTemplate] runs its four checks one after the other and
    none of them stops the others: its records are those of the name
    check, the version check, the tables check and the outputs check, each
    computed from its own part of the template.  On a template without
    [metadata.version] and without outputs the result is invalid and holds
    both the version record and the outputs record; when its name and its
    table bindings are in order these two are all there is. *)
Theorem validateTemplate_runs_every_check template :
  errors (validateTemplate template) =
    (name_check template ++ version_check template ++ tables_check template
       ++ outputs_check template)%list /\
  (valid (validateTemplate template) = true <-> errors (validateTemplate template) = []) /\
  (falsy_string (metadata template ≫= md_version) = true ->
   zero_outputs template ->
   valid (validateTemplate template) = false /\
   version_record ∈ errors (validateTemplate template) /\
   outputs_record ∈ errors (validateTemplate template) /\
   (forall configs,
       falsy_string (metadata template ≫= md_name) = false ->
       tables template = Some configs ->
       configs <> [] ->
       Forall (fun config => falsy_string (tc_name config) = false) configs ->
       validateTemplate template =
       mkValidationResult false [version_record; outputs_record])).
Proof.
  split; [apply validateTemplate_errors|]. split.
  - unfold validateTemplate. cbn [valid errors].
    match goal with |- context [Nat.eqb (List.length ?l) 0] => generalize l end.
    intros l. destruct l; [done|]. simpl. split; discriminate.
  - intros Hversion Hout.
    assert (Hv : version_check template = [version_record])
      by (unfold version_check; by rewrite Hversion).
    assert (Ho : outputs_check template = [outputs_record])
      by (unfold outputs_check; by destruct Hout as [-> | ->]).
    assert (Hvalid : forall l, errors (validateTemplate template) = l ->
                               validateTemplate template =
                               mkValidationResult (Nat.eqb (List.length l) 0) l).
    { intros l <-. reflexivity. }
    pose proof (validateTemplate_errors template) as Herr.
    rewrite Hv, Ho in Herr.
    split; [|split; [|split]].
    + rewrite (Hvalid _ Herr). cbn [valid]. rewrite !length_app. simpl.
      apply Nat.eqb_neq. lia.
    + rewrite Herr. set_solver.
    + rewrite Herr. set_solver.
    + intros configs Hname Htables Hne Hnamed.
      assert (Hn : name_check template = [])
        by (unfold name_check; by rewrite Hname).
      assert (Ht : tables_check template = []).
      { unfold tables_check. rewrite Htables.
        destruct configs as [|config configs]; [done|].
        by apply table_name_records_named. }
      rewrite Hn, Ht in Herr. simpl in Herr. by rewrite (Hvalid _ Herr).
Qed.

End ValidateTemplate.

Lemma validateTemplate_runs_every_check_witness :
  DataOrchestrator.validateTemplate Sample.template_incomplete =
  Template.mkValidationResult false
    [ValidatorSpec.version_record; ValidatorSpec.outputs_record].
Proof.
  destruct (proj2 (proj2 (validateTemplate_runs_every_check Sample.template_incomplete)))
    as (_ & _ & _ & Hexact).
  - reflexivity.
  - right. reflexivity.
  - apply (Hexact [Template.mkTableConfig (Some "Orders") None None]).
    + reflexivity.
    + reflexivity.
    + discriminate.
    + repeat constructor.
Defined.

(** ** Data availability *)

Section ValidateDataAvailability.
Import JS Template DataOrchestrator ValidatorSpec.

Lemma includes_listed names name :
  includes names name = true <-> listed names name.
Proof.
  destruct name as [n|]; simpl.
  - rewrite existsb_exists. split.
    + intros (m & Hin & Heq). apply String.eqb_eq in Heq as <-.
      exists n. split; [done | by apply list_elem_of_In].
    + intros (m & [= <-] & Hin). exists n.
      split; [by apply list_elem_of_In | apply String.eqb_refl].
  - split; [done | by intros (m & [=] & _)].
Qed.

Lemma check_tables_records tableNames configs : forall errors,
  check_tables tableNames configs errors =
  (errors ++ table_records tableNames configs)%list.
Proof.
  induction configs as [|config configs IH]; intros errors.
  - unfold table_records. simpl. by rewrite app_nil_r.
  - cbn [check_tables]. rewrite IH, push_if_app, <- app_assoc. f_equal.
    unfold table_records. rewrite filter_cons.
    destruct (includes tableNames (tc_name config)) eqn:Hinc; simpl.
    + apply includes_listed in Hinc. by rewrite decide_False by tauto.
    + rewrite decide_True; [done|].
      intros Hl. apply includes_listed in Hl. congruence.
Qed.

Lemma check_globals_records rangeNames configs : forall errors,
  check_globals rangeNames configs errors =
  (errors ++ global_records rangeNames configs)%list.
Proof.
  induction configs as [|config configs IH]; intros errors.
  - unfold global_records. simpl. by rewrite app_nil_r.
  - cbn [check_globals]. rewrite IH, push_if_app, <- app_assoc. f_equal.
    unfold global_records. rewrite filter_cons.
    destruct (includes rangeNames (Some (gc_name config))) eqn:Hinc; simpl.
    + apply includes_listed in Hinc as (n & [= <-] & Hin).
      by rewrite decide_False by tauto.
    + rewrite decide_True; [done|].
      intros Hin. assert (includes rangeNames (Some (gc_name config)) = true)
        by (apply includes_listed; by eexists). congruence.
Qed.

Lemma filter_table_records tableNames configs :
  List.filter not_warning (table_records tableNames configs) =
  table_records tableNames configs.
Proof.
  unfold table_records.
  induction (filter _ configs) as [|c l IH]; [done|]. simpl. by rewrite IH.
Qed.

Lemma filter_global_records rangeNames configs :
  List.filter not_warning (global_records rangeNames configs) = [].
Proof.
  unfold global_records.
  induction (filter _ configs) as [|c l IH]; [done|]. simpl. by rewrite IH.
Qed.

Lemma table_records_nil tableNames configs :
  table_records tableNames configs = [] <->
  Forall (fun config => listed tableNames (tc_name config)) configs.
Proof.
  unfold table_records. induction configs as [|config configs IH]; [done|].
  rewrite filter_cons, Forall_cons.
  destruct (decide (~ listed tableNames (tc_name config))) as [Hno|Hyes]; simpl.
  - split; [discriminate | tauto].
  - rewrite IH. split; [|tauto]. intros Hall. split; [|done].
    by destruct (decide (listed tableNames (tc_name config))).
Qed.

Lemma table_records_severity tableNames configs :
  Forall (fun e => severity e = Some SevError) (table_records tableNames configs).
Proof. unfold table_records. apply Forall_fmap, Forall_forall. by intros. Qed.

Lemma global_records_severity rangeNames configs :
  Forall (fun e => severity e = Some SevWarning) (global_records rangeNames configs).
Proof. unfold global_records. apply Forall_fmap, Forall_forall. by intros. Qed.

Context (rt : Runtime) (office : Office).

(** C8: when the host answers, [validateDataAvailability] returns one
    error-severity record for every table binding whose name the host does
    not list, followed by one warning-severity record for every declared
    global whose name is not among the named ranges; the result is valid
    exactly when it holds no error-severity record, that is exactly when
    every table binding is listed, whatever warnings there are. *)
Theorem validateDataAvailability_errors_and_warnings
    template availableTables configs availableRanges :
  getTables office = inr availableTables ->
  tables template = Some configs ->
  globals template = None \/ getNamedRanges office = inr availableRanges ->
  exists result,
    validateDataAvailability rt office template = inr result /\
    errors result =
      (table_records (List.map ti_name availableTables) configs ++
       global_records (List.map nr_name availableRanges)
         (from_option id [] (globals template)))%list /\
    (valid result = true <->
     Forall (fun e => severity e <> Some SevError) (errors result)) /\
    (valid result = true <->
     Forall (fun config => listed (List.map ti_name availableTables) (tc_name config))
       configs) /\
    Forall (fun e => severity e = Some SevWarning)
      (global_records (List.map nr_name availableRanges)
         (from_option id [] (globals template))).
Proof.
  intros Htables Hconfigs Hranges.
  set (trs := table_records (List.map ti_name availableTables) configs).
  set (grs := global_records (List.map nr_name availableRanges)
                (from_option id [] (globals template))).
  exists (mkValidationResult (Nat.eqb (List.length (List.filter not_warning (trs ++ grs))) 0)
            (trs ++ grs)).
  assert (Hfilter : List.filter not_warning (trs ++ grs) = trs).
  { rewrite List.filter_app. unfold trs, grs.
    by rewrite filter_table_records, filter_global_records, app_nil_r. }
  split; [|split; [done|split; [|split]]].
  - unfold validateDataAvailability. rewrite Htables, Hconfigs. simpl.
    rewrite check_tables_records. simpl. fold trs.
    destruct (globals template) as [gconfigs|] eqn:Hg; simpl.
    + destruct Hranges as [?|Hranges]; [done|]. rewrite Hranges. simpl.
      rewrite check_globals_records. unfold grs. by rewrite ?Hg.
    + unfold grs. rewrite ?Hg. simpl. by rewrite app_nil_r.
  - cbn [valid errors]. rewrite Hfilter, Nat.eqb_eq, length_zero_iff_nil.
    split.
    + intros ->. simpl. eapply Forall_impl; [apply global_records_severity|].
      intros e He. by rewrite He.
    + intros Hall. apply Forall_app in Hall as [Hall _].
      pose proof (table_records_severity (List.map ti_name availableTables) configs) as Hsev.
      fold trs in Hsev. destruct trs as [|e trs']; [done|].
      apply Forall_cons in Hall as [He _]. apply Forall_cons in Hsev as [He' _].
      by destruct (He He').
  - cbn [valid]. rewrite Hfilter, Nat.eqb_eq, length_zero_iff_nil.
    apply table_records_nil.
  - apply global_records_severity.
Qed.

End ValidateDataAvailability.

Lemma validateDataAvailability_errors_and_warnings_witness :
  exists result,
    DataOrchestrator.validateDataAvailability Sample.runtime Sample.office
      Sample.template_unavailable = inr result /\
    Template.errors result =
      (ValidatorSpec.table_records ["Orders"]
         [Template.mkTableConfig (Some "Invoices") None None] ++
       ValidatorSpec.global_records ["project"]
         [Template.mkGlobalConfig "region" (Some Template.TString) None])%list /\
    (Template.valid result = true <->
     Forall (fun e => Template.severity e <> Some Template.SevError)
       (Template.errors result)) /\
    (Template.valid result = true <->
     Forall (fun config => ValidatorSpec.listed ["Orders"] (Template.tc_name config))
       [Template.mkTableConfig (Some "Invoices") None None]) /\
    Forall (fun e => Template.severity e = Some Template.SevWarning)
      (ValidatorSpec.global_records ["project"]
         [Template.mkGlobalConfig "region" (Some Template.TString) None]).
Proof.
  apply (validateDataAvailability_errors_and_warnings Sample.runtime Sample.office
           Sample.template_unavailable
           [DataOrchestrator.mkTableInfo "Orders" ["status"; "id"] 2]
           [Template.mkTableConfig (Some "Invoices") None None]
           [DataOrchestrator.mkNamedRangeInfo "project" true "Sheet1!$A$1"]).
  - reflexivity.
  - reflexivity.
  - right. reflexivity.
Defined.

(** One missing table and one missing global: invalid, and the warning for
    the global is there next to the error for the table. *)
Example validateDataAvailability_missing_table_and_global :
  DataOrchestrator.validateDataAvailability Sample.runtime Sample.office
    Sample.template_unavailable =
  inr (Template.mkValidationResult false
         [DataOrchestrator.missing_table (Some "Invoices");
          DataOrchestrator.missing_global "region"]).
Proof. vm_compute. reflexivity. Qed.

(** ** Previewing one output *)

Section PreviewOutput.
Import JS Template NunjucksRenderer DataOrchestrator.
Context (rt : Runtime) (office : Office) (env : Environment TableData).

(** [renderOutput] names its result after the resolved filename. *)
Lemma renderOutput_name {Data} (e : Environment Data) output context rendered :
  renderOutput e output context = inr rendered ->
  resolveFilename e (oc_filename output) context = inr (ro_filename rendered) /\
  ro_name rendered = ro_filename rendered /\
  ro_mimeType rendered = getMimeType (ro_filename rendered).
Proof.
  unfold renderOutput.
  destruct (resolveFilename e (oc_filename output) context) as [|filename]; [done|].
  simpl. destruct (render e (oc_template output) context); [done|].
  by intros [= <-].
Qed.

(** C10 on the code: for a key that is in the template's outputs,
    [previewOutput] builds the context and renders that one output, and the
    result it returns is the one [renderOutput] made: its name is the
    resolved filename, nothing having put the key into it.  For a key that
    is not in the outputs and is no name of a member of [Object.prototype]
    it returns the null sentinel and throws nothing, whatever the host would
    have answered.  But for a key that is not in the outputs and names such
    a member, [toString] say, the lookup finds the member, and
    [previewOutput] does not return null: it builds the context and renders
    the member as if it were an output, one without filename and without
    template. *)
Theorem previewOutput_name_is_resolved_filename template entries outputName :
  outputs template = Some entries ->
  (record_get entries outputName = None ->
   inherited outputName = None ->
   previewOutput rt office env template outputName = inr None) /\
  (forall output,
      record_get entries outputName = Some output ->
      (forall context filename content,
          buildContext rt office template = inr context ->
          resolveFilename env (oc_filename output) context = inr filename ->
          render env (oc_template output) context = inr content ->
          previewOutput rt office env template outputName =
          inr (Some (mkRenderedOutput filename filename content (getMimeType filename)))) /\
      (forall rendered,
          previewOutput rt office env template outputName = inr (Some rendered) ->
          ro_name rendered = ro_filename rendered /\
          exists context,
            buildContext rt office template = inr context /\
            renderOutput env output context = inr rendered /\
            resolveFilename env (oc_filename output) context =
              inr (ro_filename rendered)) /\
      previewOutput rt office env template outputName <> inr None) /\
  (forall m,
      record_get entries outputName = None ->
      inherited outputName = Some m ->
      previewOutput rt office env template outputName <> inr None /\
      (forall e, buildContext rt office template = inl e ->
                 previewOutput rt office env template outputName = inl e) /\
      (forall context,
          buildContext rt office template = inr context ->
          previewOutput rt office env template outputName =
          match renderOutput env (mkOutputConfig None None None) context with
          | inr rendered => inr (Some rendered)
          | inl e => inl e
          end)).
Proof.
  intros Houtputs. unfold previewOutput, record_lookup, prototype_lookup.
  rewrite Houtputs. simpl. split; [|split].
  - by intros -> ->.
  - intros output ->. simpl. split; [|split].
    + intros context filename content Hctx Hname Hcontent.
      rewrite Hctx. simpl. unfold renderOutput. rewrite Hname. simpl.
      by rewrite Hcontent.
    + intros rendered.
      destruct (buildContext rt office template) as [|context]; [done|]. simpl.
      destruct (renderOutput env output context) as [|r] eqn:Hr; [done|]. simpl.
      intros [= <-]. destruct (renderOutput_name env _ _ _ Hr) as (Hfile & Hname & _).
      split; [done|]. by exists context.
    + destruct (buildContext rt office template) as [|context]; [done|]. simpl.
      by destruct (renderOutput env output context).
  - intros m -> ->. simpl. split; [|split].
    + destruct (buildContext rt office template) as [|context]; [done|]. simpl.
      by destruct (renderOutput env _ context).
    + by intros e ->.
    + intros context ->. simpl. by destruct (renderOutput env _ context).
Qed.

End PreviewOutput.

Lemma previewOutput_name_is_resolved_filename_witness :
  DataOrchestrator.previewOutput Sample.runtime Sample.office Sample.environment
    Sample.template "summary" = inr None.
Proof.
  apply (proj1 (previewOutput_name_is_resolved_filename Sample.runtime Sample.office
                  Sample.environment Sample.template [("report", Sample.report)]
                  "summary" eq_refl)); reflexivity.
Defined.

(** The preview of the sample template under the key [toString], which
    its outputs do not have: no null comes back; the context is built and
    the engine is handed an undefined filename, which it refuses. *)
Example previewOutput_throws_on_toString :
  DataOrchestrator.previewOutput Sample.runtime Sample.office Sample.environment
    Sample.template "toString" =
  inl (JS.ThrowError "src must be a string or an object describing the source").
Proof. vm_compute. reflexivity. Qed.

(** The preview of the sample template: the name is the filename, not the
    key [report]; the full export names the same output by its key. *)
Example previewOutput_sample :
  DataOrchestrator.previewOutput Sample.runtime Sample.office Sample.environment
    Sample.template "report" =
  inr (Some (Template.mkRenderedOutput "report_2024-01-05_10-20-30.json"
               "report_2024-01-05_10-20-30.json" "[]" (JS.VString "application/json"))) /\
  DataOrchestrator.generateOutputs Sample.runtime Sample.office Sample.environment
    Sample.template =
  inr [Template.mkRenderedOutput "report" "report_2024-01-05_10-20-30.json" "[]"
         (JS.VString "application/json")].
Proof. split; vm_compute; reflexivity. Qed.

(** ** The escaping filters *)

Section EscapingFilters.
Import JS NunjucksRenderer NunjucksFilters TextSpec.

Lemma replace_all_append c r a b :
  replace_all c r (a +:+ b) = replace_all c r a +:+ replace_all c r b.
Proof.
  induction a as [|x a IH]; [done|].
  rewrite append_cons. cbn [replace_all]. by rewrite IH, append_assoc.
Qed.

Lemma includes_char_append c a b :
  includes_char c (a +:+ b) = includes_char c a || includes_char c b.
Proof.
  induction a as [|x a IH]; [done|].
  rewrite append_cons. cbn [includes_char]. by rewrite IH, orb_assoc.
Qed.

Lemma count_char_append c a b :
  count_char c (a +:+ b) = (count_char c a + count_char c b)%nat.
Proof.
  induction a as [|x a IH]; [done|].
  rewrite append_cons. cbn [count_char]. rewrite IH. lia.
Qed.

Lemma count_char_absent c s : includes_char c s = false -> count_char c s = 0%nat.
Proof.
  induction s as [|x s IH]; [done|]. cbn [includes_char count_char].
  destruct (Ascii.eqb x c); [done|]. simpl. exact IH.
Qed.

Lemma count_char_doubled c s :
  count_char c (replace_all c (String c (String c EmptyString)) s) =
  (2 * count_char c s)%nat.
Proof.
  induction s as [|x s IH]; [done|]. cbn [replace_all count_char].
  rewrite count_char_append, IH.
  destruct (Ascii.eqb x c) eqn:Hx; cbn [count_char]; rewrite ?Ascii.eqb_refl, ?Hx; lia.
Qed.

Lemma replace_all_single c r (x : ascii) :
  replace_all c r (String x EmptyString) =
  if Ascii.eqb x c then r else String x EmptyString.
Proof. cbn [replace_all]. by rewrite append_nil_r. Qed.

(** The five replacements of [xmlEscape] on one character. *)
Lemma xml_chain_char (x : ascii) :
  replace_all "'" "&apos;"
    (replace_all dquote_char "&quot;"
      (replace_all ">" "&gt;"
        (replace_all "<" "&lt;"
          (replace_all "&" "&amp;" (String x EmptyString))))) = xml_entity x.
Proof.
  unfold xml_entity.
  rewrite (replace_all_single "&").
  destruct (Ascii.eqb_spec x "&") as [->|?]; [reflexivity|].
  rewrite (replace_all_single "<").
  destruct (Ascii.eqb_spec x "<") as [->|?]; [reflexivity|].
  rewrite (replace_all_single ">").
  destruct (Ascii.eqb_spec x ">") as [->|?]; [reflexivity|].
  rewrite (replace_all_single dquote_char).
  destruct (Ascii.eqb_spec x dquote_char) as [->|?]; [reflexivity|].
  rewrite (replace_all_single "'").
  by destruct (Ascii.eqb_spec x "'") as [->|?].
Qed.

Lemma xml_chain_each s :
  replace_all "'" "&apos;"
    (replace_all dquote_char "&quot;"
      (replace_all ">" "&gt;"
        (replace_all "<" "&lt;"
          (replace_all "&" "&amp;" s)))) = escape_each s.
Proof.
  induction s as [|x s IH]; [done|].
  change (String x s) with (String x EmptyString +:+ s).
  rewrite !replace_all_append, IH, xml_chain_char. reflexivity.
Qed.

Lemma xml_entity_clean (x : ascii) :
  includes_char "<" (xml_entity x) = false /\
  includes_char ">" (xml_entity x) = false /\
  includes_char dquote_char (xml_entity x) = false /\
  includes_char "'" (xml_entity x) = false.
Proof.
  unfold xml_entity.
  destruct (Ascii.eqb_spec x "&") as [->|?]; [by repeat split|].
  destruct (Ascii.eqb_spec x "<") as [->|?]; [by repeat split|].
  destruct (Ascii.eqb_spec x ">") as [->|?]; [by repeat split|].
  destruct (Ascii.eqb_spec x dquote_char) as [->|?]; [by repeat split|].
  destruct (Ascii.eqb_spec x "'") as [->|?]; [by repeat split|].
  cbn [includes_char]. rewrite !orb_false_r.
  repeat split; by apply Ascii.eqb_neq.
Qed.

(** X1: on a value that is neither null nor undefined, the five successive
    replacements of [xmlEscape] (ampersand first) amount to one pass that
    puts the entity of each character of the string form in its place: an
    ampersand written by a later replacement is never escaped again.  The
    result holds no angle bracket, double quote or apostrophe. *)
Theorem xmlEscape_is_one_pass (rt : Runtime) (value : Value) :
  is_nullish value = false ->
  xmlEscape rt value = escape_each (ToString rt value) /\
  includes_char "<" (xmlEscape rt value) = false /\
  includes_char ">" (xmlEscape rt value) = false /\
  includes_char dquote_char (xmlEscape rt value) = false /\
  includes_char "'" (xmlEscape rt value) = false.
Proof.
  intros Hvalue.
  assert (Heach : xmlEscape rt value = escape_each (ToString rt value)).
  { unfold xmlEscape. rewrite Hvalue. apply xml_chain_each. }
  split; [exact Heach|]. rewrite Heach. clear Heach.
  induction (ToString rt value) as [|x s IH]; [done|].
  destruct IH as (IH1 & IH2 & IH3 & IH4).
  cbn [escape_each]. rewrite !includes_char_append, IH1, IH2, IH3, IH4.
  destruct (xml_entity_clean x) as (-> & -> & -> & ->). done.
Qed.

(** X2: [csvEscape] returns the string form unchanged when it holds no
    comma, double quote or line feed; otherwise the result opens and
    closes with a double quote, with every double quote of the string form
    doubled in between.  Either way the number of double quotes in the
    result is even. *)
Theorem csvEscape_quotes_are_balanced (rt : Runtime) (value : Value) :
  is_nullish value = false ->
  let str := ToString rt value in
  (includes_char "," str = false ->
   includes_char dquote_char str = false ->
   includes_char newline_char str = false ->
   csvEscape rt value = str) /\
  (includes_char "," str = true \/ includes_char dquote_char str = true \/
   includes_char newline_char str = true ->
   csvEscape rt value =
     dquote +:+ replace_all dquote_char (dquote +:+ dquote) str +:+ dquote /\
   count_char dquote_char (csvEscape rt value) =
     (2 + 2 * count_char dquote_char str)%nat) /\
  Nat.even (count_char dquote_char (csvEscape rt value)) = true.
Proof.
  intros Hvalue str. unfold csvEscape. rewrite Hvalue. fold str.
  assert (Hquoted :
            count_char dquote_char
              (dquote +:+ replace_all dquote_char (dquote +:+ dquote) str +:+ dquote) =
            (2 + 2 * count_char dquote_char str)%nat).
  { rewrite !count_char_append.
    change (dquote +:+ dquote) with (String dquote_char (String dquote_char EmptyString)).
    rewrite count_char_doubled.
    change (count_char dquote_char dquote) with 1%nat. lia. }
  split; [|split].
  - by intros -> -> ->.
  - intros Hsome.
    assert (includes_char "," str || includes_char dquote_char str
            || includes_char newline_char str = true) as Hany
      by (destruct Hsome as [-> | [-> | ->]]; by rewrite ?orb_true_r).
    rewrite Hany. by split.
  - destruct (includes_char "," str || includes_char dquote_char str
              || includes_char newline_char str) eqn:Hany.
    + rewrite Hquoted.
      replace (2 + 2 * count_char dquote_char str)%nat
        with (2 * (1 + count_char dquote_char str))%nat by lia.
      apply Nat.even_spec. by eexists.
    + apply orb_false_iff in Hany as [Hany _]. apply orb_false_iff in Hany as [_ Hq].
      by rewrite (count_char_absent _ _ Hq).
Qed.

End EscapingFilters.

Lemma xmlEscape_is_one_pass_witness :
  NunjucksFilters.xmlEscape Sample.runtime (JS.VString "<a & 'b'>") =
  TextSpec.escape_each (JS.ToString Sample.runtime (JS.VString "<a & 'b'>")).
Proof.
  apply (xmlEscape_is_one_pass Sample.runtime (JS.VString "<a & 'b'>")).
  reflexivity.
Defined.

Lemma csvEscape_quotes_are_balanced_witness :
  Nat.even (TextSpec.count_char NunjucksFilters.dquote_char
              (NunjucksFilters.csvEscape Sample.runtime (JS.VString "a,b"))) = true.
Proof.
  apply (csvEscape_quotes_are_balanced Sample.runtime (JS.VString "a,b")).
  reflexivity.
Defined.

(** ** The time stamp of a context *)

Section TimeStamp.
Import JS NunjucksRenderer NunjucksFilters DataOrchestrator RendererSpec TextSpec.

Lemma all_chars_append p a b :
  all_chars p (a +:+ b) = all_chars p a && all_chars p b.
Proof.
  induction a as [|x a IH]; [done|].
  rewrite append_cons. cbn [all_chars]. by rewrite IH, andb_assoc.
Qed.

Lemma all_chars_weaken (p q : ascii -> bool) s :
  (forall c, p c = true -> q c = true) -> all_chars p s = true -> all_chars q s = true.
Proof.
  intros Hpq. induction s as [|x s IH]; [done|]. cbn [all_chars].
  intros [Hx Hs]%andb_true_iff. by rewrite (Hpq _ Hx), IH.
Qed.

Lemma all_chars_absent p c s :
  p c = false -> all_chars p s = true -> includes_char c s = false.
Proof.
  intros Hc. induction s as [|x s IH]; [done|]. cbn [all_chars includes_char].
  intros [Hx Hs]%andb_true_iff. rewrite (IH Hs), orb_false_r.
  apply Ascii.eqb_neq. intros ->. congruence.
Qed.

Lemma pretty_N_char_digit k : is_digit (pretty_N_char k) = true.
Proof. unfold pretty_N_char. by repeat case_match. Qed.

Lemma pretty_N_go_digits x : forall s,
  all_chars is_digit s = true -> all_chars is_digit (pretty_N_go x s) = true.
Proof.
  induction (N.lt_wf_0 x) as [x _ IH]; intros s Hs.
  assert (x = 0 \/ 0 < x)%N as [->|Hpos] by lia; [by rewrite pretty_N_go_0|].
  rewrite pretty_N_go_step by done. apply IH; [by apply N.div_lt|].
  cbn [all_chars]. by rewrite pretty_N_char_digit.
Qed.

Lemma pretty_N_digits (x : N) : all_chars is_digit (pretty x) = true.
Proof.
  unfold pretty, pretty_N. case_decide; [done|]. by apply pretty_N_go_digits.
Qed.

(** A printed integer is made of digits, after a hyphen when negative. *)
Lemma String_of_int_numeral (n : Z) : all_chars is_numeral_char (String_of_int n) = true.
Proof.
  assert (Hweak : forall s, all_chars is_digit s = true ->
                            all_chars is_numeral_char s = true).
  { intros s. apply all_chars_weaken. intros c Hc. unfold is_numeral_char. by rewrite Hc. }
  unfold String_of_int, pretty, pretty_Z. destruct n as [|p|p]; [done| |].
  - apply Hweak, (pretty_N_digits (Npos p)).
  - rewrite all_chars_append. simpl. apply Hweak, (pretty_N_digits (Npos p)).
Qed.

Lemma padStart_zero_cases s :
  padStart 2 "0" s = s \/ padStart 2 "0" s = "0" +:+ s \/ padStart 2 "0" s = "00" +:+ s.
Proof. destruct s as [|a [|b s]]; cbv [padStart]; simpl; auto. Qed.

Lemma pad_numeral (n : Z) : all_chars is_numeral_char (pad n) = true.
Proof.
  unfold pad. pose proof (String_of_int_numeral n) as Hn.
  destruct (padStart_zero_cases (String_of_int n)) as [-> | [-> | ->]];
    rewrite ?all_chars_append, ?Hn; done.
Qed.

Lemma two_digits_numeral (n : Z) :
  0 <= n < 100 -> all_chars is_numeral_char (two_digits n) = true.
Proof. intros Hn. rewrite <- (padStart_two_digits n Hn). apply pad_numeral. Qed.

Lemma numeral_is_stamp s :
  all_chars is_numeral_char s = true -> all_chars is_stamp_char s = true.
Proof.
  apply all_chars_weaken. intros c Hc. unfold is_stamp_char.
  unfold is_numeral_char in Hc. by rewrite Hc.
Qed.

(** The pattern is not met before a character it starts with is. *)
Lemma replace_skip p0 p r pre : forall s,
  includes_char p0 pre = false ->
  replace (String p0 p) r (pre +:+ s) = pre +:+ replace (String p0 p) r s.
Proof.
  induction pre as [|x pre IH]; intros s Hpre; [done|].
  cbn [includes_char] in Hpre. apply orb_false_iff in Hpre as [Hx Hpre].
  rewrite !append_cons, replace_unfold. cbn [String.prefix].
  destruct (ascii_dec p0 x) as [->|_]; [by rewrite Ascii.eqb_refl in Hx|].
  by rewrite IH.
Qed.

Lemma replace_head p r rest : replace p r (p +:+ rest) = r +:+ rest.
Proof. by rewrite replace_unfold, prefix_append, drop_string_append. Qed.

(** One token of the stamp format: the text before it has no letter. *)
Lemma replace_token p0 p pre rest r s out :
  is_stamp_char p0 = false ->
  all_chars is_stamp_char pre = true ->
  s = pre +:+ String p0 p +:+ rest ->
  out = pre +:+ r +:+ rest ->
  replace (String p0 p) r s = out.
Proof.
  intros Hp0 Hpre -> ->.
  rewrite replace_skip by (by apply (all_chars_absent is_stamp_char)).
  by rewrite replace_head.
Qed.

(** X3: the time stamp that [buildContext] puts into the context is what
    [formatDate] (and so the [date] filter) prints for the same moment
    under the format YYYY-MM-DD_HH-mm-ss. *)
Theorem currentdatetime_is_formatDate (now : DateTime) :
  valid_fields now ->
  currentdatetime_of now = formatDate now "YYYY-MM-DD_HH-mm-ss".
Proof.
  intros (Hy & Hm & Hd & Hh & Hmi & Hs).
  unfold currentdatetime_of, pad, formatDate.
  rewrite !padStart_two_digits by lia.
  set (Y := String_of_int (getFullYear now)).
  set (M := two_digits (getMonth now + 1)).
  set (D := two_digits (getDate now)).
  set (H := two_digits (getHours now)).
  set (I := two_digits (getMinutes now)).
  set (S := two_digits (getSeconds now)).
  assert (HY : all_chars is_stamp_char Y = true)
    by apply numeral_is_stamp, String_of_int_numeral.
  assert (HM : all_chars is_stamp_char M = true)
    by (apply numeral_is_stamp, two_digits_numeral; lia).
  assert (HD : all_chars is_stamp_char D = true)
    by (apply numeral_is_stamp, two_digits_numeral; lia).
  assert (HH : all_chars is_stamp_char H = true)
    by (apply numeral_is_stamp, two_digits_numeral; lia).
  assert (HI : all_chars is_stamp_char I = true)
    by (apply numeral_is_stamp, two_digits_numeral; lia).
  assert (E1 : replace "YYYY" Y "YYYY-MM-DD_HH-mm-ss" = Y +:+ "-MM-DD_HH-mm-ss")
    by exact (replace_head "YYYY" Y "-MM-DD_HH-mm-ss").
  assert (E2 : replace "MM" M (Y +:+ "-MM-DD_HH-mm-ss") =
               Y +:+ "-" +:+ M +:+ "-DD_HH-mm-ss").
  { apply (replace_token "M" "M" (Y +:+ "-") "-DD_HH-mm-ss");
      rewrite ?all_chars_append, ?HY, ?append_assoc; done. }
  assert (E3 : replace "DD" D (Y +:+ "-" +:+ M +:+ "-DD_HH-mm-ss") =
               Y +:+ "-" +:+ M +:+ "-" +:+ D +:+ "_HH-mm-ss").
  { apply (replace_token "D" "D" (Y +:+ "-" +:+ M +:+ "-") "_HH-mm-ss");
      rewrite ?all_chars_append, ?HY, ?HM, ?append_assoc; done. }
  assert (E4 : replace "HH" H (Y +:+ "-" +:+ M +:+ "-" +:+ D +:+ "_HH-mm-ss") =
               Y +:+ "-" +:+ M +:+ "-" +:+ D +:+ "_" +:+ H +:+ "-mm-ss").
  { apply (replace_token "H" "H" (Y +:+ "-" +:+ M +:+ "-" +:+ D +:+ "_") "-mm-ss");
      rewrite ?all_chars_append, ?HY, ?HM, ?HD, ?append_assoc; done. }
  assert (E5 : replace "mm" I
                 (Y +:+ "-" +:+ M +:+ "-" +:+ D +:+ "_" +:+ H +:+ "-mm-ss") =
               Y +:+ "-" +:+ M +:+ "-" +:+ D +:+ "_" +:+ H +:+ "-" +:+ I +:+ "-ss").
  { apply (replace_token "m" "m"
             (Y +:+ "-" +:+ M +:+ "-" +:+ D +:+ "_" +:+ H +:+ "-") "-ss");
      rewrite ?all_chars_append, ?HY, ?HM, ?HD, ?HH, ?append_assoc; done. }
  assert (E6 : replace "ss" S
                 (Y +:+ "-" +:+ M +:+ "-" +:+ D +:+ "_" +:+ H +:+ "-" +:+ I +:+ "-ss") =
               Y +:+ "-" +:+ M +:+ "-" +:+ D +:+ "_" +:+ H +:+ "-" +:+ I +:+ "-" +:+ S).
  { apply (replace_token "s" "s"
             (Y +:+ "-" +:+ M +:+ "-" +:+ D +:+ "_" +:+ H +:+ "-" +:+ I +:+ "-") "");
      rewrite ?all_chars_append, ?HY, ?HM, ?HD, ?HH, ?HI, ?append_assoc,
        ?append_nil_r; done. }
  by rewrite E1, E2, E3, E4, E5, E6.
Qed.

End TimeStamp.

Section TimeStampShape.
Import JS NunjucksRenderer NunjucksFilters DataOrchestrator RendererSpec TextSpec.

Lemma two_digits_length n : String.length (two_digits n) = 2%nat.
Proof. reflexivity. Qed.

Lemma digit_char_inj a b : 0 <= a <= 9 -> 0 <= b <= 9 -> digit_char a = digit_char b -> a = b.
Proof.
  intros Ha Hb Heq. unfold digit_char in Heq.
  assert (Hnat : (48 + Z.to_nat a)%nat = (48 + Z.to_nat b)%nat).
  { rewrite <- (nat_ascii_embedding (48 + Z.to_nat a)) by lia.
    rewrite <- (nat_ascii_embedding (48 + Z.to_nat b)) by lia.
    by rewrite Heq. }
  lia.
Qed.

Lemma two_digits_inj n m :
  0 <= n < 100 -> 0 <= m < 100 -> two_digits n = two_digits m -> n = m.
Proof.
  intros Hn Hm Heq. unfold two_digits in Heq. injection Heq as Hlo Hhi.
  assert (Hq : n / 10 = m / 10).
  { apply digit_char_inj; [| |congruence].
    - split; [apply Z.div_pos; lia | apply Z.lt_succ_r, Z.div_lt_upper_bound; lia].
    - split; [apply Z.div_pos; lia | apply Z.lt_succ_r, Z.div_lt_upper_bound; lia]. }
  assert (Hr : n mod 10 = m mod 10).
  { apply digit_char_inj; [| |congruence].
    - pose proof (Z.mod_pos_bound n 10). lia.
    - pose proof (Z.mod_pos_bound m 10). lia. }
  rewrite (Z.div_mod n 10), (Z.div_mod m 10) by lia. lia.
Qed.

(** Two texts with tails of the same length are equal piece by piece. *)
Lemma append_inj_tail a1 : forall a2 b1 b2,
  a1 +:+ b1 = a2 +:+ b2 -> String.length b1 = String.length b2 -> a1 = a2 /\ b1 = b2.
Proof.
  induction a1 as [|x a1 IH]; intros a2 b1 b2 Heq Hlen.
  - destruct a2 as [|y a2]; [done|].
    rewrite append_nil_l in Heq. subst b1.
    rewrite append_cons in Hlen. cbn [String.length] in Hlen.
    rewrite length_append in Hlen. lia.
  - destruct a2 as [|y a2].
    + rewrite append_nil_l in Heq. subst b2.
      rewrite append_cons in Hlen. cbn [String.length] in Hlen.
      rewrite length_append in Hlen. lia.
    + rewrite !append_cons in Heq. injection Heq as -> Heq.
      destruct (IH _ _ _ Heq Hlen) as [-> ->]. done.
Qed.

(** X4: the time stamp is made of digits, hyphens and underscores only,
    whatever the clock says; for a valid date whose year has four digits it
    is nineteen characters long. *)
Theorem currentdatetime_is_filename_safe :
  (forall now, all_chars is_stamp_char (currentdatetime_of now) = true) /\
  (forall now,
      valid_fields now ->
      1000 <= getFullYear now <= 9999 ->
      String.length (currentdatetime_of now) = 19%nat).
Proof.
  split.
  - intros now. unfold currentdatetime_of.
    rewrite !all_chars_append.
    rewrite (numeral_is_stamp _ (String_of_int_numeral _)).
    by rewrite !(numeral_is_stamp _ (pad_numeral _)).
  - intros now (Hy & Hm & Hd & Hh & Hmi & Hs) Hyear.
    unfold currentdatetime_of, pad. rewrite !padStart_two_digits by lia.
    rewrite !length_append, !two_digits_length, (year_four_digits _ Hyear).
    reflexivity.
Qed.

(** X5: two valid moments that get the same time stamp agree in every
    field down to the second: within one second resolution the stamp
    determines the moment. *)
Theorem currentdatetime_determines_the_second (d1 d2 : DateTime) :
  valid_fields d1 ->
  valid_fields d2 ->
  currentdatetime_of d1 = currentdatetime_of d2 ->
  d1 = d2.
Proof.
  intros (Hy1 & Hm1 & Hd1 & Hh1 & Hmi1 & Hs1) (Hy2 & Hm2 & Hd2 & Hh2 & Hmi2 & Hs2).
  unfold currentdatetime_of, pad. rewrite !padStart_two_digits by lia.
  intros Heq. apply append_inj_tail in Heq as [Hyear Htail];
    [|reflexivity].
  apply (inj pretty) in Hyear.
  unfold two_digits in Htail. rewrite !append_cons, !append_nil_l in Htail.
  injection Htail as M1 M0 D1 D0 H1 H0 I1 I0 S1 S0.
  assert (HM : getMonth d1 + 1 = getMonth d2 + 1)
    by (apply two_digits_inj; [lia | lia | unfold two_digits; congruence]).
  assert (HD : getDate d1 = getDate d2)
    by (apply two_digits_inj; [lia | lia | unfold two_digits; congruence]).
  assert (HH : getHours d1 = getHours d2)
    by (apply two_digits_inj; [lia | lia | unfold two_digits; congruence]).
  assert (HI : getMinutes d1 = getMinutes d2)
    by (apply two_digits_inj; [lia | lia | unfold two_digits; congruence]).
  assert (HS : getSeconds d1 = getSeconds d2)
    by (apply two_digits_inj; [lia | lia | unfold two_digits; congruence]).
  destruct d1, d2. simpl in *. f_equal; lia.
Qed.

End TimeStampShape.

Lemma sample_clock_valid : JS.valid_fields (DataOrchestrator.now Sample.office).
Proof. unfold JS.valid_fields. simpl. lia. Defined.

Lemma currentdatetime_is_formatDate_witness :
  DataOrchestrator.currentdatetime_of (DataOrchestrator.now Sample.office) =
  NunjucksRenderer.formatDate (DataOrchestrator.now Sample.office) "YYYY-MM-DD_HH-mm-ss".
Proof.
  apply (currentdatetime_is_formatDate (DataOrchestrator.now Sample.office)).
  exact sample_clock_valid.
Defined.

Lemma currentdatetime_is_filename_safe_witness :
  String.length (DataOrchestrator.currentdatetime_of (DataOrchestrator.now Sample.office)) =
  19%nat.
Proof.
  apply (proj2 currentdatetime_is_filename_safe (DataOrchestrator.now Sample.office)).
  - exact sample_clock_valid.
  - simpl. lia.
Defined.

Lemma currentdatetime_determines_the_second_witness :
  DataOrchestrator.now Sample.office = JS.mkDateTime 2024 0 5 10 20 30.
Proof.
  apply (currentdatetime_determines_the_second (DataOrchestrator.now Sample.office)
           (JS.mkDateTime 2024 0 5 10 20 30)).
  - exact sample_clock_valid.
  - unfold JS.valid_fields. simpl. lia.
  - reflexivity.
Defined.

(** ** More on the value mapper *)

Section MappingExtras.
Import JS Store MappingProcessor MappingSpec TablesSpec.
Context (rt : Runtime).












End MappingExtras.

Section TablesExtras.
Import JS Store MappingProcessor MappingSpec TablesSpec.
Context (rt : Runtime).


End TablesExtras.






(** ** More on the structural validator *)

Section ValidatorExtras.
Import JS Template DataOrchestrator ValidatorSpec OrchestratorSpec.

Lemma falsy_string_present o : falsy_string o = false <-> present o.
Proof.
  unfold present. destruct o as [s|]; simpl.
  - rewrite String.eqb_neq. split; [by exists s | by intros (t & [= <-] & Hne)].
  - split; [done | by intros (t & [=] & _)].
Qed.

Lemma single_check_nil (cond : bool) (e : ValidationError) :
  (if cond then [e] else []) = [] <-> cond = false.
Proof. by destruct cond. Qed.

Lemma table_name_records_nil configs : forall from,
  table_name_records from configs = [] <->
  Forall (fun config => present (tc_name config)) configs.
Proof.
  induction configs as [|config configs IH]; intros from; [done|].
  unfold table_name_records. rewrite imap_cons. cbn [concat].
  rewrite Forall_cons, <- (IH (S from)), <- falsy_string_present.
  assert (Hshift : concat (imap ((fun i config0 =>
                      if falsy_string (tc_name config0)
                      then [mkValidationError
                              ("tables[" +:+ String_of_int (Z.of_nat (from + i))
                                 +:+ "].name") "Table name is required" None]
                      else []) ∘ S) configs) = table_name_records (S from) configs).
  { unfold table_name_records. f_equal. apply imap_ext. intros i c _. simpl.
    by rewrite Nat.add_succ_r. }
  rewrite Hshift. rewrite Nat.add_0_r.
  destruct (falsy_string (tc_name config)); simpl.
  - split; [discriminate | by intros [? _]].
  - tauto.
Qed.

Lemma output_records_nil entries :
  concat (List.map output_records entries) = [] <->
  Forall (fun entry => present (oc_template (snd entry)) /\
                       present (oc_filename (snd entry))) entries.
Proof.
  induction entries as [|entry entries IH]; [done|].
  cbn [List.map concat]. rewrite Forall_cons, <- IH, <- !falsy_string_present.
  unfold output_records.
  destruct (falsy_string (oc_template entry.2)), (falsy_string (oc_filename entry.2));
    simpl; try (split; [discriminate | by intros [[? ?] _]]).
  tauto.
Qed.

(** X10: [validateTemplate] accepts exactly the well-formed templates:
    its [valid] flag is true if and only if the template has a non-empty
    name and version, at least one table binding and a non-empty name on
    every binding, at least one output and a non-empty template and
    filename on every output. *)
Theorem validateTemplate_accepts_exactly_well_formed template :
  valid (validateTemplate template) = true <-> well_formed template.
Proof.
  assert (Hvalid : valid (validateTemplate template) = true <->
                   errors (validateTemplate template) = []).
  { unfold validateTemplate. cbn [valid errors].
    match goal with |- context [Nat.eqb (List.length ?l) 0] => generalize l end.
    intros l. by destruct l. }
  rewrite Hvalid, validateTemplate_errors.
  rewrite !app_nil. unfold well_formed, name_check, version_check.
  rewrite !single_check_nil, !falsy_string_present.
  assert (Ht : tables_check template = [] <->
               exists configs, tables template = Some configs /\ configs <> [] /\
                               Forall (fun config => present (tc_name config)) configs).
  { unfold tables_check. destruct (tables template) as [[|config configs]|].
    - split; [discriminate | by intros (c & [= <-] & Hne & _)].
    - rewrite (table_name_records_nil (config :: configs) 0). split.
      + intros Hall. by exists (config :: configs).
      + by intros (c & [= <-] & _ & Hall).
    - split; [discriminate | by intros (c & [=] & _)]. }
  assert (Ho : outputs_check template = [] <->
               exists entries, outputs template = Some entries /\ entries <> [] /\
                 Forall (fun entry => present (oc_template (snd entry)) /\
                                      present (oc_filename (snd entry))) entries).
  { unfold outputs_check. destruct (outputs template) as [[|entry entries]|].
    - split; [discriminate | by intros (c & [= <-] & Hne & _)].
    - rewrite (output_records_nil (entry :: entries)). split.
      + intros Hall. by exists (entry :: entries).
      + by intros (c & [= <-] & _ & Hall).
    - split; [discriminate | by intros (c & [=] & _)]. }
  rewrite Ht, Ho. tauto.
Qed.

End ValidatorExtras.

(** ** More on the orchestrator *)

Section OrchestratorExtras.
Import JS Store Template NunjucksRenderer MappingProcessor MappingSpec TablesSpec.
Import DataOrchestrator ValidatorSpec OrchestratorSpec.
Context (rt : Runtime) (office : Office) (env : Environment TableData).

Lemma mappingsConfig_of_lookup configs : forall acc tableKey,
  tableKey <> "__proto__" ->
  mappingsConfig_of configs acc !! tableKey =
  match last_binding tableKey configs with
  | Some config => Some (tc_valueMappings config)
  | None => acc !! tableKey
  end.
Proof.
  unfold last_binding.
  induction configs as [|config configs IH]; intros acc tableKey Hkey; [done|].
  cbn [mappingsConfig_of]. rewrite IH by done. rewrite filter_cons.
  case_decide as Hname.
  - rewrite last_cons. destruct (last (filter _ configs)); [done|].
    rewrite assign_lookup, decide_True by done.
    by rewrite assignable_plain by congruence.
  - destruct (last (filter _ configs)); [done|].
    rewrite assign_lookup. by rewrite decide_False by done.
Qed.

Lemma mappingsConfig_of_proto configs : forall acc,
  acc !! "__proto__" = None -> mappingsConfig_of configs acc !! "__proto__" = None.
Proof.
  induction configs as [|config configs IH]; intros acc Hacc; [done|].
  cbn [mappingsConfig_of]. apply IH. rewrite assign_lookup.
  case_decide as Hname; [|done]. rewrite <- Hname.
  unfold assignable. by rewrite Hacc.
Qed.

(** X11: when several table bindings carry the same name, other than
    [__proto__], the rule list that [buildContext] files under that name is
    the one of the last such binding (undefined if that binding has no
    list), and a name that no binding carries has no property of its own;
    nothing is filed under the name [__proto__], whatever the bindings.
    Looking a name up finds the property filed under it; and when no
    binding named [__proto__] carries a rule list, so that [mappingsConfig]
    still inherits from [Object.prototype], looking up a name that no
    binding carries finds the member of [Object.prototype] of that name if
    there is one, and nothing otherwise. *)
Theorem mappingsConfig_last_binding_wins configs tableKey :
  tableKey <> "__proto__" ->
  mappingsConfig_of configs ∅ !! tableKey =
    (tc_valueMappings <$> last_binding tableKey configs) /\
  mappingsConfig_of configs ∅ !! "__proto__" = None /\
  (forall config,
      last_binding tableKey configs = Some config ->
      lookup_mappings (mappingsConfig_of configs ∅) tableKey =
        Own (tc_valueMappings config)) /\
  (plain_bindings configs ->
   last_binding tableKey configs = None ->
   lookup_mappings (mappingsConfig_of configs ∅) tableKey =
     match inherited tableKey with
     | Some m => Inherited m
     | None => Absent
     end).
Proof.
  intros Hkey.
  assert (Hown : mappingsConfig_of configs ∅ !! tableKey =
                 (tc_valueMappings <$> last_binding tableKey configs)).
  { rewrite mappingsConfig_of_lookup by done.
    by destruct (last_binding tableKey configs). }
  split; [exact Hown|]. split; [by apply mappingsConfig_of_proto|].
  unfold lookup_mappings, prototype_lookup. rewrite Hown.
  split; [by intros config ->|]. by intros _ ->.
Qed.



Lemma renderAllOutputs_loop_inv {D} (e : Environment D) context entries :
  forall results out,
  renderAllOutputs_loop rt e entries context results = inr out ->
  exists rendered,
    Forall2 (fun entry r => renderOutput e (snd entry) context = inr r) entries rendered /\
    out = (results ++ zip_with (fun entry r => set_name r (fst entry)) entries rendered)%list.
Proof.
  induction entries as [|[name output] entries IH]; intros results out Hrun.
  - exists []. simpl in Hrun. injection Hrun as <-. by rewrite app_nil_r.
  - cbn [renderAllOutputs_loop] in Hrun.
    destruct (renderOutput e output context) as [|r] eqn:Hr; [done|].
    destruct (IH _ _ Hrun) as (rendered & Hall & ->).
    exists (r :: rendered). split; [by constructor|].
    by rewrite <- app_assoc.
Qed.




Lemma valid_template_has_tables template :
  valid (validateTemplate template) = true ->
  exists configs, tables template = Some configs.
Proof.
  intros Hvalid.
  assert (Herr : errors (validateTemplate template) = []).
  { revert Hvalid. unfold validateTemplate. cbn [valid errors].
    match goal with |- context [Nat.eqb (List.length ?l) 0] => generalize l end.
    intros l. by destruct l. }
  rewrite validateTemplate_errors in Herr.
  apply app_nil in Herr as [_ Herr]. apply app_nil in Herr as [_ Herr].
  apply app_nil in Herr as [Herr _]. unfold tables_check in Herr.
  destruct (tables template) as [configs|]; [by exists configs | done].
Qed.

(** X14: a template that [validateTemplate] accepts does not make
    [validateDataAvailability] throw on its own account: when the two host
    calls return, a result is returned. *)
Theorem valid_template_passes_to_availability template availableTables availableRanges :
  valid (validateTemplate template) = true ->
  getTables office = inr availableTables ->
  getNamedRanges office = inr availableRanges ->
  exists result, validateDataAvailability rt office template = inr result.
Proof.
  intros Hvalid Htables Hranges.
  destruct (valid_template_has_tables template Hvalid) as (configs & Hconfigs).
  unfold validateDataAvailability. rewrite Htables, Hconfigs, Hranges.
  cbn [Throw.bind Throw.defined]. destruct (globals template); by eexists.
Qed.

End OrchestratorExtras.

Lemma mappingsConfig_last_binding_wins_witness :
  DataOrchestrator.mappingsConfig_of
    [Template.mkTableConfig (Some "Orders") None None;
     Template.mkTableConfig (Some "__proto__") None (Some [Sample.id_rule]);
     Template.mkTableConfig (Some "Orders") None (Some [Sample.status_rule])] ∅
    !! "Orders" = Some (Some [Sample.status_rule]).
Proof.
  apply (mappingsConfig_last_binding_wins 
           [Template.mkTableConfig (Some "Orders") None None;
            Template.mkTableConfig (Some "__proto__") None (Some [Sample.id_rule]);
            Template.mkTableConfig (Some "Orders") None (Some [Sample.status_rule])]
           "Orders").
  discriminate.
Defined.



(** A host that files the sample table under the key [constructor],
    which is the name of no binding: the lookup of the rules finds the
    built-in function, and [buildContext] throws. *)
Example buildContext_throws_on_foreign_key :
  DataOrchestrator.buildContext Sample.runtime Sample.office_foreign Sample.template =
  inl (JS.ThrowError (JS.TypeError_message Sample.runtime)).
Proof. reflexivity. Qed.



(** A preview made one second after the export: the same output comes
    under another filename. *)
Example preview_a_second_later_differs :
  DataOrchestrator.generateOutputs Sample.runtime Sample.office Sample.environment
    Sample.template =
  inr [Template.mkRenderedOutput "report" "report_2024-01-05_10-20-30.json" "[]"
         (JS.VString "application/json")] /\
  DataOrchestrator.previewOutput Sample.runtime Sample.office_next_second
    Sample.environment Sample.template "report" =
  inr (Some (Template.mkRenderedOutput "report_2024-01-05_10-20-31.json"
               "report_2024-01-05_10-20-31.json" "[]" (JS.VString "application/json"))).
Proof. split; vm_compute; reflexivity. Qed.

Lemma valid_template_passes_to_availability_witness :
  exists result,
    DataOrchestrator.validateDataAvailability Sample.runtime Sample.office
      Sample.template = inr result.
Proof.
  apply (valid_template_passes_to_availability Sample.runtime Sample.office
           Sample.template
           [DataOrchestrator.mkTableInfo "Orders" ["status"; "id"] 2]
           [DataOrchestrator.mkNamedRangeInfo "project" true "Sheet1!$A$1"]);
    reflexivity.
Defined.

(** ** The globals service *)

Section GlobalsFacts.
Import JS Template GlobalsService GlobalsSpec.
Context (rt : Runtime) (cv : Conversions).

Lemma getDefaultForType_of_type type : of_type type (getDefaultForType cv type).
Proof. destruct type as [[]|]; simpl; eauto. Qed.

Lemma of_type_not_nullish type v : of_type type v -> is_nullish v = false.
Proof. destruct type as [[]|]; intros [x ->]; done. Qed.

Lemma default_or_type_not_nullish defaultValue type :
  is_nullish (default_or_type cv defaultValue type) = false.
Proof.
  unfold default_or_type.
  destruct defaultValue as [[]|]; try done;
    apply (of_type_not_nullish type), getDefaultForType_of_type.
Qed.

Lemma default_or_type_of_type defaultValue type :
  no_default defaultValue -> of_type type (default_or_type cv defaultValue type).
Proof.
  intros [-> | [-> | ->]]; apply getDefaultForType_of_type.
Qed.

Lemma convertValue_of_type value type converted :
  convertValue rt cv value type = inr converted -> of_type type converted.
Proof.
  unfold convertValue, excelDateToISO.
  destruct type as [[]|]; simpl; destruct value as [| | | | |[d|]|m];
    try (intros [= <-]; eauto; fail).
  destruct (time_toISOString cv _); intros [= <-]; eauto.
Qed.

(** The outcomes of [readNamedRange]: the converted cell or the default. *)
Lemma readNamedRange_cases wb rangeName type defaultValue :
  let type' := match type with Some t => Some t | None => Some TString end in
  readNamedRange rt cv wb rangeName type defaultValue =
    Excel_run wb (inr (default_or_type cv defaultValue type')) \/
  exists value converted,
    named_value wb rangeName = inr value /\
    convertValue rt cv value type' = inr converted /\
    readNamedRange rt cv wb rangeName type defaultValue = Excel_run wb (inr converted).
Proof.
  intros type'. unfold readNamedRange. fold type'.
  destruct (named_value wb rangeName) as [e|value] eqn:Hvalue; [by left|].
  destruct value as [| | | |s| |m]; try (by left);
    try (destruct (convertValue rt cv _ type') as [|converted] eqn:Hc;
         [by left | right; eauto]).
  destruct (String.eqb s ""); [by left|].
  destruct (convertValue rt cv _ type') as [|converted] eqn:Hc; [by left | right; eauto].
Qed.

Lemma readNamedRange_runs wb rangeName type defaultValue :
  session wb = None ->
  exists v, readNamedRange rt cv wb rangeName type defaultValue = inr v.
Proof.
  intros Hs.
  destruct (readNamedRange_cases wb rangeName type defaultValue)
    as [-> | (value & converted & _ & _ & ->)];
    unfold Excel_run; rewrite Hs; eauto.
Qed.

Lemma readNamedRange_not_nullish wb rangeName type defaultValue v :
  readNamedRange rt cv wb rangeName type defaultValue = inr v -> is_nullish v = false.
Proof.
  destruct (readNamedRange_cases wb rangeName type defaultValue)
    as [-> | (value & converted & _ & Hc & ->)];
    unfold Excel_run; destruct (session wb); try done; intros [= <-].
  - apply default_or_type_not_nullish.
  - eapply of_type_not_nullish, convertValue_of_type, Hc.
Qed.


(** X16: a global declared without a default (or with a null one) is
    delivered in its declared type, whatever the cell holds: a number for
    the number type, a boolean for the boolean type, a string otherwise. *)
Theorem readNamedRange_delivers_the_declared_type wb rangeName type defaultValue v :
  no_default defaultValue ->
  readNamedRange rt cv wb rangeName type defaultValue = inr v ->
  of_type type v.
Proof.
  intros Hdefault.
  assert (Htype : forall w,
             of_type (match type with Some t => Some t | None => Some TString end) w ->
             of_type type w) by (by destruct type).
  destruct (readNamedRange_cases wb rangeName type defaultValue)
    as [-> | (value & converted & _ & Hc & ->)];
    unfold Excel_run; destruct (session wb); try done; intros [= <-]; apply Htype.
  - by apply default_or_type_of_type.
  - eapply convertValue_of_type, Hc.
Qed.

Lemma readAllGlobals_loop_run wb configs : forall acc,
  session wb = None ->
  acc !! "__proto__" = None ->
  exists globals,
    readAllGlobals_loop rt cv wb configs acc = inr globals /\
    dom globals = dom acc ∪ list_to_set (filed_names configs) /\
    ((forall k v, acc !! k = Some v -> is_nullish v = false) ->
     forall k v, globals !! k = Some v -> is_nullish v = false).
Proof.
  unfold filed_names.
  induction configs as [|config configs IH]; intros acc Hs Hproto.
  - exists acc. split; [done|]. split; [|auto].
    cbn [List.map]. rewrite filter_nil. cbn [list_to_set].
    by rewrite (right_id_L ∅ (∪)).
  - cbn [readAllGlobals_loop].
    destruct (readNamedRange_runs wb (gc_name config) (gc_type config)
                (gc_defaultValue config) Hs) as [value Hvalue].
    pose proof (readNamedRange_not_nullish wb (gc_name config) (gc_type config)
                  (gc_defaultValue config)) as Hdef.
    rewrite Hvalue. cbn [List.map]. rewrite filter_cons.
    destruct (decide (gc_name config <> "__proto__")) as [Hname|Hname].
    + rewrite assign_unfold, assignable_plain by done.
      destruct (IH (<[gc_name config := value]> acc) Hs) as (globals & Hrun & Hdom & Hnn).
      { by rewrite lookup_insert_ne. }
      exists globals. split; [exact Hrun|]. split.
      * rewrite Hdom, dom_insert_L. cbn [list_to_set].
        by rewrite (comm_L (∪) {[gc_name config]} (dom acc)), (assoc_L (∪)).
      * intros Hacc. apply Hnn. intros k v.
        destruct (decide (k = gc_name config)) as [->|Hne].
        -- rewrite lookup_insert_eq. intros [= <-]. by apply Hdef.
        -- rewrite lookup_insert_ne by done. apply Hacc.
    + apply dec_stable in Hname. rewrite assign_unfold.
      assert (Ha : assignable acc (gc_name config) = false).
      { rewrite Hname. unfold assignable. by rewrite Hproto. }
      rewrite Ha. by apply IH.
Qed.

(** X17: when [Excel.run] runs, [readAllGlobals] returns a record that
    has a property for every declared global but one named [__proto__],
    under which nothing is filed, and for nothing else, each holding a
    value that is neither null nor undefined; when [Excel.run] rejects, the
    first read rejects the whole call with the same failure. *)
Theorem readAllGlobals_defines_every_global wb configs :
  (session wb = None ->
   exists globals,
     readAllGlobals rt cv wb configs = inr globals /\
     dom globals = list_to_set (filed_names configs) /\
     globals !! "__proto__" = None /\
     forall k v, globals !! k = Some v -> is_nullish v = false) /\
  (forall e,
      session wb = Some e -> configs <> [] ->
      readAllGlobals rt cv wb configs = inl e).
Proof.
  split.
  - intros Hs.
    destruct (readAllGlobals_loop_run wb configs ∅ Hs) as (globals & Hrun & Hdom & Hnn);
      [done|].
    rewrite dom_empty_L, (left_id_L ∅ (∪)) in Hdom.
    exists globals. split; [exact Hrun|]. split; [exact Hdom|]. split.
    + apply not_elem_of_dom. rewrite Hdom, elem_of_list_to_set.
      unfold filed_names. rewrite list_elem_of_filter. by intros [? _].
    + apply Hnn. intros k v. by rewrite lookup_empty.
  - intros e Hs Hne. destruct configs as [|config configs]; [done|].
    unfold readAllGlobals. cbn [readAllGlobals_loop].
    unfold readNamedRange, Excel_run. by rewrite Hs.
Qed.

End GlobalsFacts.


Lemma readNamedRange_delivers_the_declared_type_witness :
  GlobalsSpec.of_type (Some Template.TBoolean) (JS.VBoolean false).
Proof.
  apply (readNamedRange_delivers_the_declared_type Sample.runtime Sample.conversions
           Sample.workbook "project" (Some Template.TBoolean) None (JS.VBoolean false)).
  - by left.
  - vm_compute. reflexivity.
Defined.

Lemma readAllGlobals_defines_every_global_witness :
  exists globals,
    GlobalsService.readAllGlobals Sample.runtime Sample.conversions Sample.workbook
      [Template.mkGlobalConfig "project" (Some Template.TString) None;
       Template.mkGlobalConfig "__proto__" None (Some (JS.VString "EMEA"))] = inr globals /\
    dom globals =
      list_to_set
        (GlobalsSpec.filed_names
           [Template.mkGlobalConfig "project" (Some Template.TString) None;
            Template.mkGlobalConfig "__proto__" None (Some (JS.VString "EMEA"))]) /\
    globals !! "__proto__" = None /\
    forall k v, globals !! k = Some v -> JS.is_nullish v = false.
Proof.
  apply (readAllGlobals_defines_every_global Sample.runtime Sample.conversions
           Sample.workbook
           [Template.mkGlobalConfig "project" (Some Template.TString) None;
            Template.mkGlobalConfig "__proto__" None (Some (JS.VString "EMEA"))]).
  reflexivity.
Defined.

(** ** The tables service *)

Section TableReadFacts.
Import JS Store Template DataOrchestrator TableService MappingSpec TableReadSpec.
Context (rt : Runtime) (wb : Workbook).

Lemma fill_row_run headers : forall h row index rowValues acc,
  h !! row = Some (ORow acc) ->
  fill_row rt row headers index rowValues h =
  Some (tt, <[row := ORow (fill_fields rt headers index rowValues acc)]> h).
Proof.
  induction headers as [|header headers IH]; intros h row index rowValues acc Hrow.
  - cbn [fill_row fill_fields]. unfold ret. by rewrite list_insert_id.
  - cbn [fill_row fill_fields]. unfold bind at 1, set_field. rewrite Hrow.
    pose proof (lookup_lt_Some _ _ _ Hrow) as Hlt.
    rewrite (IH _ row (S index) rowValues
               (assign acc (ToString rt header) (cell rowValues index)))
      by (by rewrite list_lookup_insert_eq).
    by rewrite list_insert_insert_eq.
Qed.

(** One turn of the loop over the body rows: a fresh row object after the
    objects made so far, its reference appended to the array. *)
Lemma add_row_run (h0 : list Object) elems objs headers rowValues :
  add_row rt (List.length h0) headers rowValues (h0 ++ OArray elems :: objs)%list =
  Some (tt, (h0 ++ OArray (elems ++ [S (List.length h0 + List.length objs)])
                :: objs ++ [ORow (row_fields rt headers rowValues)])%list).
Proof.
  unfold add_row, bind, new_object.
  set (H := (h0 ++ OArray elems :: objs)%list).
  assert (Hlen : List.length H = S (List.length h0 + List.length objs)).
  { unfold H. rewrite length_app. simpl. lia. }
  rewrite (fill_row_run headers _ (List.length H) 0 rowValues ∅)
    by (rewrite lookup_app_r by lia; by rewrite Nat.sub_diag).
  rewrite insert_app_r_alt by lia. rewrite Nat.sub_diag. cbn [insert list_insert].
  unfold push, H. rewrite <- app_assoc. cbn [app].
  rewrite lookup_app_r by lia. rewrite Nat.sub_diag. cbn [lookup list_lookup].
  rewrite insert_app_r_alt by lia. rewrite Nat.sub_diag. cbn [insert list_insert].
  fold H. by rewrite Hlen.
Qed.

Lemma body_loop_run (h0 : list Object) headers bodyValues : forall elems objs,
  for_of bodyValues (add_row rt (List.length h0) headers)
    (h0 ++ OArray elems :: objs)%list =
  Some (tt, (h0 ++ OArray (elems ++ seq (S (List.length h0 + List.length objs))
                                      (List.length bodyValues))
                :: objs ++ List.map (fun rowValues =>
                                       ORow (row_fields rt headers rowValues))
                             bodyValues)%list).
Proof.
  induction bodyValues as [|rowValues bodyValues IH]; intros elems objs.
  - cbn [for_of]. unfold ret. simpl. by rewrite !app_nil_r.
  - cbn [for_of]. unfold bind at 1. rewrite add_row_run, IH.
    rewrite length_app. simpl.
    rewrite <- !app_assoc. simpl.
    by replace (List.length h0 + (List.length objs + 1))%nat
      with (S (List.length h0 + List.length objs)) by lia.
Qed.

(** What [readTable] leaves in the store when the table can be loaded. *)
Lemma readTable_run h tableName columnMap rawHeaders bodyValues :
  table_values wb tableName = inr (rawHeaders, bodyValues) ->
  readTable rt wb tableName columnMap h =
  Some (inr (mkProcessedTableData tableName tableName
               (List.map (rename columnMap) rawHeaders) (List.length h)
               (List.length bodyValues)),
        (h ++ OArray (seq (S (List.length h)) (List.length bodyValues))
           :: List.map (fun rowValues =>
                          ORow (row_fields rt (List.map (rename columnMap) rawHeaders)
                                  rowValues)) bodyValues)%list).
Proof.
  intros Hload. unfold readTable. rewrite Hload.
  unfold bind at 1, new_object. unfold bind at 1.
  rewrite (body_loop_run h _ bodyValues [] []). simpl.
  by rewrite Nat.add_0_r.
Qed.

Lemma readTable_rows_at (h : list Object) columnMap rawHeaders
    (bodyValues : list (list Prim)) :
  rows_at
    (h ++ OArray (seq (S (List.length h)) (List.length bodyValues))
       :: List.map (fun rowValues =>
                      ORow (row_fields rt (List.map (rename columnMap) rawHeaders)
                              rowValues)) bodyValues)%list
    (List.length h)
    (seq (S (List.length h)) (List.length bodyValues))
    (List.map (row_fields rt (List.map (rename columnMap) rawHeaders)) bodyValues).
Proof.
  split.
  - rewrite lookup_app_r by lia. by rewrite Nat.sub_diag.
  - pose proof (fresh_rows_at
                  (h ++ [OArray (seq (S (List.length h)) (List.length bodyValues))])%list
                  (List.map (row_fields rt (List.map (rename columnMap) rawHeaders))
                     bodyValues) []) as Hfresh.
    rewrite length_app, !length_map, app_nil_r, <- app_assoc in Hfresh. simpl in Hfresh.
    rewrite Nat.add_1_r, <- list_fmap_compose in Hfresh. exact Hfresh.
Qed.

(** A field of a row object: the cell of the last column whose header
    gives that key; no field for a key that no header gives. *)
Lemma fill_fields_lookup headers : forall index rowValues acc k,
  k <> "__proto__" ->
  (forall i, (ToString rt <$> headers) !! i = Some k ->
             (forall j, (i < j)%nat -> (ToString rt <$> headers) !! j <> Some k) ->
             fill_fields rt headers index rowValues acc !! k =
             Some (cell rowValues (index + i)%nat)) /\
  (k ∉ (ToString rt <$> headers) ->
   fill_fields rt headers index rowValues acc !! k = acc !! k).
Proof.
  induction headers as [|header headers IH]; intros index rowValues acc k Hk.
  - split; [by intros i Hi | done].
  - cbn [fill_fields].
    destruct (IH (S index) rowValues
                (assign acc (ToString rt header) (cell rowValues index)) k Hk)
      as [IHlast IHnone].
    split.
    + intros [|i] Hi Hlast; simpl in Hi.
      * injection Hi as Hi. rewrite IHnone.
        -- rewrite assign_lookup, decide_True by done.
           rewrite assignable_plain by congruence. by rewrite Nat.add_0_r.
        -- intros Hin. apply list_elem_of_lookup in Hin as [j Hj].
           by apply (Hlast (S j)); [lia|].
      * rewrite (IHlast i Hi).
        -- by rewrite Nat.add_succ_r.
        -- intros j Hj. apply (Hlast (S j)). lia.
    + intros Hnot. rewrite fmap_cons in Hnot.
      apply not_elem_of_cons in Hnot as [Hne Hnot].
      rewrite (IHnone Hnot). rewrite assign_lookup. by rewrite decide_False.
Qed.

(** No column gives a row the field [__proto__]. *)
Lemma fill_fields_proto headers : forall index rowValues acc,
  acc !! "__proto__" = None ->
  fill_fields rt headers index rowValues acc !! "__proto__" = None.
Proof.
  induction headers as [|header headers IH]; intros index rowValues acc Hacc; [done|].
  cbn [fill_fields]. apply IH. rewrite assign_lookup.
  case_decide as Hkey; [|done]. rewrite <- Hkey. unfold assignable. by rewrite Hacc.
Qed.

(** The renaming of a header, case by case. *)
Lemma rename_cases columnMap header :
  rename columnMap header =
  match columnMap with
  | Some renames =>
      match renames !! header with
      | Some renamed => VString (if String.eqb renamed "" then header else renamed)
      | None =>
          match inherited header with
          | Some m => VBuiltin m
          | None => VString header
          end
      end
  | None => VString header
  end.
Proof.
  unfold rename, prototype_lookup. destruct columnMap as [renames|]; [|done].
  destruct (renames !! header) as [renamed|]; simpl.
  - by destruct (String.eqb renamed "").
  - by destruct (inherited header).
Qed.

(** X18: when the table can be loaded, [readTable] leaves the store it
    was given untouched and adds an array with one fresh row object per
    body row, in order; the row count is the number of body rows.  A
    header is the workbook's, replaced by the entry the column map has for
    it when that entry is not empty; with a column map, a header that the
    map does not list and that names a member of [Object.prototype] is
    replaced by that member.  In a row object, the key a header gives (its
    string form) holds the cell of the last column whose header gives that
    key, [undefined] when the row is too short; no other field is there,
    and never a field [__proto__]. *)
Theorem readTable_builds_one_object_per_row h tableName columnMap rawHeaders bodyValues :
  table_values wb tableName = inr (rawHeaders, bodyValues) ->
  exists tableData ext elems,
    readTable rt wb tableName columnMap h = Some (inr tableData, (h ++ ext)%list) /\
    pd_headers tableData = List.map (rename columnMap) rawHeaders /\
    pd_rowCount tableData = List.length bodyValues /\
    rows_at (h ++ ext)%list (pd_rows tableData) elems
      (List.map (row_fields rt (pd_headers tableData)) bodyValues) /\
    List.length elems = List.length bodyValues /\
    (forall header,
        rename columnMap header =
        match columnMap with
        | Some renames =>
            match renames !! header with
            | Some renamed => VString (if String.eqb renamed "" then header else renamed)
            | None =>
                match inherited header with
                | Some m => VBuiltin m
                | None => VString header
                end
            end
        | None => VString header
        end) /\
    forall rowValues,
      row_fields rt (pd_headers tableData) rowValues !! "__proto__" = None /\
      forall k,
        k <> "__proto__" ->
        (forall i, (ToString rt <$> pd_headers tableData) !! i = Some k ->
                   (forall j, (i < j)%nat ->
                              (ToString rt <$> pd_headers tableData) !! j <> Some k) ->
                   row_fields rt (pd_headers tableData) rowValues !! k =
                   Some (cell rowValues i)) /\
        (k ∉ (ToString rt <$> pd_headers tableData) ->
         row_fields rt (pd_headers tableData) rowValues !! k = None).
Proof.
  intros Hload. eexists _, _, _. split; [by apply readTable_run|].
  cbn [pd_headers pd_rowCount pd_rows].
  split; [done|]. split; [done|]. split; [apply readTable_rows_at|].
  split; [by rewrite length_seq|]. split; [intros header; apply rename_cases|].
  intros rowValues. unfold row_fields. split; [by apply fill_fields_proto|].
  intros k Hk.
  destruct (fill_fields_lookup (List.map (rename columnMap) rawHeaders) 0 rowValues ∅ k Hk)
    as [Hlast Hnone].
  split; [exact Hlast|]. intros Hnot. by rewrite (Hnone Hnot).
Qed.

End TableReadFacts.

Section ReadTablesFacts.
Import JS Store Template DataOrchestrator TableService MappingSpec TableReadSpec.
Context (rt : Runtime) (wb : Workbook).

(** One turn of the loop of [readTables]: a table is read, or an empty
    one made, and the store only grows. *)
Lemma readTables_step h config :
  exists rows ext,
    (let! outcome := readTable rt wb (tableName config) (columnMap config) in
     match outcome with
     | inr tableData => ret (pd_rows tableData)
     | inl _ => new_object (OArray [])
     end)%store h = Some (rows, (h ++ ext)%list) /\
    table_read rt wb (h ++ ext)%list config rows.
Proof.
  unfold table_read, bind.
  destruct (table_values wb (tableName config)) as [e|[rawHeaders bodyValues]] eqn:Hload.
  - unfold readTable. rewrite Hload. unfold ret, new_object.
    exists (List.length h), [OArray []]. split; [done|]. split; [|constructor].
    rewrite lookup_app_r by lia. by rewrite Nat.sub_diag.
  - rewrite (readTable_run rt wb h _ (columnMap config) _ _ Hload). unfold ret.
    eexists _, _. split; [reflexivity|]. cbn [pd_rows].
    eexists. apply readTable_rows_at.
Qed.

Lemma readTables_loop_unfold config rest result h :
  readTables_loop rt wb (config :: rest) result h =
  match (let! outcome := readTable rt wb (tableName config) (columnMap config) in
         match outcome with
         | inr tableData => ret (pd_rows tableData)
         | inl _ => new_object (OArray [])
         end)%store h with
  | Some (rows, h') =>
      readTables_loop rt wb rest
        (record_set result (interpolate (templateKey config)) rows) h'
  | None => None
  end.
Proof.
  cbn [readTables_loop]. unfold bind.
  destruct (readTable rt wb (tableName config) (columnMap config) h) as [[[e|data] h']|];
    [|done|done].
  unfold new_object. reflexivity.
Qed.

Lemma table_read_grow h ext config rows :
  table_read rt wb h config rows -> table_read rt wb (h ++ ext)%list config rows.
Proof.
  unfold table_read.
  destruct (table_values wb (tableName config)) as [e|[rawHeaders bodyValues]].
  - apply rows_at_grow.
  - intros [elems Hrows]. exists elems. by apply rows_at_grow.
Qed.

Lemma table_read_tables_at h config rows :
  table_read rt wb h config rows -> exists elems fields, rows_at h rows elems fields.
Proof.
  unfold table_read.
  destruct (table_values wb (tableName config)) as [e|[rawHeaders bodyValues]].
  - by exists [], [].
  - intros [elems Hrows]. by eexists _, _.
Qed.

Lemma filed_keys_cons config rest k :
  k ∈ filed_keys (config :: rest) <->
  (k = interpolate (templateKey config) /\ k <> "__proto__") \/ k ∈ filed_keys rest.
Proof.
  unfold filed_keys. cbn [List.map]. rewrite !list_elem_of_filter, elem_of_cons.
  split; [intros [Hk [->|Hin]]; tauto | intros [[-> Hk]|[Hk Hin]]; tauto].
Qed.

(** The loop of [readTables]: it returns; the record it fills stays a
    record of tables in enumeration order, without a key [__proto__]. *)
Lemma readTables_loop_run tableConfigs : forall h result,
  tables_at h result ->
  NoDup (List.map fst result) ->
  enumerated (List.map fst result) = true ->
  "__proto__" ∉ List.map fst result ->
  exists out ext,
    readTables_loop rt wb tableConfigs result h = Some (out, (h ++ ext)%list) /\
    tables_at (h ++ ext)%list out /\
    NoDup (List.map fst out) /\
    enumerated (List.map fst out) = true /\
    ("__proto__" ∉ List.map fst out) /\
    forall k, k ∈ List.map fst out <->
              k ∈ List.map fst result \/ k ∈ filed_keys tableConfigs.
Proof.
  induction tableConfigs as [|config rest IH]; intros h result Hwf Hdup Henum Hproto.
  - exists result, []. rewrite app_nil_r. repeat (split; [done|]).
    intros k. split; [by left|]. intros [?|Hin]; [done|]. by apply elem_of_nil in Hin.
  - rewrite readTables_loop_unfold.
    destruct (readTables_step h config) as (rows & ext & -> & Hread).
    destruct (IH (h ++ ext)%list
                (record_set result (interpolate (templateKey config)) rows))
      as (out & ext' & Hrun & Hwf' & Hdup' & Henum' & Hproto' & Hkeys).
    { unfold tables_at. apply Forall_forall. intros entry Hin.
      apply record_set_elem in Hin as [->|Hin].
      - by apply (table_read_tables_at _ config).
      - apply tables_at_grow with (ext := ext) in Hwf. unfold tables_at in Hwf.
        rewrite Forall_forall in Hwf. by apply Hwf. }
    { by apply record_set_NoDup. }
    { by apply record_set_enumerated. }
    { rewrite record_set_keys. intros [?|[Heq Hne]]; [done | by apply Hne]. }
    exists out, (ext ++ ext')%list. rewrite app_assoc.
    repeat (split; [done|]).
    intros k. rewrite Hkeys, record_set_keys, filed_keys_cons. split.
    + intros [[Hin|[-> Hk]]|Hin]; [by left | by right; left | by right; right].
    + intros [Hin|[[-> Hk]|Hin]]; [by left; left | by left; right | by right].
Qed.

(** X19: [readTables] always returns, whatever the workbook does: its
    result has exactly the keys of the configurations other than
    [__proto__], under which nothing is filed, each once and in
    enumeration order (array indices first); every entry points to an
    array of row objects, so that the value mapper can run over it; and
    the store it was given is left as it was. *)
Theorem readTables_always_returns_well_formed_tables tableConfigs h :
  exists result ext,
    readTables rt wb tableConfigs h = Some (result, (h ++ ext)%list) /\
    tables_at (h ++ ext)%list result /\
    NoDup (List.map fst result) /\
    enumerated (List.map fst result) = true /\
    forall k, k ∈ List.map fst result <->
              k <> "__proto__" /\
              exists config, config ∈ tableConfigs /\ interpolate (templateKey config) = k.
Proof.
  destruct (readTables_loop_run tableConfigs h [])
    as (out & ext & Hrun & Hwf & Hdup & Henum & _ & Hkeys).
  { constructor. }
  { constructor. }
  { done. }
  { intros Hin. by apply elem_of_nil in Hin. }
  exists out, ext. repeat (split; [done|]).
  intros k. rewrite Hkeys. unfold filed_keys. cbn [List.map].
  rewrite elem_of_nil, list_elem_of_filter, list_elem_of_fmap. split.
  - intros [[]|[Hk (config & -> & Hin)]]. split; [done|]. by exists config.
  - intros [Hk (config & Hin & <-)]. right. split; [done|]. by exists config.
Qed.

Lemma readTables_loop_isolates tableConfigs : forall h result,
  NoDup (List.map (fun config => interpolate (templateKey config)) tableConfigs) ->
  exists out ext,
    readTables_loop rt wb tableConfigs result h = Some (out, (h ++ ext)%list) /\
    (forall config,
        config ∈ tableConfigs ->
        interpolate (templateKey config) <> "__proto__" ->
        exists rows,
          record_get out (interpolate (templateKey config)) = Some rows /\
          table_read rt wb (h ++ ext)%list config rows) /\
    (forall k,
        k ∉ List.map (fun config => interpolate (templateKey config)) tableConfigs ->
        record_get out k = record_get result k).
Proof.
  induction tableConfigs as [|config rest IH]; intros h result Hdup.
  - exists result, []. rewrite app_nil_r. split; [done|]. split; [|done].
    intros config Hin. by apply elem_of_nil in Hin.
  - rewrite readTables_loop_unfold.
    destruct (readTables_step h config) as (rows & ext & -> & Hread).
    cbn [List.map] in Hdup. apply NoDup_cons in Hdup as [Hnew Hdup].
    destruct (IH (h ++ ext)%list
                (record_set result (interpolate (templateKey config)) rows) Hdup)
      as (out & ext' & Hrun & Hall & Hrest).
    exists out, (ext ++ ext')%list. rewrite app_assoc.
    split; [exact Hrun|]. split.
    + intros c Hin Hkey. apply elem_of_cons in Hin as [->|Hin]; [|by apply Hall].
      exists rows. split; [|by apply table_read_grow].
      rewrite (Hrest _ Hnew), record_get_set, decide_True by done.
      by rewrite decide_False by (by intros [? _]).
    + intros k Hk. cbn [List.map] in Hk. apply not_elem_of_cons in Hk as [Hne Hk].
      rewrite (Hrest _ Hk), record_get_set. by rewrite decide_False.
Qed.

(** X20: with configurations of pairwise different keys, [readTables]
    files one table per configuration under its key (but for a key
    [__proto__], under which nothing is filed): the rows of the table where
    it could be read, and an empty array where reading it failed; a table
    that cannot be read costs the others nothing.  The result has the keys
    of the configurations in enumeration order, array indices first, which
    need not be the order of the configurations. *)
Theorem readTables_isolates_failures tableConfigs h :
  NoDup (List.map (fun config => interpolate (templateKey config)) tableConfigs) ->
  exists result ext,
    readTables rt wb tableConfigs h = Some (result, (h ++ ext)%list) /\
    (forall config,
        config ∈ tableConfigs ->
        interpolate (templateKey config) <> "__proto__" ->
        exists rows,
          record_get result (interpolate (templateKey config)) = Some rows /\
          table_read rt wb (h ++ ext)%list config rows) /\
    List.map fst result ≡ₚ filed_keys tableConfigs /\
    enumerated (List.map fst result) = true.
Proof.
  intros Hdup.
  destruct (readTables_loop_isolates tableConfigs h [] Hdup)
    as (out & ext & Hrun & Hall & _).
  destruct (readTables_loop_run tableConfigs h [])
    as (out2 & ext2 & Hrun2 & _ & Hdup2 & Henum & _ & Hkeys).
  { constructor. }
  { constructor. }
  { done. }
  { intros Hin. by apply elem_of_nil in Hin. }
  rewrite Hrun in Hrun2. injection Hrun2 as <- _.
  exists out, ext. split; [exact Hrun|]. split; [exact Hall|]. split; [|exact Henum].
  apply NoDup_Permutation; [done | |].
  - unfold filed_keys. by apply NoDup_filter.
  - intros k. rewrite Hkeys. split; [|by right].
    intros [Hin|?]; [|done]. by apply elem_of_nil in Hin.
Qed.

End ReadTablesFacts.

(** ** The orchestrator over the tables service *)

Section ContextOverTableService.
Import JS Store Template NunjucksRenderer MappingProcessor MappingSpec.
Import DataOrchestrator TableReadSpec OrchestratorSpec.
Context (rt : Runtime) (office : Office) (wb : TableService.Workbook).


End ContextOverTableService.

(** ** Delivering the outputs *)

Section Delivery.
Import JS Template NunjucksRenderer RendererSpec.

Lemma value_or_truthy a b : ToBoolean b = true -> ToBoolean (value_or a b) = true.
Proof. intros Hb. unfold value_or. by destruct (ToBoolean a) eqn:Ha. Qed.

(** What [getMimeType] returns is truthy. *)
Lemma getMimeType_truthy filename : ToBoolean (getMimeType filename) = true.
Proof. unfold getMimeType. by apply value_or_truthy. Qed.

(** Every entry of the renderer's table is in the table of the output
    service. *)
Lemma mimeTypes_extended ext type :
  record_get mimeTypes ext = Some type ->
  record_get OutputService.mimeTypes ext = Some type.
Proof.
  unfold mimeTypes, OutputService.mimeTypes, record_get.
  repeat match goal with
         | |- context [String.eqb ?k ext] =>
             destruct (String.eqb_spec k ext) as [<-|?]; [by intros|]
         end.
  done.
Qed.

Lemma output_mimeTypes_no_member ext m :
  inherited ext = Some m -> record_get OutputService.mimeTypes ext = None.
Proof. intros Hm. apply inherited_name in Hm as <-. by destruct m. Qed.

(** X22: the MIME table of the output service extends the one of the
    renderer: whenever the renderer gives a file a type other than the
    default text/plain, the output service gives it the same one. *)
Theorem output_service_mime_table_extends_the_renderer filename :
  getMimeType filename <> "text/plain" ->
  OutputService.getMimeType filename = getMimeType filename.
Proof.
  unfold getMimeType, OutputService.getMimeType.
  generalize (or_else (toLowerCase <$> last (split "." filename)) "").
  intros ext. unfold record_lookup, prototype_lookup.
  destruct (record_get mimeTypes ext) as [type|] eqn:Hentry.
  - by rewrite (mimeTypes_extended ext type Hentry).
  - destruct (inherited ext) as [m|] eqn:Hm; [|by intros Hne].
    by rewrite (output_mimeTypes_no_member ext m Hm).
Qed.

Context {Data : Type} (rt : Runtime) (env : Environment Data).

(** X23: what [renderAllOutputs] returned is delivered as follows: nothing
    and an error when there is no output; one output as a single file,
    under its resolved filename and with the type the renderer gave it, the
    table of the output service not being asked; several outputs as one
    archive for which JSZip is handed one file per output, in order, each
    under its resolved filename (what the archive holds when two filenames
    are the same is up to JSZip). *)
Theorem rendered_outputs_are_handed_to_the_download timestamp outputs context results templateName :
  renderAllOutputs rt env outputs context = inr results ->
  List.length results = List.length outputs /\
  match results with
  | [] =>
      OutputService.downloadOutputs timestamp results templateName =
      inl (ThrowError "No outputs to download")
  | [out] =>
      OutputService.downloadOutputs timestamp results templateName =
      inr (OutputService.mkDownload
             (OutputService.FileBlob (ro_content out) (getMimeType (ro_filename out)))
             (ro_filename out))
  | _ =>
      exists zipName,
        OutputService.downloadOutputs timestamp results templateName =
        inr (OutputService.mkDownload
               (OutputService.ZipBlob
                  (List.map (fun out => (ro_filename out, ro_content out)) results))
               zipName) /\
        (forall name, templateName = Some name -> name <> "" ->
                      zipName = name +:+ "_outputs.zip")
  end.
Proof.
  intros Hrun. unfold renderAllOutputs in Hrun.
  apply renderAllOutputs_loop_inv in Hrun as (rendered & Hall & ->).
  rewrite app_nil_l.
  assert (Hlen : List.length (zip_with (fun entry r => set_name r (fst entry))
                                outputs rendered) = List.length outputs).
  { rewrite length_zip_with_l_eq; [done|]. by apply Forall2_length in Hall. }
  split; [exact Hlen|].
  destruct Hall as [|[key output] r outputs rendered Hr Hall]; [done|].
  destruct Hall as [|[key2 output2] r2 outputs rendered Hr2 Hall].
  - cbn [zip_with OutputService.downloadOutputs].
    unfold OutputService.downloadFile. cbn [set_name ro_content ro_filename ro_mimeType].
    destruct (renderOutput_name env _ _ _ Hr) as (_ & _ & ->).
    cbn [from_option id]. unfold value_or at 1. by rewrite getMimeType_truthy.
  - cbn [zip_with OutputService.downloadOutputs].
    eexists. split; [reflexivity|].
    intros name -> Hname. cbn [falsy_string interpolate].
    by destruct (String.eqb_spec name "").
Qed.

End Delivery.

(** The theorems about the services and the delivery at the sample data. *)

Lemma readTable_builds_one_object_per_row_witness :
  exists tableData ext elems,
    TableService.readTable Sample.runtime Sample.table_workbook (Some "Orders")
      (Some {[ "Status" := "status" ]}) [] = Some (inr tableData, ([] ++ ext)%list) /\
    TableService.pd_headers tableData =
      List.map (TableService.rename (Some {[ "Status" := "status" ]})) ["Status"; "id"] /\
    TableService.pd_rowCount tableData = 2%nat /\
    MappingSpec.rows_at ([] ++ ext)%list (TableService.pd_rows tableData) elems
      (List.map (TableReadSpec.row_fields Sample.runtime (TableService.pd_headers tableData))
         [[JS.PString "A"; JS.PString "7"]; [JS.PString "B"]]) /\
    List.length elems = 2%nat.
Proof.
  destruct (readTable_builds_one_object_per_row Sample.runtime Sample.table_workbook []
              (Some "Orders") (Some {[ "Status" := "status" ]})
              ["Status"; "id"] [[JS.PString "A"; JS.PString "7"]; [JS.PString "B"]])
    as (tableData & ext & elems & H1 & H2 & H3 & H4 & H5 & _).
  - reflexivity.
  - exists tableData, ext, elems.
    split; [exact H1|]. split; [exact H2|]. split; [exact H3|].
    split; [exact H4 | exact H5].
Defined.

(** A table whose first column is headed [constructor], read with a
    column map that does not list it: the header becomes the built-in
    function, and the cell is filed under the string form of the
    function. *)
Example readTable_renames_to_a_member :
  TableService.rename (Some {[ "Status" := "status" ]}) "constructor" =
    JS.VBuiltin JS.Mconstructor /\
  TableReadSpec.row_fields Sample.runtime
    [TableService.rename (Some {[ "Status" := "status" ]}) "constructor"]
    [JS.PString "A"] =
    {[ "function Object() { [native code] }" := JS.VString "A" ]}.
Proof. split; reflexivity. Qed.

Lemma readTables_isolates_failures_witness :
  exists result ext,
    TableService.readTables Sample.runtime Sample.table_workbook
      [DataOrchestrator.mkTableReadConfig (Some "Orders") (Some "Orders") None;
       DataOrchestrator.mkTableReadConfig (Some "7") (Some "Invoices") None] [] =
      Some (result, ([] ++ ext)%list) /\
    (forall config,
        config ∈ [DataOrchestrator.mkTableReadConfig (Some "Orders") (Some "Orders") None;
                  DataOrchestrator.mkTableReadConfig (Some "7") (Some "Invoices") None] ->
        JS.interpolate (DataOrchestrator.templateKey config) <> "__proto__" ->
        exists rows,
          JS.record_get result (JS.interpolate (DataOrchestrator.templateKey config)) =
            Some rows /\
          TableReadSpec.table_read Sample.runtime Sample.table_workbook ([] ++ ext)%list
            config rows) /\
    List.map fst result ≡ₚ
      TableReadSpec.filed_keys
        [DataOrchestrator.mkTableReadConfig (Some "Orders") (Some "Orders") None;
         DataOrchestrator.mkTableReadConfig (Some "7") (Some "Invoices") None] /\
    JS.enumerated (List.map fst result) = true.
Proof.
  apply (readTables_isolates_failures Sample.runtime Sample.table_workbook
           [DataOrchestrator.mkTableReadConfig (Some "Orders") (Some "Orders") None;
            DataOrchestrator.mkTableReadConfig (Some "7") (Some "Invoices") None]
           []).
  repeat constructor; [|intros Hin; inversion Hin].
  intros Hin. apply list_elem_of_singleton in Hin. discriminate.
Defined.

(** The table filed under the key [7] comes first in the result, though
    its configuration comes second; a configuration with the key
    [__proto__] leaves no trace. *)
Example readTables_enumerates_array_indices_first :
  (fst <$> TableService.readTables Sample.runtime Sample.table_workbook
     [DataOrchestrator.mkTableReadConfig (Some "Orders") (Some "Orders") None;
      DataOrchestrator.mkTableReadConfig (Some "7") (Some "Invoices") None;
      DataOrchestrator.mkTableReadConfig (Some "__proto__") (Some "Orders") None] []) =
  Some [("7", 3%nat); ("Orders", 0%nat)].
Proof. reflexivity. Qed.


Lemma output_service_mime_table_extends_the_renderer_witness :
  OutputService.getMimeType "report.yml" = NunjucksRenderer.getMimeType "report.yml".
Proof.
  apply (output_service_mime_table_extends_the_renderer "report.yml").
  vm_compute. discriminate.
Defined.

Lemma rendered_outputs_are_handed_to_the_download_witness :
  OutputService.downloadOutputs "2024-01-05T10-20-30"
    [Template.mkRenderedOutput "report" "report_2024-01-05_10-20-30.json" "[]"
       (JS.VString "application/json")] (Some "Orders export") =
  inr (OutputService.mkDownload
         (OutputService.FileBlob "[]"
            (NunjucksRenderer.getMimeType "report_2024-01-05_10-20-30.json"))
         "report_2024-01-05_10-20-30.json").
Proof.
  apply (rendered_outputs_are_handed_to_the_download Sample.runtime Sample.environment
           "2024-01-05T10-20-30" [("report", Sample.report)] Sample.context
           [Template.mkRenderedOutput "report" "report_2024-01-05_10-20-30.json" "[]"
              (JS.VString "application/json")] (Some "Orders export")).
  vm_compute. reflexivity.
Defined.
